(** * A page-oriented storage cache: record codec, paged disk file, buffer pool

    Shallow embedding of the buffer-manager lab
    ([base_data_struct.py], [disk_manager.py], [step03_with_buffer_manager.py],
    [step05_bufferLLMemory.py]) and the properties checked against it.

    Conventions of the embedding.
    - Python integers are [Z]; frame indices and sizes that only ever come
      from [range] and [len] are [nat].
    - Python floats are IEEE-754 binary64; they are the primitive [float]
      of the kernel, so [price * 100] and [cents / 100.0] are computed with
      the very same rounding as in the interpreter.
    - A method that mutates [self] is a function in the monad [M S]: it
      receives the object, returns the mutated object, and returns either a
      value or a raised exception.  Mutations made before an exception is
      raised stay in the returned state, as they do in Python.
    - Wall-clock durations ([time.perf_counter] differences) are inputs of
      the disk operations. *)

From Stdlib Require Import ZArith QArith Lia Floats.PrimFloat Floats.FloatOps
  Floats.SpecFloat Numbers.Cyclic.Int63.Uint63 Init.Byte Strings.Byte.
From stdpp Require Import base gmap strings list fin_maps.

Local Open Scope Z_scope.

(* ===================================================================== *)
(** ** Exceptions and the two monads                                      *)
(* ===================================================================== *)

(** The exceptions the modelled code can raise.  [OutOfFuel] is not a Python
    exception: it is what a fuel-bounded loop of the model answers when the
    fuel is exhausted, and it is proved unreachable. *)
Inductive exn : Set :=
  | StructError | ValueError | OverflowError | IndexError
  | UnboundLocalError | ZeroDivisionError | OutOfFuel.

Inductive result (A : Type) : Type :=
  | Ok (a : A)
  | Raise (e : exn).
Arguments Ok {A} a.
Arguments Raise {A} e.

#[export] Instance result_ret : MRet result := fun A a => Ok a.
#[export] Instance result_bind : MBind result := fun A B f r =>
  match r with Ok a => f a | Raise e => Raise e end.

(** State and exceptions: the state survives a raise. *)
Definition M (S A : Type) : Type := S -> result A * S.

Definition ret {S A} (a : A) : M S A := fun s => (Ok a, s).
Definition raise {S A} (e : exn) : M S A := fun s => (Raise e, s).
Definition bind {S A B} (m : M S A) (k : A -> M S B) : M S B := fun s =>
  match m s with
  | (Ok a, s') => k a s'
  | (Raise e, s') => (Raise e, s')
  end.
Definition get {S} : M S S := fun s => (Ok s, s).
Definition gets {S A} (f : S -> A) : M S A := fun s => (Ok (f s), s).
Definition modify {S} (f : S -> S) : M S unit := fun s => (Ok tt, f s).
(** Lift a pure, possibly raising computation. *)
Definition lift {S A} (r : result A) : M S A := fun s => (r, s).

Notation "x <- m ;; k" := (bind m (fun x => k))
  (at level 100, m at next level, right associativity).
Notation "m ;;; k" := (bind m (fun _ => k))
  (at level 100, right associativity).

(* ===================================================================== *)
(** ** [struct] packing of unsigned 32-bit words                          *)
(* ===================================================================== *)

Definition byte_of_Z (z : Z) : byte :=
  match Byte.of_N (Z.to_N (z mod 256)) with Some b => b | None => x00 end.
Definition Z_of_byte (b : byte) : Z := Z.of_N (Byte.to_N b).

(** [struct.pack('I', n)]: four bytes, least significant first (the native
    order of the x86-64 and arm64 hosts the lab runs on); [struct.error]
    when [n] is not in [0, 2^32). *)
Definition pack_I (n : Z) : result (list byte) :=
  if (0 <=? n) && (n <? 2 ^ 32) then
    Ok [byte_of_Z n; byte_of_Z (n / 2 ^ 8); byte_of_Z (n / 2 ^ 16);
        byte_of_Z (n / 2 ^ 24)]
  else Raise StructError.

(** The value of a little-endian byte string. *)
Fixpoint le_value (bs : list byte) : Z :=
  match bs with
  | [] => 0
  | b :: bs' => Z_of_byte b + 2 ^ 8 * le_value bs'
  end.

(** [struct.pack('I' * len(vals), *vals)]. *)
Fixpoint struct_pack (vals : list Z) : result (list byte) :=
  match vals with
  | [] => Ok []
  | v :: vals' =>
      w ← pack_I v; ws ← struct_pack vals'; Ok (w ++ ws)
  end.

Fixpoint unpack_words (count : nat) (data : list byte) : list Z :=
  match count with
  | O => []
  | S count' => le_value (take 4 data) :: unpack_words count' (drop 4 data)
  end.

(** [struct.unpack('I' * count, data)]: [struct.error] unless [data] has
    exactly [4 * count] bytes. *)
Definition struct_unpack (count : nat) (data : list byte) : result (list Z) :=
  if (length data =? 4 * count)%nat then Ok (unpack_words count data)
  else Raise StructError.

(* ===================================================================== *)
(** ** Floats: [int(x)] and [int / float]                                 *)
(* ===================================================================== *)

(** [int(x)] on a float: truncation towards zero; [ValueError] on NaN and
    [OverflowError] on an infinity. *)
Definition int_of_float (x : float) : result Z :=
  match Prim2SF x with
  | S754_zero _ => Ok 0
  | S754_infinity _ => Raise OverflowError
  | S754_nan => Raise ValueError
  | S754_finite s m e =>
      let a := if 0 <=? e then Z.shiftl (Z.pos m) e
               else Z.shiftr (Z.pos m) (- e) in
      Ok (if s then - a else a)
  end.

(** The float of an integer below [2^63] in magnitude (exact below [2^53],
    which covers every 32-bit field). *)
Definition float_of_Z (z : Z) : float :=
  if 0 <=? z then PrimFloat.of_uint63 (Uint63.of_Z z)
  else PrimFloat.opp (PrimFloat.of_uint63 (Uint63.of_Z (- z))).

(* ===================================================================== *)
(** ** [base_data_struct.py]                                              *)
(* ===================================================================== *)

Module Config.
Definition PAGE_SIZE : nat := 4096.
End Config.

Module Order.
Definition RECORD_SIZE : nat := 32.

Record t : Type := mk {
  order_id : Z;
  customer_id : Z;
  product_id : Z;
  quantity : Z;
  price : float;
  order_date : Z;
  region : Z
}.

(** [int(self.price * 100)] *)
Definition price_cents (o : t) : result Z :=
  int_of_float (PrimFloat.mul (price o) 100%float).

Definition to_bytes (o : t) : result (list byte) :=
  cents ← price_cents o;
  struct_pack [order_id o; customer_id o; product_id o; quantity o;
               cents; order_date o; region o; 0].

(** [fields[4] / 100.0] *)
Definition price_of_cents (cents : Z) : float :=
  PrimFloat.div (float_of_Z cents) 100%float.

(** The constructor call of [from_bytes] on the unpacked tuple;
    [fields[7]] is padding. *)
Definition of_fields (fields : list Z) : t :=
  {| order_id := nth 0 fields 0;
     customer_id := nth 1 fields 0;
     product_id := nth 2 fields 0;
     quantity := nth 3 fields 0;
     price := price_of_cents (nth 4 fields 0);
     order_date := nth 5 fields 0;
     region := nth 6 fields 0 |}.

Definition from_bytes (data : list byte) : result t :=
  if (length data <? RECORD_SIZE)%nat then Raise ValueError
  else
    fields ← struct_unpack 8 (take RECORD_SIZE data);
    Ok (of_fields fields).
End Order.

Module DiskPage.
Definition PAGE_SIZE : nat := Config.PAGE_SIZE.
Definition RECORDS_PER_PAGE : nat := (PAGE_SIZE / Order.RECORD_SIZE)%nat.

Record t : Type := mk {
  page_id : Z;
  orders : list Order.t
}.

Definition add_order (o : Order.t) (p : t) : bool * t :=
  if (RECORDS_PER_PAGE <=? length (orders p))%nat then (false, p)
  else (true, {| page_id := page_id p; orders := orders p ++ [o] |}).

Definition is_full (p : t) : bool :=
  (RECORDS_PER_PAGE <=? length (orders p))%nat.

(** [data[a:b] = x] on a bytearray, for [a <= b]: the slice bounds are
    clipped to the length, so an assignment past the end appends. *)
Definition slice_assign (data : list byte) (a b : nat) (x : list byte)
  : list byte :=
  take a data ++ x ++ drop b data.

Fixpoint write_orders (i : nat) (os : list Order.t) (data : list byte)
  : result (list byte) :=
  match os with
  | [] => Ok data
  | o :: os' =>
      let start_offset := (i * Order.RECORD_SIZE)%nat in
      order_bytes ← Order.to_bytes o;
      write_orders (S i) os'
        (slice_assign data start_offset
           (start_offset + Order.RECORD_SIZE) order_bytes)
  end.

Definition to_bytes (p : t) : result (list byte) :=
  write_orders 0 (orders p) (replicate PAGE_SIZE x00).

(** One iteration of the slot loop of [from_bytes]: the record of slot
    [i], or nothing when the slot is empty or its record is skipped. *)
Definition read_slot (data : list byte) (i : nat) : option Order.t :=
  let start_offset := (i * Order.RECORD_SIZE)%nat in
  let record_data := take Order.RECORD_SIZE (drop start_offset data) in
  if (4 <=? length record_data)%nat then
    let order_id := le_value (take 4 record_data) in
    if order_id =? 0 then None
    else match Order.from_bytes record_data with
         | Ok order => Some order
         | Raise _ => None
         end
  else None.

Definition from_bytes (page_id : Z) (data : list byte) : result t :=
  if (length data =? PAGE_SIZE)%nat then
    Ok {| page_id := page_id;
          orders := omap (read_slot data) (seq 0 RECORDS_PER_PAGE) |}
  else Raise ValueError.
End DiskPage.

(* ===================================================================== *)
(** ** [disk_manager.py]                                                  *)
(* ===================================================================== *)

(** Every call of [read_page] and [write_page] is recorded in a ghost log,
    so that "this call did not touch the disk" can be stated even for the
    calls that fail and change no counter. *)
Inductive io_event : Set :=
  | DiskRead (page_id : Z)
  | DiskWrite (page_id : Z).

Module DiskManager.
(** The object together with the file it manages: [file] is the content
    of the file named [filename], [None] when no such file exists. *)
Record t : Type := mk {
  filename : string;
  file : option (list byte);
  read_count : Z;
  write_count : Z;
  total_read_time : Q;
  total_write_time : Q;
  bytes_read : Z;
  bytes_written : Z;
  io_log : list io_event
}.

(** [__init__], with [_ensure_file_exists]: [existing] is what the file
    system holds under [filename] beforehand. *)
Definition init (filename : string) (existing : option (list byte)) : t :=
  {| filename := filename;
     file := Some (match existing with Some c => c | None => [] end);
     read_count := 0; write_count := 0;
     total_read_time := 0%Q; total_write_time := 0%Q;
     bytes_read := 0; bytes_written := 0;
     io_log := [] |}.

Definition log (ev : io_event) (self : t) : t :=
  {| filename := filename self; file := file self;
     read_count := read_count self; write_count := write_count self;
     total_read_time := total_read_time self;
     total_write_time := total_write_time self;
     bytes_read := bytes_read self; bytes_written := bytes_written self;
     io_log := io_log self ++ [ev] |}.

Definition set_file (content : list byte) (self : t) : t :=
  {| filename := filename self; file := Some content;
     read_count := read_count self; write_count := write_count self;
     total_read_time := total_read_time self;
     total_write_time := total_write_time self;
     bytes_read := bytes_read self; bytes_written := bytes_written self;
     io_log := io_log self |}.

(** "Record performance metrics" of [read_page]. *)
Definition record_read (read_time : Q) (self : t) : t :=
  {| filename := filename self; file := file self;
     read_count := read_count self + 1; write_count := write_count self;
     total_read_time := (total_read_time self + read_time)%Q;
     total_write_time := total_write_time self;
     bytes_read := bytes_read self + Z.of_nat DiskPage.PAGE_SIZE;
     bytes_written := bytes_written self;
     io_log := io_log self |}.

(** "Record performance metrics" of [write_page]. *)
Definition record_write (write_time : Q) (self : t) : t :=
  {| filename := filename self; file := file self;
     read_count := read_count self; write_count := write_count self + 1;
     total_read_time := total_read_time self;
     total_write_time := (total_write_time self + write_time)%Q;
     bytes_read := bytes_read self;
     bytes_written := bytes_written self + Z.of_nat DiskPage.PAGE_SIZE;
     io_log := io_log self |}.

(** [read_page]; [read_time] is [time.perf_counter() - start_time] as
    measured on the success path.  Opening a missing file and seeking to
    a negative offset raise [OSError]s, which the method catches. *)
Definition read_page (read_time : Q) (page_id : Z)
  : M t (option DiskPage.t) := fun self =>
  let self := log (DiskRead page_id) self in
  match file self with
  | None => (Ok None, self)
  | Some content =>
      if page_id <? 0 then (Ok None, self)
      else
        let data :=
          take DiskPage.PAGE_SIZE
            (drop (Z.to_nat (page_id * Z.of_nat DiskPage.PAGE_SIZE)) content) in
        if (length data =? DiskPage.PAGE_SIZE)%nat then
          match DiskPage.from_bytes page_id data with
          | Ok page => (Ok (Some page), record_read read_time self)
          | Raise e => (Raise e, self)
          end
        else (Ok None, self)
  end.

(** [write_page]; [page.to_bytes()] is evaluated after the file has been
    extended and is not covered by the [except (IOError, OSError)]. *)
Definition write_page (write_time : Q) (page : DiskPage.t)
  : M t bool := fun self =>
  let self := log (DiskWrite (DiskPage.page_id page)) self in
  let required_size :=
    (DiskPage.page_id page + 1) * Z.of_nat DiskPage.PAGE_SIZE in
  let current_size :=
    match file self with Some c => Z.of_nat (length c) | None => 0 end in
  let self :=
    if current_size <? required_size then
      set_file
        (match file self with Some c => c | None => [] end
         ++ replicate (Z.to_nat (required_size - current_size)) x00) self
    else self in
  match file self with
  | None => (Ok false, self)
  | Some content =>
      if DiskPage.page_id page <? 0 then (Ok false, self)
      else
        match DiskPage.to_bytes page with
        | Raise e => (Raise e, self)
        | Ok data =>
            let off :=
              Z.to_nat (DiskPage.page_id page * Z.of_nat DiskPage.PAGE_SIZE) in
            (Ok true,
             record_write write_time
               (set_file
                  (take off content ++ data ++ drop (off + length data) content)
                  self))
        end
  end.

Record stats : Type := mk_stats {
  reads : Z;
  writes : Z;
  st_total_read_time : Q;
  st_total_write_time : Q;
  total_io_time : Q;
  avg_read_time_ms : Q;
  avg_write_time_ms : Q;
  st_bytes_read : Z;
  st_bytes_written : Z;
  read_throughput_mbps : Q;
  write_throughput_mbps : Q
}.

Definition get_stats (self : t) : stats :=
  let avg_read_time :=
    if 0 <? read_count self
    then (total_read_time self / inject_Z (read_count self))%Q else 0%Q in
  let avg_write_time :=
    if 0 <? write_count self
    then (total_write_time self / inject_Z (write_count self))%Q else 0%Q in
  let read_throughput :=
    if Qlt_le_dec 0 (total_read_time self)
    then ((inject_Z (bytes_read self) / inject_Z (1024 * 1024))
          / total_read_time self)%Q
    else 0%Q in
  let write_throughput :=
    if Qlt_le_dec 0 (total_write_time self)
    then ((inject_Z (bytes_written self) / inject_Z (1024 * 1024))
          / total_write_time self)%Q
    else 0%Q in
  {| reads := read_count self;
     writes := write_count self;
     st_total_read_time := total_read_time self;
     st_total_write_time := total_write_time self;
     total_io_time := (total_read_time self + total_write_time self)%Q;
     avg_read_time_ms := (avg_read_time * inject_Z 1000)%Q;
     avg_write_time_ms := (avg_write_time * inject_Z 1000)%Q;
     st_bytes_read := bytes_read self;
     st_bytes_written := bytes_written self;
     read_throughput_mbps := read_throughput;
     write_throughput_mbps := write_throughput |}.

End DiskManager.

(* ===================================================================== *)
(** ** [step02_naive_query.py]                                            *)
(* ===================================================================== *)

Module NaiveQueryEngine.

(** The loop of [full_table_scan] over the page ids still to visit:
    "page = self.disk.read_page(page_id); if page:
    all_orders.extend(page.orders)".  [read_time] gives the duration
    measured around the read of each page. *)
Fixpoint scan_loop (read_time : Z -> Q) (page_ids : list Z)
    (all_orders : list Order.t) : M DiskManager.t (list Order.t) :=
  match page_ids with
  | [] => ret all_orders
  | page_id :: page_ids =>
      page <- DiskManager.read_page (read_time page_id) page_id ;;
      scan_loop read_time page_ids
        (match page with
         | Some page => all_orders ++ DiskPage.orders page
         | None => all_orders
         end)
  end.

(** [full_table_scan], on the disk manager of the engine:
    [range(self.num_pages)] is empty when [num_pages] is not positive. *)
Definition full_table_scan (read_time : Z -> Q) (num_pages : Z)
  : M DiskManager.t (list Order.t) :=
  scan_loop read_time (seqZ 0 num_pages) [].
End NaiveQueryEngine.

(* ===================================================================== *)
(** ** [step03_with_buffer_manager.py]                                    *)
(* ===================================================================== *)

(** [l.pop()]: the last element and the list without it. *)
Definition list_pop {A} (l : list A) : option (A * list A) :=
  match reverse l with
  | [] => None
  | x :: r => Some (x, reverse r)
  end.

(** The durations measured around the disk accesses of one call. *)
Record io_times : Type := mk_io_times {
  read_time : Q;
  write_time : Q
}.

Module BufferFrame.
Record t : Type := mk {
  frame_id : nat;
  page : option DiskPage.t;
  page_id : option Z;
  is_dirty : bool;
  last_accessed : Z;
  access_frequency : Z;
  clock_bit : bool
}.

Definition init (frame_id : nat) : t :=
  {| frame_id := frame_id; page := None; page_id := None;
     is_dirty := false; last_accessed := 0; access_frequency := 0;
     clock_bit := false |}.

Definition is_free (self : t) : bool :=
  match page self with None => true | Some _ => false end.

(** The metadata update of a buffer hit. *)
Definition touch (access_counter : Z) (self : t) : t :=
  {| frame_id := frame_id self; page := page self; page_id := page_id self;
     is_dirty := is_dirty self;
     last_accessed := access_counter;
     access_frequency := access_frequency self + 1;
     clock_bit := true |}.

Definition set_clock_bit (b : bool) (self : t) : t :=
  {| frame_id := frame_id self; page := page self; page_id := page_id self;
     is_dirty := is_dirty self; last_accessed := last_accessed self;
     access_frequency := access_frequency self;
     clock_bit := b |}.

(** "Install page in the frame": the clock bit is left as it was. *)
Definition install (p : DiskPage.t) (pid : Z) (access_counter : Z)
    (self : t) : t :=
  {| frame_id := frame_id self; page := Some p; page_id := Some pid;
     is_dirty := false; last_accessed := access_counter;
     access_frequency := 1;
     clock_bit := clock_bit self |}.

(** "Clear frame": recency metadata is left as it was. *)
Definition clear (self : t) : t :=
  {| frame_id := frame_id self; page := None; page_id := None;
     is_dirty := false; last_accessed := last_accessed self;
     access_frequency := 0;
     clock_bit := clock_bit self |}.
End BufferFrame.

Module BufferManager.
Record t : Type := mk {
  disk : DiskManager.t;
  pool_size : nat;
  policy : string;
  frames : list BufferFrame.t;
  page_table : gmap Z nat;
  free_frames : list nat;
  access_counter : Z;
  clock_hand : nat;
  hits : Z;
  misses : Z;
  evictions : Z
}.

Definition init (disk_manager : DiskManager.t) (pool_size : nat)
    (policy : string) : t :=
  {| disk := disk_manager; pool_size := pool_size; policy := policy;
     frames := map BufferFrame.init (seq 0 pool_size);
     page_table := ∅;
     free_frames := seq 0 pool_size;
     access_counter := 0; clock_hand := 0%nat;
     hits := 0; misses := 0; evictions := 0 |}.

Definition set_disk (d : DiskManager.t) (self : t) : t :=
  {| disk := d; pool_size := pool_size self; policy := policy self;
     frames := frames self; page_table := page_table self;
     free_frames := free_frames self;
     access_counter := access_counter self; clock_hand := clock_hand self;
     hits := hits self; misses := misses self; evictions := evictions self |}.

Definition set_frames (fs : list BufferFrame.t) (self : t) : t :=
  {| disk := disk self; pool_size := pool_size self; policy := policy self;
     frames := fs; page_table := page_table self;
     free_frames := free_frames self;
     access_counter := access_counter self; clock_hand := clock_hand self;
     hits := hits self; misses := misses self; evictions := evictions self |}.

Definition set_page_table (pt : gmap Z nat) (self : t) : t :=
  {| disk := disk self; pool_size := pool_size self; policy := policy self;
     frames := frames self; page_table := pt;
     free_frames := free_frames self;
     access_counter := access_counter self; clock_hand := clock_hand self;
     hits := hits self; misses := misses self; evictions := evictions self |}.

Definition set_free_frames (ff : list nat) (self : t) : t :=
  {| disk := disk self; pool_size := pool_size self; policy := policy self;
     frames := frames self; page_table := page_table self;
     free_frames := ff;
     access_counter := access_counter self; clock_hand := clock_hand self;
     hits := hits self; misses := misses self; evictions := evictions self |}.

Definition set_access_counter (c : Z) (self : t) : t :=
  {| disk := disk self; pool_size := pool_size self; policy := policy self;
     frames := frames self; page_table := page_table self;
     free_frames := free_frames self;
     access_counter := c; clock_hand := clock_hand self;
     hits := hits self; misses := misses self; evictions := evictions self |}.

Definition set_clock_hand (h : nat) (self : t) : t :=
  {| disk := disk self; pool_size := pool_size self; policy := policy self;
     frames := frames self; page_table := page_table self;
     free_frames := free_frames self;
     access_counter := access_counter self; clock_hand := h;
     hits := hits self; misses := misses self; evictions := evictions self |}.

Definition set_hits (n : Z) (self : t) : t :=
  {| disk := disk self; pool_size := pool_size self; policy := policy self;
     frames := frames self; page_table := page_table self;
     free_frames := free_frames self;
     access_counter := access_counter self; clock_hand := clock_hand self;
     hits := n; misses := misses self; evictions := evictions self |}.

Definition set_misses (n : Z) (self : t) : t :=
  {| disk := disk self; pool_size := pool_size self; policy := policy self;
     frames := frames self; page_table := page_table self;
     free_frames := free_frames self;
     access_counter := access_counter self; clock_hand := clock_hand self;
     hits := hits self; misses := n; evictions := evictions self |}.

Definition set_evictions (n : Z) (self : t) : t :=
  {| disk := disk self; pool_size := pool_size self; policy := policy self;
     frames := frames self; page_table := page_table self;
     free_frames := free_frames self;
     access_counter := access_counter self; clock_hand := clock_hand self;
     hits := hits self; misses := misses self; evictions := n |}.

(** Run a method of [self.disk]. *)
Definition with_disk {A} (m : M DiskManager.t A) : M t A := fun self =>
  match m (disk self) with
  | (r, d) => (r, set_disk d self)
  end.

(** [self.frames[i]] *)
Definition frame_at (i : nat) : M t BufferFrame.t := fun self =>
  match frames self !! i with
  | Some frame => (Ok frame, self)
  | None => (Raise IndexError, self)
  end.

(** An in-place mutation of the frame object stored at index [i]. *)
Definition update_frame (i : nat) (f : BufferFrame.t -> BufferFrame.t)
  : M t unit :=
  modify (fun self => set_frames (alter f i (frames self)) self).

Definition _write_back_and_clear_frame (tm : io_times) (frame_id : nat)
  : M t unit :=
  frame <- frame_at frame_id ;;
  (if BufferFrame.is_dirty frame then
     match BufferFrame.page frame with
     | Some p =>
         with_disk (DiskManager.write_page (write_time tm) p) ;;; ret tt
     | None => ret tt
     end
   else ret tt) ;;;
  modify (fun self =>
    match BufferFrame.page_id frame with
    | Some pid =>
        match page_table self !! pid with
        | Some _ => set_page_table (delete pid (page_table self)) self
        | None => self
        end
    | None => self
    end) ;;;
  update_frame frame_id BufferFrame.clear ;;;
  modify (fun self => set_evictions (evictions self + 1) self).

Definition _get_free_frame : M t (option nat) := fun self =>
  match list_pop (free_frames self) with
  | Some (frame_id, rest) => (Ok (Some frame_id), set_free_frames rest self)
  | None => (Ok None, self)
  end.

(** "FIFO eviction - evict oldest frame by frame_id": the first frame of
    the array that holds a page. *)
Definition _evict_fifo (tm : io_times) : M t (option nat) :=
  self <- get ;;
  match List.find (fun fr => negb (BufferFrame.is_free fr)) (frames self) with
  | Some frame =>
      _write_back_and_clear_frame tm (BufferFrame.frame_id frame) ;;;
      ret (Some (BufferFrame.frame_id frame))
  | None => ret None
  end.

(** The [while True] loop of [_evict_clock]; one unit of fuel per
    iteration. *)
Fixpoint clock_loop (tm : io_times) (start_hand : nat) (fuel : nat)
  : M t (option nat) :=
  match fuel with
  | O => raise OutOfFuel
  | S fuel' =>
      self <- get ;;
      frame <- frame_at (clock_hand self) ;;
      (if (pool_size self =? 0)%nat then raise ZeroDivisionError
       else modify (set_clock_hand
                      ((clock_hand self + 1) mod pool_size self)%nat)) ;;;
      if BufferFrame.is_free frame then
        ret (Some (BufferFrame.frame_id frame))
      else
        let next :=
          self' <- get ;;
          if (clock_hand self' =? start_hand)%nat then ret None
          else clock_loop tm start_hand fuel' in
        if BufferFrame.clock_bit frame then
          update_frame (clock_hand self) (BufferFrame.set_clock_bit false) ;;;
          next
        else if negb (BufferFrame.is_free frame) then
          _write_back_and_clear_frame tm (BufferFrame.frame_id frame) ;;;
          ret (Some (BufferFrame.frame_id frame))
        else next
  end.

Definition _evict_clock (tm : io_times) : M t (option nat) :=
  self <- get ;;
  clock_loop tm (clock_hand self) (S (pool_size self)).

(** The body of [_evict_lru] as it stands: the search for the victim and
    its eviction are the placeholders [...], so [victim_frame_id] keeps
    its initial value [None]. *)
Definition _evict_lru : M t (option nat) :=
  let victim_frame_id : option nat := None in
  match victim_frame_id with
  | Some _ => ret victim_frame_id
  | None => ret victim_frame_id
  end.

Definition _evict_page (tm : io_times) : M t (option nat) :=
  self <- get ;;
  if String.eqb (policy self) "LRU" then _evict_lru
  else if String.eqb (policy self) "CLOCK" then _evict_clock tm
  else _evict_fifo tm.

(** The first block of [_load_page_from_disk]: "try to get a free frame
    first", else "need to evict a page". *)
Definition obtain_frame (tm : io_times) : M t (option nat) :=
  free <- _get_free_frame ;;
  match free with
  | Some frame_id => ret (Some frame_id)
  | None => _evict_page tm
  end.

Definition _load_page_from_disk (tm : io_times) (page_id : Z)
  : M t (option DiskPage.t) :=
  obtained <- obtain_frame tm ;;
  match obtained with
  | None => ret None
  | Some frame_id =>
      page <- with_disk (DiskManager.read_page (read_time tm) page_id) ;;
      match page with
      | None =>
          modify (fun self =>
            if bool_decide (frame_id ∈ free_frames self) then self
            else set_free_frames (free_frames self ++ [frame_id]) self) ;;;
          ret None
      | Some p =>
          frame_at frame_id ;;;
          self <- get ;;
          update_frame frame_id
            (BufferFrame.install p page_id (access_counter self)) ;;;
          modify (fun self =>
            set_page_table (<[page_id := frame_id]> (page_table self)) self) ;;;
          ret (Some p)
      end
  end.

Definition get_page (tm : io_times) (page_id : Z)
  : M t (option DiskPage.t) :=
  modify (fun self => set_access_counter (access_counter self + 1) self) ;;;
  self <- get ;;
  match page_table self !! page_id with
  | Some frame_id =>
      frame <- frame_at frame_id ;;
      update_frame frame_id (BufferFrame.touch (access_counter self)) ;;;
      modify (fun self => set_hits (hits self + 1) self) ;;;
      ret (BufferFrame.page frame)
  | None =>
      modify (fun self => set_misses (misses self + 1) self) ;;;
      _load_page_from_disk tm page_id
  end.

(** A sequence of [get_page] calls; the state after the last one. *)
Definition get_pages (calls : list (io_times * Z)) (self : t) : t :=
  fold_left (fun self call => (get_page call.1 call.2 self).2) calls self.

Record stats : Type := mk_stats {
  st_hits : Z;
  st_misses : Z;
  hit_rate : Q;
  st_evictions : Z;
  total_accesses : Z;
  frames_used : nat;
  frames_free : nat;
  st_policy : string
}.

Definition get_stats (self : t) : stats :=
  let total := hits self + misses self in
  {| st_hits := hits self;
     st_misses := misses self;
     hit_rate := if 0 <? total
                 then (inject_Z (hits self) / inject_Z total * inject_Z 100)%Q
                 else 0%Q;
     st_evictions := evictions self;
     total_accesses := total;
     frames_used := size (page_table self);
     frames_free := length (free_frames self);
     st_policy := policy self |}.
End BufferManager.

Module BufferedQueryEngine.

(** The loop of [full_table_scan]: "page = self.buffer.get_page(page_id);
    if page: all_orders.extend(page.orders)".  An exception raised by
    [get_page] ends the scan. *)
Fixpoint scan_loop (tm : Z -> io_times) (page_ids : list Z)
    (all_orders : list Order.t) : M BufferManager.t (list Order.t) :=
  match page_ids with
  | [] => ret all_orders
  | page_id :: page_ids =>
      page <- BufferManager.get_page (tm page_id) page_id ;;
      scan_loop tm page_ids
        (match page with
         | Some page => all_orders ++ DiskPage.orders page
         | None => all_orders
         end)
  end.

(** [full_table_scan], on the buffer manager of the engine. *)
Definition full_table_scan (tm : Z -> io_times) (num_pages : Z)
  : M BufferManager.t (list Order.t) :=
  scan_loop tm (seqZ 0 num_pages) [].
End BufferedQueryEngine.

(* ===================================================================== *)
(** ** [step05_bufferLLMemory.py]                                         *)
(* ===================================================================== *)

(** [datetime] values are instants in microseconds; [datetime.now()] is an
    input of each public call, which is taken to be instantaneous. *)

Inductive PageType : Set :=
  | USER_PREFERENCES | RECENT_CONVERSATION | USER_FACTS | OLD_CONVERSATION
  | SESSION_STATE.

Definition PageType_name (pt : PageType) : string :=
  match pt with
  | USER_PREFERENCES => "USER_PREFERENCES"
  | RECENT_CONVERSATION => "RECENT_CONVERSATION"
  | USER_FACTS => "USER_FACTS"
  | OLD_CONVERSATION => "OLD_CONVERSATION"
  | SESSION_STATE => "SESSION_STATE"
  end.

Module UserSession.
Record t : Type := mk {
  user_id : string;
  session_id : string;
  last_activity : Z;
  is_active : bool;
  allocated_pages : Z
}.

Definition mark_activity (now : Z) (self : t) : t :=
  {| user_id := user_id self; session_id := session_id self;
     last_activity := now; is_active := true;
     allocated_pages := allocated_pages self |}.

Definition set_is_active (b : bool) (self : t) : t :=
  {| user_id := user_id self; session_id := session_id self;
     last_activity := last_activity self; is_active := b;
     allocated_pages := allocated_pages self |}.

Definition set_allocated_pages (n : Z) (self : t) : t :=
  {| user_id := user_id self; session_id := session_id self;
     last_activity := last_activity self; is_active := is_active self;
     allocated_pages := n |}.
End UserSession.

Module LLMPage.
Record t : Type := mk {
  page_id : Z;
  orders : list Order.t;
  user_id : string;
  page_type : PageType;
  content : string;
  priority : Z
}.

Definition _get_priority (pt : PageType) : Z :=
  match pt with
  | USER_PREFERENCES => 100
  | RECENT_CONVERSATION => 80
  | USER_FACTS => 60
  | OLD_CONVERSATION => 40
  | SESSION_STATE => 20
  end.

Definition init (page_id : Z) (user_id : string) (page_type : PageType)
    (content : string) : t :=
  {| page_id := page_id; orders := []; user_id := user_id;
     page_type := page_type; content := content;
     priority := _get_priority page_type |}.
End LLMPage.

Module ExtendedBufferFrame.
Record t : Type := mk {
  frame_id : nat;
  page : option LLMPage.t;
  page_id : option Z;
  is_dirty : bool;
  last_accessed : Z;
  access_frequency : Z;
  clock_bit : bool;
  user_id : option string;
  page_type : option PageType;
  priority : Z
}.

Definition init (frame_id : nat) : t :=
  {| frame_id := frame_id; page := None; page_id := None;
     is_dirty := false; last_accessed := 0; access_frequency := 0;
     clock_bit := false; user_id := None; page_type := None;
     priority := 0 |}.

Definition load_llm_page (now : Z) (p : LLMPage.t) (self : t) : t :=
  {| frame_id := frame_id self; page := Some p;
     page_id := Some (LLMPage.page_id p);
     is_dirty := false; last_accessed := now; access_frequency := 1;
     clock_bit := clock_bit self;
     user_id := Some (LLMPage.user_id p);
     page_type := Some (LLMPage.page_type p);
     priority := LLMPage.priority p |}.

Definition clear_frame (self : t) : t :=
  {| frame_id := frame_id self; page := None; page_id := None;
     is_dirty := false; last_accessed := last_accessed self;
     access_frequency := 0; clock_bit := clock_bit self;
     user_id := None; page_type := None; priority := 0 |}.

(** The metadata update of a hit in [get_llm_page]. *)
Definition touch (now : Z) (self : t) : t :=
  {| frame_id := frame_id self; page := page self; page_id := page_id self;
     is_dirty := is_dirty self; last_accessed := now;
     access_frequency := access_frequency self + 1;
     clock_bit := clock_bit self; user_id := user_id self;
     page_type := page_type self; priority := priority self |}.
End ExtendedBufferFrame.

Module UserAwareBufferManager.
Record t : Type := mk {
  disk : DiskManager.t;
  pool_size : nat;
  policy : string;
  frames : list ExtendedBufferFrame.t;
  page_table : gmap Z nat;
  free_frames : list nat;
  access_counter : Z;
  clock_hand : nat;
  hits : Z;
  misses : Z;
  evictions : Z;
  user_sessions : gmap string UserSession.t;
  user_allocations : gmap string Z;
  activity_timeout : Z;
  active_user_evictions : Z
}.

Definition init (disk_manager : DiskManager.t) (pool_size : nat) : t :=
  {| disk := disk_manager; pool_size := pool_size; policy := "USER_AWARE";
     frames := map ExtendedBufferFrame.init (seq 0 pool_size);
     page_table := ∅; free_frames := seq 0 pool_size;
     access_counter := 0; clock_hand := 0%nat;
     hits := 0; misses := 0; evictions := 0;
     user_sessions := ∅; user_allocations := ∅;
     activity_timeout := 5 * 60 * 1000000;
     active_user_evictions := 0 |}.

(** One record update for all the fields the methods assign. *)
Definition update (self : t)
    (fs : list ExtendedBufferFrame.t) (pt : gmap Z nat) (ff : list nat)
    (h m e : Z) (us : gmap string UserSession.t) (ua : gmap string Z)
    (aue : Z) : t :=
  {| disk := disk self; pool_size := pool_size self; policy := policy self;
     frames := fs; page_table := pt; free_frames := ff;
     access_counter := access_counter self; clock_hand := clock_hand self;
     hits := h; misses := m; evictions := e;
     user_sessions := us; user_allocations := ua;
     activity_timeout := activity_timeout self;
     active_user_evictions := aue |}.

Definition set_frames fs (self : t) : t :=
  update self fs (page_table self) (free_frames self) (hits self)
    (misses self) (evictions self) (user_sessions self)
    (user_allocations self) (active_user_evictions self).
Definition set_page_table pt (self : t) : t :=
  update self (frames self) pt (free_frames self) (hits self)
    (misses self) (evictions self) (user_sessions self)
    (user_allocations self) (active_user_evictions self).
Definition set_free_frames ff (self : t) : t :=
  update self (frames self) (page_table self) ff (hits self)
    (misses self) (evictions self) (user_sessions self)
    (user_allocations self) (active_user_evictions self).
Definition set_hits h (self : t) : t :=
  update self (frames self) (page_table self) (free_frames self) h
    (misses self) (evictions self) (user_sessions self)
    (user_allocations self) (active_user_evictions self).
Definition set_misses m (self : t) : t :=
  update self (frames self) (page_table self) (free_frames self) (hits self)
    m (evictions self) (user_sessions self)
    (user_allocations self) (active_user_evictions self).
Definition set_evictions e (self : t) : t :=
  update self (frames self) (page_table self) (free_frames self) (hits self)
    (misses self) e (user_sessions self)
    (user_allocations self) (active_user_evictions self).
Definition set_user_sessions us (self : t) : t :=
  update self (frames self) (page_table self) (free_frames self) (hits self)
    (misses self) (evictions self) us
    (user_allocations self) (active_user_evictions self).
Definition set_user_allocations ua (self : t) : t :=
  update self (frames self) (page_table self) (free_frames self) (hits self)
    (misses self) (evictions self) (user_sessions self)
    ua (active_user_evictions self).
Definition set_active_user_evictions aue (self : t) : t :=
  update self (frames self) (page_table self) (free_frames self) (hits self)
    (misses self) (evictions self) (user_sessions self)
    (user_allocations self) aue.

Definition frame_at (i : nat) : M t ExtendedBufferFrame.t := fun self =>
  match frames self !! i with
  | Some frame => (Ok frame, self)
  | None => (Raise IndexError, self)
  end.

Definition update_frame (i : nat)
    (f : ExtendedBufferFrame.t -> ExtendedBufferFrame.t) : M t unit :=
  modify (fun self => set_frames (alter f i (frames self)) self).

Definition _update_active_status (now : Z) : M t unit :=
  modify (fun self =>
    set_user_sessions
      ((fun session =>
          UserSession.set_is_active
            (now - UserSession.last_activity session
               <=? activity_timeout self) session)
       <$> user_sessions self) self).

Definition register_user_activity (now : Z) (user_id : string) : M t unit :=
  modify (fun self =>
    match user_sessions self !! user_id with
    | None =>
        set_user_allocations (<[user_id := 0]> (user_allocations self))
          (set_user_sessions
             (<[user_id := UserSession.mk user_id "default" now true 0]>
                (user_sessions self)) self)
    | Some session =>
        set_user_sessions
          (<[user_id := UserSession.mark_activity now session]>
             (user_sessions self)) self
    end) ;;;
  _update_active_status now.

(** The override: the write-back of a dirty page is only printed. *)
Definition _write_back_and_clear_frame (frame_id : nat) : M t unit :=
  frame <- frame_at frame_id ;;
  modify (fun self =>
    match ExtendedBufferFrame.page_id frame with
    | Some pid =>
        match page_table self !! pid with
        | Some _ => set_page_table (delete pid (page_table self)) self
        | None => self
        end
    | None => self
    end) ;;;
  update_frame frame_id ExtendedBufferFrame.clear_frame ;;;
  modify (fun self => set_evictions (evictions self + 1) self).

(** The [for frame in self.frames] loop of [_evict_user_aware_lru] as it
    stands: for every occupied frame it assigns the locals [user_id] and
    [active_user_eviction], and nothing else; the part that would select
    [best_victim_frame] is the placeholder comment.  The result is the
    value of the two locals after the loop, [None] when they were never
    assigned. *)
Definition scan_locals (self : t) : option (option string * bool) :=
  fold_left
    (fun locals frame =>
       match ExtendedBufferFrame.page frame with
       | Some _ =>
           let user_id := ExtendedBufferFrame.user_id frame in
           let active_user_eviction :=
             match user_id with
             | Some u =>
                 match user_sessions self !! u with
                 | Some session => UserSession.is_active session
                 | None => false
                 end
             | None => false
             end in
           Some (user_id, active_user_eviction)
       | None => locals
       end)
    (frames self) None.

Definition _evict_user_aware_lru (now : Z) : M t (option nat) :=
  _update_active_status now ;;;
  self <- get ;;
  let best_victim_frame : option ExtendedBufferFrame.t := None in
  let locals := scan_locals self in
  match best_victim_frame with
  | None => ret None
  | Some victim =>
      match locals with
      | None => raise UnboundLocalError
      | Some (user_id, active_user_eviction) =>
          (if active_user_eviction then
             modify (fun self =>
               set_active_user_evictions (active_user_evictions self + 1) self)
           else ret tt) ;;;
          modify (fun self =>
            match user_id with
            | Some u =>
                let self :=
                  match user_allocations self !! u with
                  | Some n =>
                      set_user_allocations
                        (<[u := Z.max 0 (n - 1)]> (user_allocations self)) self
                  | None => self
                  end in
                match user_sessions self !! u with
                | Some session =>
                    set_user_sessions
                      (<[u := UserSession.set_allocated_pages
                                (Z.max 0 (UserSession.allocated_pages session - 1))
                                session]> (user_sessions self)) self
                | None => self
                end
            | None => self
            end) ;;;
          _write_back_and_clear_frame (ExtendedBufferFrame.frame_id victim) ;;;
          ret (Some (ExtendedBufferFrame.frame_id victim))
      end
  end.

Definition _evict_page (now : Z) : M t (option nat) :=
  _evict_user_aware_lru now.

Definition _get_free_frame : M t (option nat) := fun self =>
  match list_pop (free_frames self) with
  | Some (frame_id, rest) => (Ok (Some frame_id), set_free_frames rest self)
  | None => (Ok None, self)
  end.

Definition _load_llm_page (now : Z) (page_id : Z) (user_id : string)
    (page_type : PageType) : M t (option LLMPage.t) :=
  free <- _get_free_frame ;;
  obtained <- match free with
              | Some frame_id => ret (Some frame_id)
              | None => _evict_page now
              end ;;
  match obtained with
  | None => ret None
  | Some frame_id =>
      let p := LLMPage.init page_id user_id page_type
                 ("Content for " +:+ PageType_name page_type) in
      frame_at frame_id ;;;
      update_frame frame_id (ExtendedBufferFrame.load_llm_page now p) ;;;
      modify (fun self =>
        set_page_table (<[page_id := frame_id]> (page_table self)) self) ;;;
      modify (fun self =>
        set_user_allocations
          (<[user_id := default 0 (user_allocations self !! user_id) + 1]>
             (user_allocations self)) self) ;;;
      modify (fun self =>
        match user_sessions self !! user_id with
        | Some session =>
            set_user_sessions
              (<[user_id := UserSession.set_allocated_pages
                              (UserSession.allocated_pages session + 1)
                              session]> (user_sessions self)) self
        | None => self
        end) ;;;
      ret (Some p)
  end.

Definition get_llm_page (now : Z) (page_id : Z) (user_id : string)
    (page_type : PageType) : M t (option LLMPage.t) :=
  register_user_activity now user_id ;;;
  self <- get ;;
  match page_table self !! page_id with
  | Some frame_id =>
      frame <- frame_at frame_id ;;
      update_frame frame_id (ExtendedBufferFrame.touch now) ;;;
      modify (fun self => set_hits (hits self + 1) self) ;;;
      ret (ExtendedBufferFrame.page frame)
  | None =>
      modify (fun self => set_misses (misses self + 1) self) ;;;
      _load_llm_page now page_id user_id page_type
  end.

(** The victim the policy of the docstring asks for ("1. Try to evict
    from INACTIVE users first; 2. within same activity level, evict LOWER
    priority pages first; 3. within same priority level, evict LEAST
    recently used"): the key of an occupied frame, and the frames whose
    key is least in the lexicographic order. *)
Definition frame_active (self : t) (frame : ExtendedBufferFrame.t) : bool :=
  match ExtendedBufferFrame.user_id frame with
  | Some u =>
      match user_sessions self !! u with
      | Some session => UserSession.is_active session
      | None => false
      end
  | None => false
  end.

Definition victim_key (self : t) (frame : ExtendedBufferFrame.t)
  : Z * Z * Z :=
  (if frame_active self frame then 1 else 0,
   ExtendedBufferFrame.priority frame,
   ExtendedBufferFrame.last_accessed frame).

Definition key_leb (k1 k2 : Z * Z * Z) : bool :=
  match k1, k2 with
  | (a1, p1, t1), (a2, p2, t2) =>
      (a1 <? a2) || ((a1 =? a2) && ((p1 <? p2) || ((p1 =? p2) && (t1 <=? t2))))
  end.

Definition is_policy_victim (self : t) (i : nat) : bool :=
  match frames self !! i with
  | Some frame =>
      negb (bool_decide (ExtendedBufferFrame.page frame = None))
      && forallb
           (fun other =>
              bool_decide (ExtendedBufferFrame.page other = None)
              || key_leb (victim_key self frame) (victim_key self other))
           (frames self)
  | None => false
  end.
End UserAwareBufferManager.

(* ===================================================================== *)
(** ** Predicates and concrete inputs used by the statements              *)
(* ===================================================================== *)

(** The declared width of a record field. *)
Definition u32 (n : Z) : Prop := 0 <= n < 2 ^ 32.

(** The six integer fields of an order are unsigned 32-bit values. *)
Definition int_fields_u32 (o : Order.t) : Prop :=
  u32 (Order.order_id o) /\ u32 (Order.customer_id o) /\
  u32 (Order.product_id o) /\ u32 (Order.quantity o) /\
  u32 (Order.order_date o) /\ u32 (Order.region o).

(** All seven fields, the price in currency units included, are within the
    unsigned 32-bit range. *)
Definition Order_valid (o : Order.t) : Prop :=
  int_fields_u32 o /\
  PrimFloat.leb 0%float (Order.price o) = true /\
  PrimFloat.ltb (Order.price o) 4294967296%float = true.

(** Encoding succeeds and decoding gives the very same record back. *)
Definition roundtrip_exact (o : Order.t) : Prop :=
  exists data, Order.to_bytes o = Ok data /\ Order.from_bytes data = Ok o.

(** An order priced 10.5078125 (ten and 65/128: exact in binary64, as is
    its product with 100, so no rounding is involved). *)
Definition order_sub_cent : Order.t :=
  {| Order.order_id := 1; Order.customer_id := 100; Order.product_id := 50;
     Order.quantity := 2; Order.price := 10.5078125%float;
     Order.order_date := 365; Order.region := 1 |}.

(** An order priced 12.5. *)
Definition order_half : Order.t :=
  {| Order.order_id := 7; Order.customer_id := 3; Order.product_id := 9;
     Order.quantity := 1; Order.price := 12.5%float;
     Order.order_date := 20000; Order.region := 4 |}.




(** A freshly created, empty database file. *)
Definition empty_disk : DiskManager.t := DiskManager.init "ecommerce.db" None.

(** A database file of four pages without records. *)
Definition disk4 : DiskManager.t :=
  DiskManager.init "ecommerce.db" (Some (replicate (4 * 4096) x00)).

Definition tm0 : io_times := {| read_time := 1 # 1000; write_time := 1 # 500 |}.

(** *** The buffer pool invariant *)

Definition occupied (fr : BufferFrame.t) : Prop := BufferFrame.is_free fr = false.

#[export] Instance occupied_dec fr : Decision (occupied fr).
Proof. unfold occupied. apply _. Defined.

(** The invariant over the components of the pool.  [held] is a frame that
    a load in progress has obtained and not yet used: it holds no page and
    is not in the free list. *)
Record frames_inv (held : option nat) (n : nat) (fs : list BufferFrame.t)
    (pt : gmap Z nat) (ff : list nat) (hand : nat) : Prop := {
  inv_length : length fs = n;
  inv_ids : forall i fr, fs !! i = Some fr -> BufferFrame.frame_id fr = i;
  inv_page : forall i fr, fs !! i = Some fr ->
    match BufferFrame.page fr with
    | Some p => BufferFrame.page_id fr = Some (DiskPage.page_id p)
    | None => BufferFrame.page_id fr = None
    end;
  inv_clean : forall i fr, fs !! i = Some fr -> BufferFrame.is_dirty fr = false;
  inv_table : forall p i,
    pt !! p = Some i <->
    exists fr, fs !! i = Some fr /\ BufferFrame.page_id fr = Some p;
  inv_free_nodup : NoDup ff;
  inv_free : forall i,
    i ∈ ff <->
    exists fr, fs !! i = Some fr /\ BufferFrame.page fr = None /\ held <> Some i;
  inv_held : forall i, held = Some i ->
    exists fr, fs !! i = Some fr /\ BufferFrame.page fr = None;
  inv_count :
    (length ff + length (filter occupied fs)
     + match held with Some _ => 1 | None => 0 end = n)%nat;
  inv_hand : (hand < n)%nat \/ (n = 0 /\ hand = 0)%nat
}.

Definition pool_inv (held : option nat) (bm : BufferManager.t) : Prop :=
  frames_inv held (BufferManager.pool_size bm) (BufferManager.frames bm)
    (BufferManager.page_table bm) (BufferManager.free_frames bm)
    (BufferManager.clock_hand bm).

(** A mutation of one frame that leaves its identity, its page and its
    dirty flag alone (a hit, a cleared clock bit). *)
Definition keeps_page (f : BufferFrame.t -> BufferFrame.t) : Prop :=
  forall fr,
    BufferFrame.frame_id (f fr) = BufferFrame.frame_id fr /\
    BufferFrame.page (f fr) = BufferFrame.page fr /\
    BufferFrame.page_id (f fr) = BufferFrame.page_id fr /\
    BufferFrame.is_dirty (f fr) = BufferFrame.is_dirty fr.


(** What obtaining a frame (from the free list or by eviction) guarantees:
    no page-table entry appears, and the invariant holds with the obtained
    frame held; an exception is only possible for an empty pool. *)
Definition same_config (bm bm' : BufferManager.t) : Prop :=
  BufferManager.pool_size bm' = BufferManager.pool_size bm /\
  BufferManager.policy bm' = BufferManager.policy bm.

Definition obtain_post (bm : BufferManager.t) (r : result (option nat))
    (bm' : BufferManager.t) : Prop :=
  (same_config bm bm' /\
   forall q, BufferManager.page_table bm !! q = None ->
             BufferManager.page_table bm' !! q = None) /\
  match r with
  | Ok (Some i) => pool_inv (Some i) bm'
  | Ok None => pool_inv None bm'
  | Raise _ => pool_inv None bm' /\ BufferManager.pool_size bm = 0%nat
  end.

(** The number of inspections left before the clock hand is back at
    [start]. *)
Definition clock_remaining (n start hand : nat) : nat :=
  if (hand <? start)%nat then (start - hand)%nat else (start + n - hand)%nat.

(** The state in which [get_page] enters [_load_page_from_disk] on a miss:
    the access counter and the miss counter have been incremented. *)
Definition miss_state (bm : BufferManager.t) : BufferManager.t :=
  BufferManager.set_misses (BufferManager.misses bm + 1)
    (BufferManager.set_access_counter (BufferManager.access_counter bm + 1) bm).

(** A pool of two frames under FIFO over the four-page file, after pages 0
    and 1 have been requested in that order. *)
Definition fifo_pool_01 : BufferManager.t :=
  BufferManager.get_pages [(tm0, 0); (tm0, 1)]
    (BufferManager.init disk4 2 "FIFO").

(** "The victim of the eviction is the occupant installed earliest".  In a
    run without hits, [last_accessed] of an occupied frame is the value of
    the access counter at the call that installed its page, so the earliest
    installed occupant is the one with the least [last_accessed]. *)
Definition victim_is_earliest_installed (tm : io_times)
    (bm : BufferManager.t) : Prop :=
  exists v fr,
    (BufferManager._evict_page tm bm).1 = Ok (Some v) /\
    BufferManager.frames bm !! v = Some fr /\
    forall j y, BufferManager.frames bm !! j = Some y -> occupied y ->
                BufferFrame.last_accessed fr <= BufferFrame.last_accessed y.

(** The outcome of a call, read off the counters: a call increments either
    [hits] or [misses]. *)
Inductive outcome : Set := Hit | Miss.

Fixpoint outcomes (calls : list (io_times * Z)) (bm : BufferManager.t)
  : list outcome :=
  match calls with
  | [] => []
  | (tm, pid) :: calls' =>
      let bm' := (BufferManager.get_page tm pid bm).2 in
      (if BufferManager.hits bm' =? BufferManager.hits bm + 1 then Hit else Miss)
      :: outcomes calls' bm'
  end.

(** A pool of three frames under CLOCK in which every frame is occupied and
    has been hit once since it was loaded, so that every reference bit is
    set; the hand is at frame 0. *)
Definition clock_pool_referenced : BufferManager.t :=
  BufferManager.get_pages
    [(tm0, 0); (tm0, 1); (tm0, 2); (tm0, 0); (tm0, 1); (tm0, 2)]
    (BufferManager.init disk4 3 "CLOCK").

(** The recency metadata of the frames: [(last_accessed, clock_bit)]. *)
Definition recency (bm : BufferManager.t) : list (Z * bool) :=
  map (fun fr => (BufferFrame.last_accessed fr, BufferFrame.clock_bit fr))
    (BufferManager.frames bm).

(** The page ids held by the frames, in frame order. *)
Definition residents (bm : BufferManager.t) : list (option Z) :=
  map BufferFrame.page_id (BufferManager.frames bm).

(** A pool of one frame under LRU over the four-page file. *)
Definition lru_pool1 : BufferManager.t := BufferManager.init disk4 1 "LRU".

(** *** The tenant-aware pool *)

Definition seconds (n : Z) : Z := n * 1000000.

(** Two frames.  At time 0 alice loads page 1 (session state); 400 seconds
    later bob loads page 2 (preferences).  The pool is then full; alice's
    last activity is older than the five-minute timeout. *)
Definition tenant_pool_full : UserAwareBufferManager.t :=
  (UserAwareBufferManager.get_llm_page (seconds 400) 2 "bob" USER_PREFERENCES
     (UserAwareBufferManager.get_llm_page (seconds 0) 1 "alice" SESSION_STATE
        (UserAwareBufferManager.init disk4 2)).2).2.

(** The owners of the frames and whether each owner is active. *)
Definition tenants (bm : UserAwareBufferManager.t)
  : list (option string * bool) :=
  map (fun fr => (ExtendedBufferFrame.user_id fr,
                  UserAwareBufferManager.frame_active bm fr))
    (UserAwareBufferManager.frames bm).

(** *** Pages *)

(** The encodings of the records of a page, in order; the exception of the
    first record that does not encode. *)
Fixpoint Order_encodings (os : list Order.t) : result (list (list byte)) :=
  match os with
  | [] => Ok []
  | o :: os' =>
      b ← Order.to_bytes o; bs ← Order_encodings os'; Ok (b :: bs)
  end.

(** What a page slot written from record [o] decodes to: nothing when the
    record id is 0 (the slot reads as empty), else the decoded record. *)
Definition Order_stored (o : Order.t) : option Order.t :=
  match Order.to_bytes o with
  | Ok data =>
      if Order.order_id o =? 0 then None
      else match Order.from_bytes data with
           | Ok o' => Some o'
           | Raise _ => None
           end
  | Raise _ => None
  end.

(** [add_order] for each record of a list, in order. *)
Definition add_orders (os : list Order.t) (p : DiskPage.t) : DiskPage.t :=
  fold_left (fun p o => (DiskPage.add_order o p).2) os p.

(** A page with the two sample orders. *)
Definition page_two_orders : DiskPage.t :=
  {| DiskPage.page_id := 2; DiskPage.orders := [order_half; order_sub_cent] |}.

(** *** The file as a sequence of pages *)

Definition file_content (dm : DiskManager.t) : list byte :=
  match DiskManager.file dm with Some c => c | None => [] end.

(** The page stored at index [page_id] of the file: present when the file
    exists, the index is not negative and the file reaches the end of that
    page; its records are those of the 128 slots of its 4096 bytes. *)
Definition disk_page (dm : DiskManager.t) (page_id : Z) : option DiskPage.t :=
  match DiskManager.file dm with
  | None => None
  | Some content =>
      if (0 <=? page_id)
         && ((page_id + 1) * Z.of_nat DiskPage.PAGE_SIZE
             <=? Z.of_nat (length content))
      then
        Some {| DiskPage.page_id := page_id;
                DiskPage.orders :=
                  omap (DiskPage.read_slot
                          (take DiskPage.PAGE_SIZE
                             (drop (Z.to_nat page_id * DiskPage.PAGE_SIZE)
                                content)))
                    (seq 0 DiskPage.RECORDS_PER_PAGE) |}
      else None
  end.

(** The page as the disk will hand it back after a write. *)
Definition DiskPage_stored (p : DiskPage.t) : DiskPage.t :=
  {| DiskPage.page_id := DiskPage.page_id p;
     DiskPage.orders := omap Order_stored (DiskPage.orders p) |}.

(** A page with id 2 and one record, and a page with a record that does
    not encode (its quantity is negative). *)
Definition page_one_order : DiskPage.t :=
  {| DiskPage.page_id := 2; DiskPage.orders := [order_half] |}.

Definition order_negative : Order.t :=
  {| Order.order_id := 1; Order.customer_id := 1; Order.product_id := 1;
     Order.quantity := -1; Order.price := 1%float;
     Order.order_date := 1; Order.region := 1 |}.


(** The content of the file once [write_page] has made room for page
    [page_id]: zero bytes are appended up to the end of that page. *)
Definition extended_content (dm : DiskManager.t) (page_id : Z) : list byte :=
  file_content dm
  ++ replicate
       (Z.to_nat ((page_id + 1) * Z.of_nat DiskPage.PAGE_SIZE
                  - Z.of_nat (length (file_content dm)))) x00.

(** *** What obtaining a frame leaves alone *)

(** Obtaining a frame in a pool without dirty pages: the disk manager and
    the access, hit and miss counters are untouched, evictions are only
    counted up, and a frame keeps its page or loses it. *)
Definition evict_rel (bm bm' : BufferManager.t) : Prop :=
  BufferManager.disk bm' = BufferManager.disk bm /\
  BufferManager.hits bm' = BufferManager.hits bm /\
  BufferManager.misses bm' = BufferManager.misses bm /\
  BufferManager.access_counter bm' = BufferManager.access_counter bm /\
  BufferManager.evictions bm <= BufferManager.evictions bm' /\
  forall j fr', BufferManager.frames bm' !! j = Some fr' ->
    exists fr, BufferManager.frames bm !! j = Some fr /\
               (BufferFrame.page fr' = BufferFrame.page fr \/
                BufferFrame.page fr' = None).

(** *** The outcomes of [get_page], state by state *)

(** After a hit on frame [i]. *)
Definition hit_state (bm : BufferManager.t) (i : nat) : BufferManager.t :=
  BufferManager.set_hits (BufferManager.hits bm + 1)
    (BufferManager.set_frames
       (alter (BufferFrame.touch (BufferManager.access_counter bm + 1)) i
          (BufferManager.frames bm))
       (BufferManager.set_access_counter
          (BufferManager.access_counter bm + 1) bm)).

(** After the read of the requested page has failed: the obtained frame
    [i] is appended to the free list. *)
Definition fail_state (bm1 : BufferManager.t) (d : DiskManager.t) (i : nat)
  : BufferManager.t :=
  BufferManager.set_free_frames (BufferManager.free_frames bm1 ++ [i])
    (BufferManager.set_disk d bm1).

(** After page [p] has been installed in the obtained frame [i]. *)
Definition install_state (bm1 : BufferManager.t) (d : DiskManager.t)
    (i : nat) (p : DiskPage.t) (pid : Z) : BufferManager.t :=
  BufferManager.set_page_table (<[pid := i]> (BufferManager.page_table bm1))
    (BufferManager.set_frames
       (alter (BufferFrame.install p pid (BufferManager.access_counter bm1)) i
          (BufferManager.frames bm1))
       (BufferManager.set_disk d bm1)).

(** The cached pages are the pages of the file of [dm0], and the file has
    not changed. *)
Definition coherent (dm0 : DiskManager.t) (bm : BufferManager.t) : Prop :=
  DiskManager.file (BufferManager.disk bm) = DiskManager.file dm0 /\
  forall j fr p, BufferManager.frames bm !! j = Some fr ->
    BufferFrame.page fr = Some p ->
    disk_page dm0 (DiskPage.page_id p) = Some p.

(** What one [get_page] call guarantees in a consistent, coherent pool. *)
Definition get_page_post (dm0 : DiskManager.t) (pid : Z)
    (bm : BufferManager.t) (r : result (option DiskPage.t))
    (bm' : BufferManager.t) : Prop :=
  pool_inv None bm' /\ coherent dm0 bm' /\ same_config bm bm' /\
  BufferManager.access_counter bm' = BufferManager.access_counter bm + 1 /\
  BufferManager.hits bm' + BufferManager.misses bm'
  = BufferManager.hits bm + BufferManager.misses bm + 1 /\
  BufferManager.hits bm <= BufferManager.hits bm' /\
  BufferManager.misses bm <= BufferManager.misses bm' /\
  forall p, r = Ok (Some p) ->
    disk_page dm0 pid = Some p /\
    exists i fr,
      BufferManager.page_table bm' !! pid = Some i /\
      BufferManager.frames bm' !! i = Some fr /\
      BufferFrame.page fr = Some p.


(** *** Table scans *)

(** The records of the pages stored in the file at the given indexes, in
    that order; an index without a page contributes nothing. *)
Definition stored_orders (dm : DiskManager.t) (page_ids : list Z)
  : list Order.t :=
  concat (map (fun page_id =>
                 match disk_page dm page_id with
                 | Some page => DiskPage.orders page
                 | None => []
                 end) page_ids).

(** The [get_page] calls of a scan over the given page ids. *)
Definition scan_calls (tm : Z -> io_times) (page_ids : list Z)
  : list (io_times * Z) :=
  map (fun page_id => (tm page_id, page_id)) page_ids.

(** *** The clock sweep *)


(** *** Disk accesses of the pool *)

(** The disk manager of the pool against the one it was created with: the
    write statistics have not moved, and there is at most one read, and one
    logged access, per miss. *)
Definition reads_only (dm : DiskManager.t) (bm : BufferManager.t) : Prop :=
  DiskManager.write_count (BufferManager.disk bm) = DiskManager.write_count dm /\
  DiskManager.bytes_written (BufferManager.disk bm)
    = DiskManager.bytes_written dm /\
  DiskManager.total_write_time (BufferManager.disk bm)
    = DiskManager.total_write_time dm /\
  DiskManager.read_count dm <= DiskManager.read_count (BufferManager.disk bm)
    <= DiskManager.read_count dm + BufferManager.misses bm /\
  exists reads,
    DiskManager.io_log (BufferManager.disk bm)
      = DiskManager.io_log dm ++ map DiskRead reads /\
    Z.of_nat (length reads) <= BufferManager.misses bm.

(** *** Sequences of tenant requests *)

(** A sequence of [get_llm_page] calls, each with the instant at which it
    is made; the state after the last one. *)
Definition get_llm_pages (calls : list (Z * Z * string * PageType))
    (self : UserAwareBufferManager.t) : UserAwareBufferManager.t :=
  fold_left
    (fun self call =>
       match call with
       | (now, page_id, user_id, page_type) =>
           (UserAwareBufferManager.get_llm_page now page_id user_id page_type
              self).2
       end) calls self.

(** Every session is flagged active exactly when its last activity is no
    older than the timeout at the instant [now]. *)
Definition activity_consistent (now : Z) (bm : UserAwareBufferManager.t)
  : Prop :=
  forall user_id session,
    UserAwareBufferManager.user_sessions bm !! user_id = Some session ->
    UserSession.is_active session
    = (now - UserSession.last_activity session
       <=? UserAwareBufferManager.activity_timeout bm).

(* ===================================================================== *)
(** * Properties                                                          *)
(* ===================================================================== *)

(** ** The monads *)

Lemma bind_ok {S A B} (m : M S A) (k : A -> M S B) s a s' :
  m s = (Ok a, s') -> bind m k s = k a s'.
Proof. intros H. unfold bind. by rewrite H. Qed.

Lemma bind_raise {S A B} (m : M S A) (k : A -> M S B) s e s' :
  m s = (Raise e, s') -> bind m k s = (Raise e, s').
Proof. intros H. unfold bind. by rewrite H. Qed.

(** ** [struct] packing *)

Lemma Z_of_byte_of_Z (z : Z) : Z_of_byte (byte_of_Z z) = z mod 256.
Proof.
  unfold Z_of_byte, byte_of_Z.
  assert (Hr : 0 <= z mod 256 < 256) by (apply Z.mod_pos_bound; lia).
  destruct (Byte.of_N (Z.to_N (z mod 256))) as [b|] eqn:E.
  - apply Byte.to_of_N in E. rewrite E. lia.
  - apply Byte.of_N_None_iff in E. lia.
Qed.

Lemma Z_of_byte_range (b : byte) : 0 <= Z_of_byte b < 256.
Proof. unfold Z_of_byte. pose proof (Byte.to_N_bounded b). lia. Qed.

Lemma pack_I_ok (n : Z) :
  u32 n -> exists w, pack_I n = Ok w.
Proof.
  intros [H0 H1]. unfold pack_I.
  destruct (0 <=? n) eqn:E0; [|lia].
  destruct (n <? 2 ^ 32) eqn:E1; [|lia].
  simpl. eauto.
Qed.

Lemma pack_I_inv (n : Z) (w : list byte) :
  pack_I n = Ok w -> u32 n /\ length w = 4%nat /\ le_value w = n.
Proof.
  unfold pack_I, u32.
  destruct (0 <=? n) eqn:E0; [|discriminate].
  destruct (n <? 2 ^ 32) eqn:E1; [|discriminate].
  simpl. intros [= <-].
  apply Z.leb_le in E0. apply Z.ltb_lt in E1.
  split; [lia|]. split; [done|].
  simpl. rewrite !Z_of_byte_of_Z.
  change (2 ^ 8) with 256. change (2 ^ 16) with 65536.
  change (2 ^ 24) with 16777216. change (2 ^ 32) with 4294967296 in E1.
  Z.div_mod_to_equations. lia.
Qed.

Lemma struct_pack_inv (vals : list Z) (data : list byte) :
  struct_pack vals = Ok data ->
  Forall u32 vals /\ length data = (4 * length vals)%nat /\
  unpack_words (length vals) data = vals.
Proof.
  revert data. induction vals as [|v vals IH]; intros data; simpl.
  - intros [= <-]. by repeat split.
  - destruct (pack_I v) as [w|] eqn:Ew; simpl; [|discriminate].
    destruct (struct_pack vals) as [ws|] eqn:Ews; simpl; [|discriminate].
    intros [= <-].
    apply pack_I_inv in Ew as (Hv & Hlen & Hval).
    destruct (IH ws eq_refl) as (Hall & Hlens & Hun).
    split; [by constructor|]. split.
    + rewrite length_app. lia.
    + rewrite take_app_length' by done. rewrite drop_app_length' by done.
      by rewrite Hval, Hun.
Qed.

Lemma struct_pack_ok (vals : list Z) :
  Forall u32 vals -> exists data, struct_pack vals = Ok data.
Proof.
  induction 1 as [|v vals Hv _ [ws IH]]; simpl; [eauto|].
  destruct (pack_I_ok v Hv) as [w ->]. rewrite IH. simpl. eauto.
Qed.

(** ** Record codec *)

Lemma Order_from_bytes_short (data : list byte) :
  (length data < Order.RECORD_SIZE)%nat ->
  Order.from_bytes data = Raise ValueError.
Proof.
  intros H. unfold Order.from_bytes.
  destruct (length data <? Order.RECORD_SIZE)%nat eqn:E; [done|].
  apply Nat.ltb_ge in E. lia.
Qed.

Lemma Order_from_bytes_long (data : list byte) :
  (Order.RECORD_SIZE <= length data)%nat ->
  Order.from_bytes data =
  Ok (Order.of_fields (unpack_words 8 (take Order.RECORD_SIZE data))).
Proof.
  intros H. unfold Order.from_bytes.
  destruct (length data <? Order.RECORD_SIZE)%nat eqn:E.
  { apply Nat.ltb_lt in E. lia. }
  unfold struct_unpack.
  rewrite length_take, Nat.min_l by done.
  reflexivity.
Qed.

(** C1 (as amended): a record whose six integer fields are unsigned 32-bit
    values and whose price converts to a cent amount [int(price * 100)]
    that is an unsigned 32-bit value is encoded in exactly 32 bytes, and
    decoding them gives back the six integer fields unchanged together
    with the price rebuilt from the stored cents, [cents / 100.0]. *)
Theorem Order_roundtrip_int_fields (o : Order.t) (cents : Z) :
  int_fields_u32 o ->
  Order.price_cents o = Ok cents ->
  u32 cents ->
  exists data,
    Order.to_bytes o = Ok data /\
    length data = Order.RECORD_SIZE /\
    Order.from_bytes data =
    Ok {| Order.order_id := Order.order_id o;
          Order.customer_id := Order.customer_id o;
          Order.product_id := Order.product_id o;
          Order.quantity := Order.quantity o;
          Order.price := Order.price_of_cents cents;
          Order.order_date := Order.order_date o;
          Order.region := Order.region o |}.
Proof.
  intros (H1 & H2 & H3 & H4 & H5 & H6) Hc Hcents.
  unfold Order.to_bytes. rewrite Hc. simpl.
  set (vals := [Order.order_id o; Order.customer_id o; Order.product_id o;
                Order.quantity o; cents; Order.order_date o; Order.region o; 0]).
  assert (Hall : Forall u32 vals).
  { unfold vals.
    repeat (apply List.Forall_cons; [first [assumption | unfold u32; lia]|]).
    apply List.Forall_nil. }
  destruct (struct_pack_ok vals Hall) as [data Hdata].
  exists data. split; [done|].
  apply struct_pack_inv in Hdata as (_ & Hlen & Hun).
  change (length vals) with 8%nat in Hlen, Hun.
  split; [done|].
  rewrite Order_from_bytes_long by (rewrite Hlen; done).
  rewrite take_ge by (rewrite Hlen; done).
  rewrite Hun. reflexivity.
Qed.

Lemma Order_roundtrip_int_fields_witness :
  exists data,
    Order.to_bytes order_half = Ok data /\
    length data = Order.RECORD_SIZE /\
    Order.from_bytes data =
    Ok {| Order.order_id := 7; Order.customer_id := 3;
          Order.product_id := 9; Order.quantity := 1;
          Order.price := Order.price_of_cents 1250;
          Order.order_date := 20000; Order.region := 4 |}.
Proof.
  apply (Order_roundtrip_int_fields order_half 1250).
  - unfold int_fields_u32, u32. simpl. lia.
  - vm_compute. reflexivity.
  - unfold u32. lia.
Defined.

(** C1 (counterexample): the order priced 10.5078125 has all its fields
    within the 32-bit range, yet decoding its encoding does not give it
    back: the price comes back as 10.5. *)
Lemma Order_roundtrip_price_counterexample :
  Order_valid order_sub_cent /\ ~ roundtrip_exact order_sub_cent.
Proof.
  split.
  - unfold Order_valid, int_fields_u32, u32. simpl.
    repeat split; try lia; vm_compute; reflexivity.
  - intros (data & Henc & Hdec).
    assert (Hp : match Order.from_bytes data with
                 | Ok o' => PrimFloat.eqb (Order.price o') 10.5%float
                 | Raise _ => false
                 end = true).
    { vm_compute in Henc. injection Henc as <-. vm_compute. reflexivity. }
    rewrite Hdec in Hp. vm_compute in Hp. discriminate.
Qed.



(** ** Disk manager *)

Lemma DiskPage_from_bytes_ok (page_id : Z) (data : list byte) :
  length data = DiskPage.PAGE_SIZE ->
  exists p, DiskPage.from_bytes page_id data = Ok p /\
            DiskPage.page_id p = page_id.
Proof.
  intros H. unfold DiskPage.from_bytes. rewrite H, Nat.eqb_refl. eauto.
Qed.

(** [read_page] never raises, and a page it returns carries the id that
    was asked for. *)
Lemma read_page_result (read_time : Q) (page_id : Z) (dm : DiskManager.t) :
  (DiskManager.read_page read_time page_id dm).1 = Ok None \/
  exists p, (DiskManager.read_page read_time page_id dm).1 = Ok (Some p) /\
            DiskPage.page_id p = page_id.
Proof.
  unfold DiskManager.read_page.
  destruct (DiskManager.file _) as [content|]; [|by left].
  destruct (page_id <? 0); [by left|].
  destruct (length _ =? DiskPage.PAGE_SIZE)%nat eqn:E; [|by left].
  apply Nat.eqb_eq in E.
  destruct (DiskPage_from_bytes_ok page_id _ E) as (p & -> & Hp).
  right. eauto.
Qed.



(** ** Lists *)

Lemma list_pop_snoc {A} (l : list A) (x : A) : list_pop (l ++ [x]) = Some (x, l).
Proof.
  unfold list_pop. rewrite reverse_app. simpl. by rewrite reverse_involutive.
Qed.

Lemma list_pop_nil {A} : list_pop (@nil A) = None.
Proof. reflexivity. Qed.

Lemma list_pop_Some {A} (l r : list A) (x : A) :
  list_pop l = Some (x, r) -> l = r ++ [x].
Proof.
  destruct l as [|y l'] using rev_ind; [done|].
  rewrite list_pop_snoc. by intros [= -> ->].
Qed.

Lemma list_pop_None {A} (l : list A) : list_pop l = None -> l = [].
Proof.
  destruct l as [|y l'] using rev_ind; [done|].
  by rewrite list_pop_snoc.
Qed.

(** Replacing one element changes the number of elements that satisfy [P]
    by the difference between the new and the old element. *)
Lemma filter_alter_length {A} (P : A -> Prop) `{!forall x, Decision (P x)}
    (f : A -> A) (l : list A) (i : nat) (x : A) :
  l !! i = Some x ->
  (length (filter P (alter f i l)) + (if decide (P x) then 1 else 0)
   = length (filter P l) + (if decide (P (f x)) then 1 else 0))%nat.
Proof.
  revert i. induction l as [|y l IH]; intros i Hi; [done|].
  destruct i as [|i]; simpl in Hi.
  - injection Hi as ->. simpl. rewrite !filter_cons.
    destruct (decide (P x)), (decide (P (f x))); simpl; lia.
  - specialize (IH i Hi). simpl. rewrite !filter_cons.
    destruct (decide (P y)); simpl; [f_equal|]; exact IH.
Qed.

Lemma alter_out_of_range {A} (f : A -> A) (l : list A) (i : nat) :
  l !! i = None -> alter f i l = l.
Proof.
  revert i. induction l as [|y l IH]; intros [|i]; simpl; try done.
  intros H. f_equal. by apply IH.
Qed.

Lemma find_some_lookup {A} (p : A -> bool) (l : list A) (x : A) :
  List.find p l = Some x ->
  exists i, l !! i = Some x /\ p x = true /\
            forall j y, (j < i)%nat -> l !! j = Some y -> p y = false.
Proof.
  induction l as [|y l IH]; [done|]. simpl.
  destruct (p y) eqn:E.
  - intros [= ->]. exists 0%nat. repeat split; [done|]. intros j z Hj. lia.
  - intros H. destruct (IH H) as (i & Hi & Hp & Hlt).
    exists (S i). repeat split; [done..|].
    intros [|j] z Hj; simpl; [by intros [= <-]|].
    apply Hlt. lia.
Qed.

Lemma find_none_all {A} (p : A -> bool) (l : list A) :
  List.find p l = None -> forall i x, l !! i = Some x -> p x = false.
Proof.
  induction l as [|y l IH]; [done|]. simpl.
  destruct (p y) eqn:E; [done|].
  intros H [|i] x; simpl; [by intros [= <-]|]. by apply IH.
Qed.

(** ** The pool invariant, component by component *)

Lemma lookup_alter_inv {A} (f : A -> A) (i j : nat) (l : list A) (y : A) :
  alter f i l !! j = Some y ->
  exists x, l !! j = Some x /\ y = (if decide (i = j) then f x else x).
Proof.
  destruct (decide (i = j)) as [->|Hne].
  - rewrite list_lookup_alter_eq. destruct (l !! j) as [x|]; simpl; [|done].
    intros [= <-]. eauto.
  - rewrite list_lookup_alter_ne by done. eauto.
Qed.

Lemma lookup_alter_fwd {A} (f : A -> A) (i j : nat) (l : list A) (x : A) :
  l !! j = Some x ->
  alter f i l !! j = Some (if decide (i = j) then f x else x).
Proof.
  intros H. destruct (decide (i = j)) as [->|Hne].
  - by rewrite list_lookup_alter_eq, H.
  - by rewrite list_lookup_alter_ne.
Qed.

Lemma filter_occupied_init (s n : nat) :
  filter occupied (map BufferFrame.init (seq s n)) = [].
Proof.
  revert s. induction n as [|n IH]; intros s; [done|].
  simpl. rewrite filter_cons. simpl. apply IH.
Qed.

Lemma frames_inv_init (n : nat) :
  frames_inv None n (map BufferFrame.init (seq 0 n)) ∅ (seq 0 n) 0.
Proof.
  constructor.
  - by rewrite length_map, length_seq.
  - intros i fr. rewrite list_lookup_fmap.
    destruct (seq 0 n !! i) as [j|] eqn:E; [|done].
    apply lookup_seq in E as [-> _]. by intros [= <-].
  - intros i fr. rewrite list_lookup_fmap.
    destruct (seq 0 n !! i) as [j|]; [|done]. by intros [= <-].
  - intros i fr. rewrite list_lookup_fmap.
    destruct (seq 0 n !! i) as [j|]; [|done]. by intros [= <-].
  - intros p i. split; [by rewrite lookup_empty|].
    intros (fr & Hfr & Hp). rewrite list_lookup_fmap in Hfr.
    destruct (seq 0 n !! i) as [j|]; [|done].
    injection Hfr as <-. done.
  - apply NoDup_seq.
  - intros i. rewrite elem_of_seq. split.
    + intros [_ Hi]. exists (BufferFrame.init i).
      rewrite list_lookup_fmap, lookup_seq_lt by lia. done.
    + intros (fr & Hfr & _). apply lookup_lt_Some in Hfr.
      rewrite length_map, length_seq in Hfr. lia.
  - done.
  - rewrite length_seq, filter_occupied_init. simpl. lia.
  - lia.
Qed.

Lemma keeps_page_touch (c : Z) : keeps_page (BufferFrame.touch c).
Proof. by intros fr. Qed.

Lemma keeps_page_set_clock_bit (b : bool) : keeps_page (BufferFrame.set_clock_bit b).
Proof. by intros fr. Qed.

Lemma frames_inv_keeps_page held n fs pt ff hand f i :
  keeps_page f ->
  frames_inv held n fs pt ff hand ->
  frames_inv held n (alter f i fs) pt ff hand.
Proof.
  intros Hf [Hlen Hids Hpage Hclean Htable Hnd Hfree Hheld Hcount Hhand].
  assert (Hsame : forall j y, alter f i fs !! j = Some y ->
            exists x, fs !! j = Some x /\
              BufferFrame.frame_id y = BufferFrame.frame_id x /\
              BufferFrame.page y = BufferFrame.page x /\
              BufferFrame.page_id y = BufferFrame.page_id x /\
              BufferFrame.is_dirty y = BufferFrame.is_dirty x).
  { intros j y Hy. apply lookup_alter_inv in Hy as (x & Hx & ->).
    exists x. split; [done|]. destruct (decide (i = j)); [apply Hf | done]. }
  assert (Hback : forall j x, fs !! j = Some x ->
            exists y, alter f i fs !! j = Some y /\
              BufferFrame.page y = BufferFrame.page x /\
              BufferFrame.page_id y = BufferFrame.page_id x).
  { intros j x Hx. eexists. split; [by apply lookup_alter_fwd|].
    destruct (decide (i = j)); [|done]. destruct (Hf x) as (_ & ? & ? & _). done. }
  constructor; try done.
  - by rewrite length_alter.
  - intros j y Hy. destruct (Hsame j y Hy) as (x & Hx & -> & _). eauto.
  - intros j y Hy. destruct (Hsame j y Hy) as (x & Hx & _ & Hpg & Hpid & _).
    rewrite Hpg, Hpid. exact (Hpage j x Hx).
  - intros j y Hy. destruct (Hsame j y Hy) as (x & Hx & _ & _ & _ & ->). eauto.
  - intros p j. rewrite Htable. split.
    + intros (x & Hx & Hp). destruct (Hback j x Hx) as (y & Hy & _ & Hpid).
      exists y. split; [done|]. congruence.
    + intros (y & Hy & Hp). destruct (Hsame j y Hy) as (x & Hx & _ & _ & Hpid & _).
      exists x. split; [done|]. congruence.
  - intros j. rewrite Hfree. split.
    + intros (x & Hx & Hp & Hh). destruct (Hback j x Hx) as (y & Hy & Hpg & _).
      exists y. repeat split; [done| congruence | done].
    + intros (y & Hy & Hp & Hh). destruct (Hsame j y Hy) as (x & Hx & _ & Hpg & _).
      exists x. repeat split; [done| congruence | done].
  - intros j Hj. destruct (Hheld j Hj) as (x & Hx & Hp).
    destruct (Hback j x Hx) as (y & Hy & Hpg & _). exists y. split; [done|congruence].
  - destruct (fs !! i) as [x|] eqn:Hx.
    + pose proof (filter_alter_length occupied f fs i x Hx) as Hc.
      assert (Hocc : occupied (f x) <-> occupied x).
      { unfold occupied, BufferFrame.is_free.
        destruct (Hf x) as (_ & -> & _). done. }
      destruct (decide (occupied x)), (decide (occupied (f x))); try tauto; lia.
    + by rewrite alter_out_of_range.
Qed.

Lemma frames_inv_hand held n fs pt ff hand :
  (0 < n)%nat ->
  frames_inv held n fs pt ff hand ->
  frames_inv held n fs pt ff ((hand + 1) mod n).
Proof.
  intros Hn []. constructor; try done.
  left. apply Nat.mod_upper_bound. lia.
Qed.

(** Taking a frame off the free list. *)
Lemma frames_inv_pop n fs pt ff hand i :
  frames_inv None n fs pt (ff ++ [i]) hand ->
  frames_inv (Some i) n fs pt ff hand.
Proof.
  intros [Hlen Hids Hpage Hclean Htable Hnd Hfree Hheld Hcount Hhand].
  apply NoDup_app in Hnd as (Hnd & Hdisj & _).
  constructor; try done.
  - intros j. split.
    + intros Hj. assert (Hj' : j ∈ ff ++ [i]) by (apply elem_of_app; by left).
      apply Hfree in Hj' as (fr & Hfr & Hp & _).
      exists fr. repeat split; [done..|].
      intros [= ->]. apply (Hdisj j Hj). by apply list_elem_of_singleton.
    + intros (fr & Hfr & Hp & Hne).
      assert (Hj : j ∈ ff ++ [i]) by (apply Hfree; eauto).
      apply elem_of_app in Hj as [Hj|Hj]; [done|].
      apply list_elem_of_singleton in Hj. congruence.
  - intros j [= <-].
    assert (Hi : i ∈ ff ++ [i])
      by (apply elem_of_app; right; by apply list_elem_of_singleton).
    apply Hfree in Hi as (fr & Hfr & Hp & _). eauto.
  - rewrite length_app in Hcount. simpl in Hcount. lia.
Qed.

(** Putting the held frame back on the free list. *)
Lemma frames_inv_push n fs pt ff hand i :
  frames_inv (Some i) n fs pt ff hand ->
  (i ∉ ff) /\ frames_inv None n fs pt (ff ++ [i]) hand.
Proof.
  intros [Hlen Hids Hpage Hclean Htable Hnd Hfree Hheld Hcount Hhand].
  assert (Hi : i ∉ ff).
  { intros Hi. apply Hfree in Hi as (_ & _ & _ & Hne). done. }
  split; [done|].
  constructor; try done.
  - apply NoDup_app. repeat split; [done| |apply NoDup_singleton].
    intros j Hj Hj'. apply list_elem_of_singleton in Hj'. congruence.
  - intros j. rewrite elem_of_app, list_elem_of_singleton. split.
    + intros [Hj| ->].
      * apply Hfree in Hj as (fr & Hfr & Hp & _). eauto.
      * destruct (Hheld i eq_refl) as (fr & Hfr & Hp). eauto.
    + intros (fr & Hfr & Hp & _).
      destruct (decide (j = i)) as [->|Hne]; [by right|].
      left. apply Hfree. exists fr. repeat split; [done..|congruence].
  - rewrite length_app. simpl. lia.
Qed.

(** Evicting the page of an occupied frame: the frame becomes the held one. *)
Lemma frames_inv_clear n fs pt ff hand i fr p :
  frames_inv None n fs pt ff hand ->
  fs !! i = Some fr ->
  BufferFrame.page_id fr = Some p ->
  frames_inv (Some i) n (alter BufferFrame.clear i fs) (delete p pt) ff hand.
Proof.
  intros [Hlen Hids Hpage Hclean Htable Hnd Hfree Hheld Hcount Hhand] Hfr Hp.
  assert (Hocc : occupied fr).
  { specialize (Hpage i fr Hfr). unfold occupied, BufferFrame.is_free.
    destruct (BufferFrame.page fr); [done|congruence]. }
  assert (Hpt : pt !! p = Some i) by (apply Htable; eauto).
  constructor; try done.
  - by rewrite length_alter.
  - intros j y Hy. apply lookup_alter_inv in Hy as (x & Hx & ->).
    destruct (decide (i = j)); simpl; exact (Hids _ _ Hx).
  - intros j y Hy. apply lookup_alter_inv in Hy as (x & Hx & ->).
    destruct (decide (i = j)); simpl; [done | exact (Hpage _ _ Hx)].
  - intros j y Hy. apply lookup_alter_inv in Hy as (x & Hx & ->).
    destruct (decide (i = j)); simpl; [done | exact (Hclean _ _ Hx)].
  - intros q j. rewrite lookup_delete_Some. split.
    + intros [Hne Hq]. apply Htable in Hq as (x & Hx & Hxq).
      assert (i <> j) by (intros ->; congruence).
      exists x. by rewrite list_lookup_alter_ne.
    + intros (y & Hy & Hyq). apply lookup_alter_inv in Hy as (x & Hx & ->).
      destruct (decide (i = j)) as [->|Hne]; [done|].
      assert (Hq : pt !! q = Some j) by (apply Htable; eauto).
      split; [|done]. intros ->. congruence.
  - intros j. rewrite Hfree. split.
    + intros (x & Hx & Hxp & _).
      assert (i <> j).
      { intros ->. unfold occupied, BufferFrame.is_free in Hocc.
        assert (x = fr) by congruence. subst x. by rewrite Hxp in Hocc. }
      exists x. rewrite list_lookup_alter_ne by done.
      repeat split; [done..|congruence].
    + intros (y & Hy & Hyp & Hne). apply lookup_alter_inv in Hy as (x & Hx & ->).
      destruct (decide (i = j)) as [->|]; [done|]. eauto.
  - intros j [= <-]. exists (BufferFrame.clear fr).
    by rewrite list_lookup_alter_eq, Hfr.
  - pose proof (filter_alter_length occupied BufferFrame.clear fs i fr Hfr) as Hc.
    destruct (decide (occupied fr)); [|done].
    destruct (decide (occupied (BufferFrame.clear fr))) as [Hc'|]; [done|]. lia.
Qed.

(** Installing a page that is not in the table into the held frame. *)
Lemma frames_inv_install n fs pt ff hand i p pid c :
  frames_inv (Some i) n fs pt ff hand ->
  pt !! pid = None ->
  DiskPage.page_id p = pid ->
  frames_inv None n (alter (BufferFrame.install p pid c) i fs)
    (<[pid := i]> pt) ff hand.
Proof.
  intros [Hlen Hids Hpage Hclean Htable Hnd Hfree Hheld Hcount Hhand] Hpid Hp.
  destruct (Hheld i eq_refl) as (fr & Hfr & Hfree_i).
  assert (Hnopid : BufferFrame.page_id fr = None).
  { specialize (Hpage i fr Hfr). by rewrite Hfree_i in Hpage. }
  constructor; try done.
  - by rewrite length_alter.
  - intros j y Hy. apply lookup_alter_inv in Hy as (x & Hx & ->).
    destruct (decide (i = j)); simpl; exact (Hids _ _ Hx).
  - intros j y Hy. apply lookup_alter_inv in Hy as (x & Hx & ->).
    destruct (decide (i = j)); simpl; [by rewrite Hp | exact (Hpage _ _ Hx)].
  - intros j y Hy. apply lookup_alter_inv in Hy as (x & Hx & ->).
    destruct (decide (i = j)); simpl; [done | exact (Hclean _ _ Hx)].
  - intros q j. rewrite lookup_insert_Some. split.
    + intros [[<- <-]|[Hne Hq]].
      * exists (BufferFrame.install p pid c fr).
        by rewrite list_lookup_alter_eq, Hfr.
      * apply Htable in Hq as (x & Hx & Hxq).
        assert (i <> j) by (intros ->; congruence).
        exists x. by rewrite list_lookup_alter_ne.
    + intros (y & Hy & Hyq). apply lookup_alter_inv in Hy as (x & Hx & ->).
      destruct (decide (i = j)) as [->|Hne].
      * simpl in Hyq. left. split; congruence.
      * right. assert (Hq : pt !! q = Some j) by (apply Htable; eauto).
        split; [|done]. intros ->. congruence.
  - intros j. rewrite Hfree. split.
    + intros (x & Hx & Hxp & Hne).
      assert (i <> j) by congruence.
      exists x. by rewrite list_lookup_alter_ne.
    + intros (y & Hy & Hyp & _). apply lookup_alter_inv in Hy as (x & Hx & ->).
      destruct (decide (i = j)) as [->|]; [done|].
      exists x. repeat split; [done..|congruence].
  - pose proof (filter_alter_length occupied (BufferFrame.install p pid c)
                  fs i fr Hfr) as Hc.
    destruct (decide (occupied fr)) as [Ho|].
    { unfold occupied, BufferFrame.is_free in Ho. by rewrite Hfree_i in Ho. }
    destruct (decide (occupied (BufferFrame.install p pid c fr))) as [|Hn];
      [lia|]. by destruct Hn.
Qed.

(** ** The operations of the buffer manager preserve the invariant *)

Lemma find_lookup_first {A} (p : A -> bool) (l : list A) (i : nat) (x : A) :
  l !! i = Some x -> p x = true ->
  (forall j y, (j < i)%nat -> l !! j = Some y -> p y = false) ->
  List.find p l = Some x.
Proof.
  revert i. induction l as [|y l IH]; intros i Hi Hp Hlt; [done|].
  destruct i as [|i]; simpl in *.
  - injection Hi as ->. by rewrite Hp.
  - rewrite (Hlt 0%nat y) by (done || lia).
    apply (IH i); [done..|]. intros j z Hj Hz. apply (Hlt (S j)); [lia|done].
Qed.

Lemma write_back_clean tm i bm fr p :
  BufferManager.frames bm !! i = Some fr ->
  BufferFrame.is_dirty fr = false ->
  BufferFrame.page_id fr = Some p ->
  BufferManager.page_table bm !! p = Some i ->
  BufferManager._write_back_and_clear_frame tm i bm =
  (Ok tt,
   BufferManager.set_evictions (BufferManager.evictions bm + 1)
     (BufferManager.set_frames
        (alter BufferFrame.clear i (BufferManager.frames bm))
        (BufferManager.set_page_table
           (delete p (BufferManager.page_table bm)) bm))).
Proof.
  intros Hfr Hd Hp Hpt.
  unfold BufferManager._write_back_and_clear_frame, bind,
    BufferManager.frame_at, modify, BufferManager.update_frame, ret.
  rewrite Hfr, Hd, Hp. simpl. rewrite Hpt. reflexivity.
Qed.

(** In a state that satisfies the invariant, an occupied frame has a page
    id, and the page table maps that id to the frame. *)
Lemma pool_inv_occupied bm i fr :
  pool_inv None bm ->
  BufferManager.frames bm !! i = Some fr ->
  BufferFrame.is_free fr = false ->
  exists p, BufferFrame.page_id fr = Some p /\
            BufferManager.page_table bm !! p = Some i /\
            BufferFrame.is_dirty fr = false /\
            BufferFrame.frame_id fr = i.
Proof.
  intros Hinv Hfr Hocc.
  pose proof (inv_page _ _ _ _ _ _ Hinv i fr Hfr) as Hpage.
  unfold BufferFrame.is_free in Hocc.
  destruct (BufferFrame.page fr) as [pg|]; [|done].
  exists (DiskPage.page_id pg). split; [done|].
  split; [apply (inv_table _ _ _ _ _ _ Hinv); eauto|].
  split; [by apply (inv_clean _ _ _ _ _ _ Hinv i)|].
  by apply (inv_ids _ _ _ _ _ _ Hinv).
Qed.

(** Clearing an occupied frame of a consistent pool. *)
Lemma write_back_inv tm bm i fr :
  pool_inv None bm ->
  BufferManager.frames bm !! i = Some fr ->
  BufferFrame.is_free fr = false ->
  exists p bm',
    BufferFrame.page_id fr = Some p /\
    BufferManager._write_back_and_clear_frame tm i bm = (Ok tt, bm') /\
    bm' = BufferManager.set_evictions (BufferManager.evictions bm + 1)
            (BufferManager.set_frames
               (alter BufferFrame.clear i (BufferManager.frames bm))
               (BufferManager.set_page_table
                  (delete p (BufferManager.page_table bm)) bm)) /\
    pool_inv (Some i) bm'.
Proof.
  intros Hinv Hfr Hocc.
  destruct (pool_inv_occupied bm i fr Hinv Hfr Hocc) as (p & Hp & Hpt & Hd & _).
  eexists p, _. split; [done|]. split; [by apply write_back_clean with fr|].
  split; [done|].
  unfold pool_inv. simpl. by apply frames_inv_clear with fr.
Qed.

Lemma evict_fifo_first tm bm i fr :
  pool_inv None bm ->
  BufferManager.frames bm !! i = Some fr ->
  BufferFrame.is_free fr = false ->
  (forall j y, (j < i)%nat -> BufferManager.frames bm !! j = Some y ->
               BufferFrame.is_free y = true) ->
  exists p bm',
    BufferFrame.page_id fr = Some p /\
    BufferManager._evict_fifo tm bm = (Ok (Some i), bm') /\
    bm' = BufferManager.set_evictions (BufferManager.evictions bm + 1)
            (BufferManager.set_frames
               (alter BufferFrame.clear i (BufferManager.frames bm))
               (BufferManager.set_page_table
                  (delete p (BufferManager.page_table bm)) bm)) /\
    pool_inv (Some i) bm'.
Proof.
  intros Hinv Hfr Hocc Hfirst.
  destruct (write_back_inv tm bm i fr Hinv Hfr Hocc) as (p & bm' & Hp & Hwb & Hbm' & Hinv').
  exists p, bm'. split; [done|]. split; [|done].
  unfold BufferManager._evict_fifo, bind, get.
  rewrite (find_lookup_first _ _ i fr Hfr).
  - rewrite (inv_ids _ _ _ _ _ _ Hinv i fr Hfr). by rewrite Hwb.
  - by rewrite Hocc.
  - intros j y Hj Hy. by rewrite (Hfirst j y Hj Hy).
Qed.

Lemma delete_lookup_None_mono (pt : gmap Z nat) (p q : Z) :
  pt !! q = None -> delete p pt !! q = None.
Proof. intros H. apply lookup_delete_None. by right. Qed.

Lemma evict_fifo_spec tm bm :
  pool_inv None bm ->
  exists r bm', BufferManager._evict_fifo tm bm = (r, bm') /\ obtain_post bm r bm'.
Proof.
  intros Hinv.
  destruct (List.find (fun fr => negb (BufferFrame.is_free fr))
              (BufferManager.frames bm)) as [fr|] eqn:Hfind.
  - apply find_some_lookup in Hfind as (i & Hfr & Hocc & Hfirst).
    apply negb_true_iff in Hocc.
    destruct (evict_fifo_first tm bm i fr Hinv Hfr Hocc) as (p & bm' & Hp & Hev & -> & Hinv').
    { intros j y Hj Hy. specialize (Hfirst j y Hj Hy). by apply negb_false_iff in Hfirst. }
    eexists _, _. split; [exact Hev|]. split; [|done].
    split; [done|].
    intros q Hq. simpl. by apply delete_lookup_None_mono.
  - exists (Ok None), bm. split.
    + unfold BufferManager._evict_fifo, bind, get. by rewrite Hfind.
    + by split.
Qed.

Lemma clock_remaining_pos n start hand :
  (hand < n)%nat -> (start < n)%nat -> (1 <= clock_remaining n start hand)%nat.
Proof.
  intros Hh Hs. unfold clock_remaining.
  destruct (hand <? start)%nat eqn:E.
  - apply Nat.ltb_lt in E. lia.
  - apply Nat.ltb_ge in E. lia.
Qed.

Lemma clock_remaining_step n start hand :
  (hand < n)%nat -> (start < n)%nat ->
  ((hand + 1) mod n)%nat <> start ->
  (clock_remaining n start ((hand + 1) mod n) + 1
   = clock_remaining n start hand)%nat.
Proof.
  intros Hh Hs.
  assert (Hmod : ((hand + 1) mod n)%nat
                 = if decide (hand + 1 = n)%nat then 0%nat else (hand + 1)%nat).
  { destruct (decide (hand + 1 = n)%nat) as [->|Hne].
    - apply Nat.Div0.mod_same.
    - apply Nat.mod_small. lia. }
  rewrite Hmod. clear Hmod. unfold clock_remaining.
  destruct (decide (hand + 1 = n)%nat) as [He|Hne]; intros Hns.
  - destruct (0 <? start)%nat eqn:E0; [apply Nat.ltb_lt in E0|apply Nat.ltb_ge in E0];
    destruct (hand <? start)%nat eqn:E1; [apply Nat.ltb_lt in E1|apply Nat.ltb_ge in E1|
                                          apply Nat.ltb_lt in E1|apply Nat.ltb_ge in E1]; lia.
  - destruct (hand + 1 <? start)%nat eqn:E0; [apply Nat.ltb_lt in E0|apply Nat.ltb_ge in E0];
    destruct (hand <? start)%nat eqn:E1; [apply Nat.ltb_lt in E1|apply Nat.ltb_ge in E1|
                                          apply Nat.ltb_lt in E1|apply Nat.ltb_ge in E1]; lia.
Qed.

(** The clock sweep over a full pool: it ends within the given fuel, never
    raises, and either evicts a frame or gives up with the pool intact. *)
Lemma clock_loop_spec tm start fuel bm :
  pool_inv None bm ->
  BufferManager.free_frames bm = [] ->
  (start < BufferManager.pool_size bm)%nat ->
  (clock_remaining (BufferManager.pool_size bm) start (BufferManager.clock_hand bm)
   <= fuel)%nat ->
  exists r bm',
    BufferManager.clock_loop tm start fuel bm = (r, bm') /\
    obtain_post bm r bm' /\
    match r with Ok _ => True | Raise _ => False end.
Proof.
  revert bm. induction fuel as [|fuel IH]; intros bm Hinv Hfull Hstart Hfuel.
  { assert (Hh : (BufferManager.clock_hand bm < BufferManager.pool_size bm)%nat).
    { destruct (inv_hand _ _ _ _ _ _ Hinv) as [|[? _]]; lia. }
    pose proof (clock_remaining_pos _ _ _ Hh Hstart). lia. }
  assert (Hh : (BufferManager.clock_hand bm < BufferManager.pool_size bm)%nat).
  { destruct (inv_hand _ _ _ _ _ _ Hinv) as [|[? _]]; lia. }
  assert (Hn : (0 < BufferManager.pool_size bm)%nat) by lia.
  destruct (lookup_lt_is_Some_2 (BufferManager.frames bm) (BufferManager.clock_hand bm))
    as [frame Hframe].
  { by rewrite (inv_length _ _ _ _ _ _ Hinv). }
  assert (Hocc : BufferFrame.is_free frame = false).
  { destruct (BufferFrame.is_free frame) eqn:E; [|done].
    assert (Hin : BufferManager.clock_hand bm ∈ BufferManager.free_frames bm).
    { apply (inv_free _ _ _ _ _ _ Hinv). exists frame.
      unfold BufferFrame.is_free in E.
      destruct (BufferFrame.page frame); [done|]. by repeat split. }
    rewrite Hfull in Hin. by apply elem_of_nil in Hin. }
  set (bm1 := BufferManager.set_clock_hand
                ((BufferManager.clock_hand bm + 1) mod BufferManager.pool_size bm)%nat bm).
  assert (Hinv1 : pool_inv None bm1).
  { unfold pool_inv, bm1. simpl. by apply frames_inv_hand. }
  cbn [BufferManager.clock_loop].
  unfold bind at 1. unfold get at 1.
  unfold bind at 1. unfold BufferManager.frame_at at 1. rewrite Hframe.
  unfold bind at 1.
  destruct (BufferManager.pool_size bm =? 0)%nat eqn:E0.
  { apply Nat.eqb_eq in E0. lia. }
  unfold modify at 1. fold bm1. rewrite Hocc.
  destruct (BufferFrame.clock_bit frame) eqn:Ebit.
  - (* second chance *)
    unfold bind at 1. unfold BufferManager.update_frame, modify at 1.
    set (bm2 := BufferManager.set_frames _ bm1).
    assert (Hinv2 : pool_inv None bm2).
    { unfold pool_inv, bm2. simpl.
      apply frames_inv_keeps_page; [apply keeps_page_set_clock_bit|exact Hinv1]. }
    unfold bind at 1. unfold get at 1.
    change (BufferManager.clock_hand bm2)
      with ((BufferManager.clock_hand bm + 1) mod BufferManager.pool_size bm)%nat.
    destruct (_ =? start)%nat eqn:Eh.
    + exists (Ok None), bm2. split; [done|]. split; [|done]. by split.
    + apply Nat.eqb_neq in Eh.
      destruct (IH bm2 Hinv2)
        as (r & bm' & Hloop & [[[Hsize Hpol] Hshrink] Hpost] & Hok); try done.
      { pose proof (clock_remaining_step _ _ _ Hh Hstart Eh) as Hstep.
        change (BufferManager.pool_size bm2) with (BufferManager.pool_size bm).
        change (BufferManager.clock_hand bm2)
          with ((BufferManager.clock_hand bm + 1) mod BufferManager.pool_size bm)%nat.
        lia. }
      exists r, bm'. split; [done|]. split; [|done].
      split; [split; [by split|exact Hshrink]|].
      destruct r as [[i|]|e]; try done.
  - (* the victim *)
    assert (Hframe1 : BufferManager.frames bm1 !! BufferManager.clock_hand bm = Some frame)
      by done.
    destruct (write_back_inv tm bm1 _ frame Hinv1 Hframe1 Hocc)
      as (p & bm' & Hp & Hwb & Hbm' & Hinv').
    rewrite (inv_ids _ _ _ _ _ _ Hinv _ _ Hframe).
    unfold bind at 1. cbn [negb]. cbv beta iota. rewrite Hwb. unfold ret.
    exists (Ok (Some (BufferManager.clock_hand bm))), bm'.
    split; [done|]. split; [|done]. split; [|done].
    split; [by rewrite Hbm'|].
    intros q Hq. rewrite Hbm'. simpl. by apply delete_lookup_None_mono.
Qed.

Lemma clock_remaining_start n start :
  clock_remaining n start start = n.
Proof. unfold clock_remaining. rewrite Nat.ltb_irrefl. lia. Qed.

Lemma evict_clock_spec tm bm :
  pool_inv None bm ->
  BufferManager.free_frames bm = [] ->
  exists r bm', BufferManager._evict_clock tm bm = (r, bm') /\ obtain_post bm r bm'.
Proof.
  intros Hinv Hfull.
  unfold BufferManager._evict_clock, bind at 1, get at 1.
  destruct (inv_hand _ _ _ _ _ _ Hinv) as [Hh|[Hn Hh]].
  - destruct (clock_loop_spec tm (BufferManager.clock_hand bm)
                (S (BufferManager.pool_size bm)) bm Hinv Hfull Hh)
      as (r & bm' & Hloop & Hpost & _).
    { rewrite clock_remaining_start. lia. }
    eauto.
  - exists (Raise IndexError), bm. split; [|split; [done|by split]].
    pose proof (inv_length _ _ _ _ _ _ Hinv) as Hlen.
    rewrite Hn. cbn [BufferManager.clock_loop].
    unfold bind at 1, get at 1. unfold bind at 1, BufferManager.frame_at at 1.
    rewrite Hh. destruct (BufferManager.frames bm) as [|fr fs]; [done|].
    simpl in Hlen. lia.
Qed.

Lemma evict_page_spec tm bm :
  pool_inv None bm ->
  BufferManager.free_frames bm = [] ->
  exists r bm', BufferManager._evict_page tm bm = (r, bm') /\ obtain_post bm r bm'.
Proof.
  intros Hinv Hfull.
  unfold BufferManager._evict_page, bind at 1, get at 1.
  destruct (String.eqb (BufferManager.policy bm) "LRU").
  { exists (Ok None), bm. split; [done|]. by split. }
  destruct (String.eqb (BufferManager.policy bm) "CLOCK").
  - by apply evict_clock_spec.
  - by apply evict_fifo_spec.
Qed.

Lemma obtain_frame_spec tm bm :
  pool_inv None bm ->
  exists r bm', BufferManager.obtain_frame tm bm = (r, bm') /\ obtain_post bm r bm'.
Proof.
  intros Hinv.
  unfold BufferManager.obtain_frame, bind at 1,
    BufferManager._get_free_frame at 1.
  destruct (list_pop (BufferManager.free_frames bm)) as [[i rest]|] eqn:Hpop.
  - apply list_pop_Some in Hpop.
    exists (Ok (Some i)), (BufferManager.set_free_frames rest bm).
    split; [done|]. split; [done|].
    unfold pool_inv in *. simpl. apply frames_inv_pop. by rewrite <- Hpop.
  - apply list_pop_None in Hpop. by apply evict_page_spec.
Qed.

(** A miss: whatever the disk answers, the pool is consistent afterwards,
    and the call can only raise when the pool has no frame. *)
Lemma load_page_inv tm pid bm :
  pool_inv None bm ->
  BufferManager.page_table bm !! pid = None ->
  exists r bm',
    BufferManager._load_page_from_disk tm pid bm = (r, bm') /\
    pool_inv None bm' /\ same_config bm bm' /\
    match r with Ok _ => True | Raise _ => BufferManager.pool_size bm = 0%nat end.
Proof.
  intros Hinv Hmiss.
  destruct (obtain_frame_spec tm bm Hinv)
    as (r1 & bm1 & Hob & [Hcfg Hshrink] & Hpost).
  unfold BufferManager._load_page_from_disk, bind at 1. rewrite Hob.
  destruct r1 as [[i|]|e].
  2:{ exists (Ok None), bm1. split; [done|]. by split. }
  2:{ exists (Raise e), bm1. destruct Hpost. split; [done|]. by split. }
  unfold bind at 1, BufferManager.with_disk at 1.
  destruct (DiskManager.read_page (read_time tm) pid (BufferManager.disk bm1))
    as [rp d'] eqn:Hread.
  pose proof (read_page_result (read_time tm) pid (BufferManager.disk bm1)) as Hres.
  rewrite Hread in Hres. simpl in Hres.
  set (bm2 := BufferManager.set_disk d' bm1).
  assert (Hinv2 : pool_inv (Some i) bm2) by exact Hpost.
  destruct Hres as [-> | (p & -> & Hp)].
  - (* the read failed: the frame goes back to the free list *)
    destruct (frames_inv_push _ _ _ _ _ _ Hinv2) as [Hnotin Hinv3].
    unfold bind at 1, modify at 1.
    rewrite bool_decide_eq_false_2 by exact Hnotin.
    eexists (Ok None), _. split; [reflexivity|]. split; [exact Hinv3|].
    split; [exact Hcfg|done].
  - (* the page is installed *)
    destruct (inv_held _ _ _ _ _ _ Hinv2 i eq_refl) as (fr & Hfr & _).
    unfold bind at 1, BufferManager.frame_at at 1. rewrite Hfr.
    unfold bind at 1, get at 1.
    unfold bind at 1, BufferManager.update_frame, modify at 1.
    unfold bind at 1, modify at 1.
    eexists (Ok (Some p)), _. split; [reflexivity|].
    split; [|split; [exact Hcfg|done]].
    unfold pool_inv. simpl.
    apply frames_inv_install; [exact Hinv2| by apply Hshrink | exact Hp].
Qed.

Lemma get_page_inv tm pid bm :
  pool_inv None bm ->
  exists r bm',
    BufferManager.get_page tm pid bm = (r, bm') /\
    pool_inv None bm' /\ same_config bm bm' /\
    match r with Ok _ => True | Raise _ => BufferManager.pool_size bm = 0%nat end.
Proof.
  intros Hinv.
  unfold BufferManager.get_page, bind at 1, modify at 1.
  set (bm1 := BufferManager.set_access_counter _ bm).
  assert (Hinv1 : pool_inv None bm1) by exact Hinv.
  unfold bind at 1, get at 1.
  destruct (BufferManager.page_table bm1 !! pid) as [i|] eqn:Hpt.
  - (* hit *)
    pose proof Hpt as Hpt'.
    apply (inv_table _ _ _ _ _ _ Hinv1) in Hpt' as (fr & Hfr & _).
    unfold bind at 1, BufferManager.frame_at at 1. rewrite Hfr.
    unfold bind at 1, BufferManager.update_frame, modify at 1.
    unfold bind at 1, modify at 1.
    eexists (Ok _), _. split; [reflexivity|]. split; [|by split].
    unfold pool_inv. simpl.
    apply frames_inv_keeps_page; [apply keeps_page_touch|exact Hinv].
  - (* miss *)
    unfold bind at 1, modify at 1.
    set (bm2 := BufferManager.set_misses _ bm1).
    assert (Hinv2 : pool_inv None bm2) by exact Hinv.
    destruct (load_page_inv tm pid bm2 Hinv2 Hpt)
      as (r & bm' & Hload & Hinv' & Hcfg & Hr).
    exists r, bm'. split; [exact Hload|]. split; [exact Hinv'|].
    split; [exact Hcfg|exact Hr].
Qed.

Lemma init_inv dm n pol : pool_inv None (BufferManager.init dm n pol).
Proof. unfold pool_inv. simpl. apply frames_inv_init. Qed.

Lemma get_pages_inv calls bm :
  pool_inv None bm ->
  pool_inv None (BufferManager.get_pages calls bm) /\
  same_config bm (BufferManager.get_pages calls bm).
Proof.
  revert bm. induction calls as [|[tm pid] calls IH]; intros bm Hinv; [done|].
  simpl.
  destruct (get_page_inv tm pid bm Hinv) as (r & bm' & -> & Hinv' & [Hs Hp] & _).
  destruct (IH bm' Hinv') as (Hinv'' & Hs' & Hp').
  split; [exact Hinv''|]. split; simpl; congruence.
Qed.



(** ** Misses whose disk read fails *)



(** ** FIFO *)

(** C4 (as amended): in a pool reached by [get_page] calls under the FIFO
    policy, the eviction victim is the occupied frame with the lowest slot
    index (frame 0 when all frames are occupied), whatever the order in
    which the occupants were installed: its page leaves the page table, the
    frame is cleared and the eviction is counted. *)
Theorem fifo_evicts_lowest_index (calls : list (io_times * Z))
    (dm : DiskManager.t) (pool_size : nat) (tm : io_times)
    (i : nat) (fr : BufferFrame.t) :
  let bm := BufferManager.get_pages calls
              (BufferManager.init dm pool_size "FIFO") in
  BufferManager.frames bm !! i = Some fr ->
  BufferFrame.is_free fr = false ->
  (forall j y, (j < i)%nat -> BufferManager.frames bm !! j = Some y ->
               BufferFrame.is_free y = true) ->
  exists p bm',
    BufferFrame.page_id fr = Some p /\
    BufferManager._evict_page tm bm = (Ok (Some i), bm') /\
    BufferManager.page_table bm' = delete p (BufferManager.page_table bm) /\
    BufferManager.frames bm'
      = alter BufferFrame.clear i (BufferManager.frames bm) /\
    BufferManager.evictions bm' = BufferManager.evictions bm + 1.
Proof.
  intros bm Hfr Hocc Hfirst.
  destruct (get_pages_inv calls _ (init_inv dm pool_size "FIFO"))
    as (Hinv & _ & Hpol).
  fold bm in Hinv, Hpol. simpl in Hpol.
  destruct (evict_fifo_first tm bm i fr Hinv Hfr Hocc Hfirst)
    as (p & bm' & Hp & Hev & Hbm' & _).
  exists p, bm'. split; [exact Hp|]. split.
  - unfold BufferManager._evict_page, bind at 1, get at 1.
    rewrite Hpol. exact Hev.
  - by rewrite Hbm'.
Qed.

Lemma fifo_evicts_lowest_index_witness :
  exists p bm',
    BufferFrame.page_id
      (default (BufferFrame.init 0) (BufferManager.frames fifo_pool_01 !! 0%nat))
      = Some p /\
    BufferManager._evict_page tm0 fifo_pool_01 = (Ok (Some 0%nat), bm') /\
    BufferManager.page_table bm'
      = delete p (BufferManager.page_table fifo_pool_01) /\
    BufferManager.frames bm'
      = alter BufferFrame.clear 0%nat (BufferManager.frames fifo_pool_01) /\
    BufferManager.evictions bm' = BufferManager.evictions fifo_pool_01 + 1.
Proof.
  apply (fifo_evicts_lowest_index [(tm0, 0); (tm0, 1)] disk4 2 tm0 0).
  - vm_compute. reflexivity.
  - vm_compute. reflexivity.
  - intros j y Hj. lia.
Defined.

(** C4 (counterexample): a pool of two frames under FIFO, pages 0 and 1
    requested in that order.  Page 0 is installed first (in frame 1, the
    last of the free list) and page 1 second (in frame 0).  With all frames
    occupied, the eviction takes frame 0: it removes page 1, the occupant
    installed last, and keeps page 0. *)
Lemma fifo_not_insertion_order :
  residents (BufferManager.get_pages [(tm0, 0)]
               (BufferManager.init disk4 2 "FIFO")) = [None; Some 0] /\
  residents fifo_pool_01 = [Some 1; Some 0] /\
  BufferManager.free_frames fifo_pool_01 = [] /\
  (BufferManager._evict_page tm0 fifo_pool_01).1 = Ok (Some 0%nat) /\
  residents (BufferManager._evict_page tm0 fifo_pool_01).2 = [None; Some 0] /\
  ~ victim_is_earliest_installed tm0 fifo_pool_01.
Proof.
  repeat split; try (vm_compute; reflexivity).
  intros (v & fr & Hv & Hfr & Hmin).
  assert (Hv0 : v = 0%nat).
  { vm_compute in Hv. by injection Hv. }
  subst v. vm_compute in Hfr. injection Hfr as <-.
  specialize (Hmin 1%nat
    (default (BufferFrame.init 0) (BufferManager.frames fifo_pool_01 !! 1%nat))).
  assert (Hle : 2 <= 1); [|lia].
  apply Hmin; vm_compute; reflexivity.
Qed.

(** ** LRU *)

(** The LRU eviction as it stands selects nothing and changes nothing. *)
Lemma evict_lru_selects_nothing (bm : BufferManager.t) :
  BufferManager._evict_lru bm = (Ok None, bm).
Proof. reflexivity. Qed.

(** C5 (evaluation at the failing input): one frame, LRU, pages 0, 1, 2 on
    disk, requests 0, 1, 0, 2.  The second request finds the pool full, the
    LRU eviction selects no victim, and the request fails with page 0 still
    resident, although page 1 is on disk; so the third request is a hit:
    the outcomes are miss, miss, hit, miss, and nothing is ever evicted. *)
Theorem lru_single_frame_outcomes :
  outcomes [(tm0, 0); (tm0, 1); (tm0, 0); (tm0, 2)] lru_pool1
    = [Miss; Miss; Hit; Miss] /\
  (BufferManager.get_page tm0 1
     (BufferManager.get_pages [(tm0, 0)] lru_pool1)).1 = Ok None /\
  (exists p, (DiskManager.read_page (read_time tm0) 1 disk4).1 = Ok (Some p)) /\
  residents (BufferManager.get_pages [(tm0, 0); (tm0, 1)] lru_pool1)
    = [Some 0] /\
  BufferManager.evictions
    (BufferManager.get_pages [(tm0, 0); (tm0, 1); (tm0, 0); (tm0, 2)] lru_pool1)
    = 0.
Proof.
  split; [vm_compute; reflexivity|].
  split; [vm_compute; reflexivity|].
  split; [eexists; vm_compute; reflexivity|].
  split; vm_compute; reflexivity.
Qed.

(** ** CLOCK *)

(** C3 (evaluation at the failing input): three frames, all occupied, all
    reference bits set, hand at frame 0.  The eviction clears the three
    bits in one revolution of the hand and then stops with [None]: no frame
    is evicted, and [get_page] of a new page fails.  Only a second
    invocation evicts frame 0, where the hand started. *)
Theorem clock_all_referenced_no_victim :
  residents clock_pool_referenced = [Some 2; Some 1; Some 0] /\
  map BufferFrame.clock_bit (BufferManager.frames clock_pool_referenced)
    = [true; true; true] /\
  BufferManager.clock_hand clock_pool_referenced = 0%nat /\
  BufferManager._evict_clock tm0 clock_pool_referenced
    = (Ok None,
       BufferManager.set_frames
         (map (BufferFrame.set_clock_bit false)
            (BufferManager.frames clock_pool_referenced))
         clock_pool_referenced) /\
  (BufferManager.get_page tm0 3 clock_pool_referenced).1 = Ok None /\
  (BufferManager._evict_clock tm0
     (BufferManager._evict_clock tm0 clock_pool_referenced).2).1
    = Ok (Some 0%nat).
Proof.
  split; [vm_compute; reflexivity|].
  split; [vm_compute; reflexivity|].
  split; [vm_compute; reflexivity|].
  split; [vm_compute; reflexivity|].
  split; vm_compute; reflexivity.
Qed.

(** ** The hit path *)

(** A hit, in any state in which the page table points at an existing
    frame: the frame's [last_accessed] becomes the incremented access
    counter, its clock bit is set, the hit is counted, the cached page is
    returned, and the disk manager is left untouched (no read is logged). *)
Lemma get_page_hit_spec (tm : io_times) (page_id : Z) (bm : BufferManager.t)
    (i : nat) (fr : BufferFrame.t) :
  BufferManager.page_table bm !! page_id = Some i ->
  BufferManager.frames bm !! i = Some fr ->
  exists bm',
    BufferManager.get_page tm page_id bm = (Ok (BufferFrame.page fr), bm') /\
    BufferManager.access_counter bm' = BufferManager.access_counter bm + 1 /\
    BufferManager.frames bm'
      = alter (BufferFrame.touch (BufferManager.access_counter bm + 1)) i
          (BufferManager.frames bm) /\
    (exists fr', BufferManager.frames bm' !! i = Some fr' /\
                 BufferFrame.last_accessed fr' = BufferManager.access_counter bm' /\
                 BufferFrame.clock_bit fr' = true /\
                 BufferFrame.page fr' = BufferFrame.page fr) /\
    BufferManager.hits bm' = BufferManager.hits bm + 1 /\
    BufferManager.misses bm' = BufferManager.misses bm /\
    BufferManager.page_table bm' = BufferManager.page_table bm /\
    BufferManager.disk bm' = BufferManager.disk bm.
Proof.
  intros Hpt Hfr. eexists. split.
  - unfold BufferManager.get_page, bind at 1, modify at 1.
    unfold bind at 1, get at 1.
    change (BufferManager.page_table (BufferManager.set_access_counter _ bm))
      with (BufferManager.page_table bm).
    rewrite Hpt.
    unfold bind at 1, BufferManager.frame_at at 1.
    change (BufferManager.frames (BufferManager.set_access_counter _ bm))
      with (BufferManager.frames bm).
    rewrite Hfr.
    unfold bind at 1, BufferManager.update_frame, modify at 1.
    unfold bind at 1, modify at 1. reflexivity.
  - cbn [BufferManager.access_counter BufferManager.frames BufferManager.hits
         BufferManager.misses BufferManager.page_table BufferManager.disk
         BufferManager.set_hits BufferManager.set_frames
         BufferManager.set_access_counter].
    split; [reflexivity|]. split; [reflexivity|]. split.
    + exists (BufferFrame.touch (BufferManager.access_counter bm + 1) fr).
      split; [by rewrite list_lookup_alter_eq, Hfr|]. by repeat split.
    + by repeat split.
Qed.

(** C7 (evaluation at the failing input): in the pool whose three frames
    are all referenced, requesting page 3 is a miss (the page is not in the
    table), the call returns [None], the disk manager is exactly as before
    (no read or write was even attempted), and yet the reference bit of
    every frame has been changed.  The hit path is therefore not the only
    one that changes recency metadata without touching the disk. *)
Theorem clock_miss_changes_recency_without_disk :
  BufferManager.page_table clock_pool_referenced !! 3 = None /\
  (BufferManager.get_page tm0 3 clock_pool_referenced).1 = Ok None /\
  BufferManager.disk (BufferManager.get_page tm0 3 clock_pool_referenced).2
    = BufferManager.disk clock_pool_referenced /\
  recency clock_pool_referenced = [(6, true); (5, true); (4, true)] /\
  recency (BufferManager.get_page tm0 3 clock_pool_referenced).2
    = [(6, false); (5, false); (4, false)].
Proof.
  split; [vm_compute; reflexivity|].
  split; [vm_compute; reflexivity|].
  split; [vm_compute; reflexivity|].
  split; vm_compute; reflexivity.
Qed.

(** ** Tenant-aware eviction *)

(** The tenant-aware eviction as it stands never selects a victim: it only
    refreshes the activity flags. *)
Lemma evict_user_aware_selects_nothing (now : Z)
    (bm : UserAwareBufferManager.t) :
  UserAwareBufferManager._evict_user_aware_lru now bm
  = (Ok None, (UserAwareBufferManager._update_active_status now bm).2).
Proof. reflexivity. Qed.

(** C8 (evaluation at the failing input): both frames are occupied, frame 1
    by a page of alice, who is inactive at 401 s, frame 0 by a page of bob,
    who is active.  The policy of the docstring designates frame 1 and only
    frame 1.  The eviction returns [None] and evicts nothing, and bob's
    request for a new page fails. *)
Theorem tenant_eviction_selects_no_victim :
  let bm := (UserAwareBufferManager._update_active_status (seconds 401)
               tenant_pool_full).2 in
  UserAwareBufferManager.free_frames tenant_pool_full = [] /\
  tenants bm = [(Some "bob", true); (Some "alice", false)] /\
  UserAwareBufferManager.is_policy_victim bm 1 = true /\
  UserAwareBufferManager.is_policy_victim bm 0 = false /\
  UserAwareBufferManager._evict_user_aware_lru (seconds 401) tenant_pool_full
    = (Ok None, bm) /\
  UserAwareBufferManager.evictions bm = 0 /\
  (UserAwareBufferManager.get_llm_page (seconds 401) 3 "bob"
     RECENT_CONVERSATION tenant_pool_full).1 = Ok None.
Proof.
  intros bm. unfold bm.
  split; [vm_compute; reflexivity|].
  split; [vm_compute; reflexivity|].
  split; [vm_compute; reflexivity|].
  split; [vm_compute; reflexivity|].
  split; [vm_compute; reflexivity|].
  split; vm_compute; reflexivity.
Qed.

(** ** Page codec *)

Lemma Order_to_bytes_length (o : Order.t) (data : list byte) :
  Order.to_bytes o = Ok data -> length data = Order.RECORD_SIZE.
Proof.
  unfold Order.to_bytes.
  destruct (Order.price_cents o) as [cents|]; cbv [mbind result_bind]; [|done].
  intros H. apply struct_pack_inv in H as (_ & Hlen & _). exact Hlen.
Qed.

Lemma Order_encodings_length (os : list Order.t) (bss : list (list byte)) :
  Order_encodings os = Ok bss ->
  length bss = length os /\
  Forall (fun b => length b = Order.RECORD_SIZE) bss /\
  length (concat bss) = (Order.RECORD_SIZE * length os)%nat.
Proof.
  revert bss. induction os as [|o os IH]; intros bss; simpl.
  - intros [= <-]. split; [done|]. split; [constructor|].
    reflexivity.
  - destruct (Order.to_bytes o) as [b|] eqn:Eb; cbv [mbind result_bind]; [|done].
    destruct (Order_encodings os) as [bs|]; [|done].
    intros [= <-]. destruct (IH bs eq_refl) as (Hl & Hall & Hc).
    apply Order_to_bytes_length in Eb.
    split; [cbn [length]; lia|]. split; [by constructor|].
    cbn [concat length]. rewrite length_app, Eb, Hc.
    unfold Order.RECORD_SIZE. lia.
Qed.

(** The record loop of [DiskPage.to_bytes], started at slot [i] on a buffer
    whose first [i] slots are [done_]: the records are laid out one after
    the other, each over the next 32 bytes of the rest of the buffer or
    past its end. *)
Lemma write_orders_layout (os : list Order.t) (i : nat)
    (done_ rest : list byte) :
  length done_ = (i * Order.RECORD_SIZE)%nat ->
  DiskPage.write_orders i os (done_ ++ rest) =
  (bss ← Order_encodings os;
   Ok (done_ ++ concat bss ++ drop (Order.RECORD_SIZE * length os) rest)).
Proof.
  revert i done_ rest. induction os as [|o os IH]; intros i done_ rest Hlen.
  - reflexivity.
  - cbn [DiskPage.write_orders Order_encodings].
    destruct (Order.to_bytes o) as [b|] eqn:Eb; cbv [mbind result_bind]; [|done].
    pose proof (Order_to_bytes_length o b Eb) as Hb.
    unfold DiskPage.slice_assign.
    rewrite take_app_length' by done.
    rewrite drop_app_add' by done.
    replace (done_ ++ b ++ drop Order.RECORD_SIZE rest)
      with ((done_ ++ b) ++ drop Order.RECORD_SIZE rest) by by rewrite <- app_assoc.
    rewrite IH by (rewrite length_app, Hlen, Hb; lia).
    destruct (Order_encodings os) as [bs|]; cbv [mbind result_bind]; [|done].
    rewrite drop_drop. rewrite <- !app_assoc.
    cbn [concat length].
    replace (Order.RECORD_SIZE + Order.RECORD_SIZE * length os)%nat
      with (Order.RECORD_SIZE * S (length os))%nat
      by (unfold Order.RECORD_SIZE; lia).
    by rewrite <- app_assoc.
Qed.

Lemma DiskPage_to_bytes_concat (p : DiskPage.t) :
  DiskPage.to_bytes p =
  (bss ← Order_encodings (DiskPage.orders p);
   Ok (concat bss
       ++ replicate
            (DiskPage.PAGE_SIZE - Order.RECORD_SIZE * length (DiskPage.orders p))
            x00)).
Proof.
  unfold DiskPage.to_bytes.
  change (replicate DiskPage.PAGE_SIZE x00)
    with ([] ++ replicate DiskPage.PAGE_SIZE x00).
  rewrite (write_orders_layout (DiskPage.orders p) 0 [] _ eq_refl).
  destruct (Order_encodings (DiskPage.orders p)); cbv [mbind result_bind]; [|done].
  by rewrite drop_replicate.
Qed.

Lemma DiskPage_to_bytes_length (p : DiskPage.t) (data : list byte) :
  DiskPage.to_bytes p = Ok data ->
  length data
  = Nat.max DiskPage.PAGE_SIZE (Order.RECORD_SIZE * length (DiskPage.orders p)).
Proof.
  rewrite DiskPage_to_bytes_concat.
  destruct (Order_encodings (DiskPage.orders p)) as [bss|] eqn:E;
    cbv [mbind result_bind]; [|done].
  intros [= <-]. apply Order_encodings_length in E as (_ & _ & Hc).
  rewrite length_app, length_replicate, Hc.
  unfold DiskPage.PAGE_SIZE, Config.PAGE_SIZE, Order.RECORD_SIZE. lia.
Qed.

(** X1: the bytes of a page are the 32-byte encodings of its records, in
    order, followed by zeros up to [PAGE_SIZE]; the page does not encode
    exactly when one of its records does not.  The result has [PAGE_SIZE]
    bytes for up to 128 records and 32 bytes per record beyond that: a page
    with more records than its capacity is serialised longer than a page. *)
Theorem DiskPage_to_bytes_layout (p : DiskPage.t) :
  DiskPage.to_bytes p =
  (bss ← Order_encodings (DiskPage.orders p);
   Ok (concat bss
       ++ replicate
            (DiskPage.PAGE_SIZE - Order.RECORD_SIZE * length (DiskPage.orders p))
            x00)) /\
  (forall data, DiskPage.to_bytes p = Ok data ->
     length data
     = Nat.max DiskPage.PAGE_SIZE
         (Order.RECORD_SIZE * length (DiskPage.orders p))).
Proof.
  split; [apply DiskPage_to_bytes_concat|].
  intros data. apply DiskPage_to_bytes_length.
Qed.

Lemma DiskPage_to_bytes_layout_witness :
  length
    (match DiskPage.to_bytes page_two_orders with Ok d => d | Raise _ => [] end)
  = Nat.max DiskPage.PAGE_SIZE
      (Order.RECORD_SIZE * length (DiskPage.orders page_two_orders)).
Proof.
  apply (DiskPage_to_bytes_layout page_two_orders). vm_compute. reflexivity.
Defined.

Lemma le_value_zeros (n : nat) : le_value (replicate n x00) = 0.
Proof. induction n as [|n IH]; [done|]. cbn [replicate le_value]. rewrite IH. done. Qed.

Lemma le_value_bound (bs : list byte) :
  0 <= le_value bs < 2 ^ (8 * Z.of_nat (length bs)).
Proof.
  induction bs as [|b bs IH]; [simpl; lia|].
  cbn [le_value length]. pose proof (Z_of_byte_range b).
  replace (8 * Z.of_nat (S (length bs))) with (8 + 8 * Z.of_nat (length bs)) by lia.
  rewrite Z.pow_add_r by lia. change (2 ^ 8) with 256. nia.
Qed.

(** The first word of an encoded record is its id. *)
Lemma Order_to_bytes_id (o : Order.t) (data : list byte) :
  Order.to_bytes o = Ok data -> le_value (take 4 data) = Order.order_id o.
Proof.
  unfold Order.to_bytes.
  destruct (Order.price_cents o) as [cents|]; cbv [mbind result_bind]; [|done].
  cbn [struct_pack].
  destruct (pack_I (Order.order_id o)) as [w|] eqn:Ew; cbv [mbind result_bind]; [|done].
  match goal with |- match ?r with _ => _ end = _ -> _ => destruct r as [ws|] end; [|done].
  intros [= <-]. apply pack_I_inv in Ew as (_ & Hlen & Hval).
  by rewrite take_app_length'.
Qed.

(** A slot that holds the encoding of a record reads as that record, or as
    empty when the record id is 0. *)
Lemma read_slot_encoded (pre rest b : list byte) (i : nat) (o : Order.t) :
  length pre = (i * Order.RECORD_SIZE)%nat ->
  Order.to_bytes o = Ok b ->
  DiskPage.read_slot (pre ++ b ++ rest) i = Order_stored o.
Proof.
  intros Hpre Hb. unfold DiskPage.read_slot, Order_stored.
  pose proof (Order_to_bytes_length o b Hb) as Hlen.
  rewrite drop_app_length' by done.
  rewrite take_app_length' by done.
  rewrite Hb, Hlen. cbn [Nat.leb Order.RECORD_SIZE].
  by rewrite (Order_to_bytes_id o b Hb).
Qed.

(** A slot inside or past the zero padding reads as empty. *)
Lemma read_slot_zeros (pre : list byte) (k i : nat) :
  (length pre <= i * Order.RECORD_SIZE)%nat ->
  DiskPage.read_slot (pre ++ replicate k x00) i = None.
Proof.
  intros Hpre. unfold DiskPage.read_slot.
  rewrite drop_app_ge by done. rewrite drop_replicate, take_replicate.
  destruct (4 <=? length _)%nat eqn:E; [|done].
  rewrite take_replicate, le_value_zeros. done.
Qed.

Lemma omap_read_slots (os : list Order.t) (bss : list (list byte))
    (pre rest : list byte) (i : nat) :
  Order_encodings os = Ok bss ->
  length pre = (i * Order.RECORD_SIZE)%nat ->
  omap (DiskPage.read_slot (pre ++ concat bss ++ rest)) (seq i (length os))
  = omap Order_stored os.
Proof.
  revert bss pre i. induction os as [|o os IH]; intros bss pre i; [done|].
  cbn [Order_encodings].
  destruct (Order.to_bytes o) as [b|] eqn:Eb; cbv [mbind result_bind]; [|done].
  destruct (Order_encodings os) as [bs|] eqn:Ebs; [|done].
  intros [= <-] Hpre.
  cbn [length seq omap list_omap concat]. rewrite <- (app_assoc b).
  rewrite (read_slot_encoded pre _ b i o Hpre Eb).
  replace (pre ++ b ++ concat bs ++ rest) with ((pre ++ b) ++ concat bs ++ rest)
    by by rewrite <- app_assoc.
  rewrite (IH bs (pre ++ b) (S i) eq_refl).
  - done.
  - rewrite length_app, Hpre, (Order_to_bytes_length o b Eb).
    unfold Order.RECORD_SIZE. lia.
Qed.

Lemma omap_all_None {A B} (f : A -> option B) (l : list A) :
  (forall x, x ∈ l -> f x = None) -> omap f l = [].
Proof.
  induction l as [|x l IH]; intros H; [done|].
  cbn [omap list_omap]. rewrite (H x) by apply list_elem_of_here.
  apply IH. intros y Hy. apply H. by apply list_elem_of_further.
Qed.

Lemma DiskPage_slots_roundtrip (p : DiskPage.t) (data : list byte) :
  (length (DiskPage.orders p) <= DiskPage.RECORDS_PER_PAGE)%nat ->
  DiskPage.to_bytes p = Ok data ->
  length data = DiskPage.PAGE_SIZE /\
  omap (DiskPage.read_slot data) (seq 0 DiskPage.RECORDS_PER_PAGE)
  = omap Order_stored (DiskPage.orders p).
Proof.
  intros Hcap Henc.
  pose proof (DiskPage_to_bytes_length p data Henc) as Hlen.
  assert (H32 : (Order.RECORD_SIZE * length (DiskPage.orders p)
                 <= DiskPage.PAGE_SIZE)%nat).
  { revert Hcap. unfold DiskPage.RECORDS_PER_PAGE, DiskPage.PAGE_SIZE,
      Config.PAGE_SIZE, Order.RECORD_SIZE.
    change (4096 / 32)%nat with 128%nat. lia. }
  rewrite Nat.max_l in Hlen by exact H32.
  split; [exact Hlen|].
  rewrite DiskPage_to_bytes_concat in Henc.
  destruct (Order_encodings (DiskPage.orders p)) as [bss|] eqn:Ebss;
    cbv [mbind result_bind] in Henc; [|done].
  assert (Hdata : concat bss
                  ++ replicate (DiskPage.PAGE_SIZE
                                - Order.RECORD_SIZE * length (DiskPage.orders p)) x00
                  = data) by congruence.
  clear Henc.
  replace DiskPage.RECORDS_PER_PAGE
    with (length (DiskPage.orders p)
          + (DiskPage.RECORDS_PER_PAGE - length (DiskPage.orders p)))%nat by lia.
  rewrite seq_app, omap_app, <- Hdata.
  pose proof (omap_read_slots (DiskPage.orders p) bss []
                (replicate (DiskPage.PAGE_SIZE
                            - Order.RECORD_SIZE * length (DiskPage.orders p)) x00)
                0 Ebss eq_refl) as Hslots.
  cbn [app] in Hslots. rewrite Hslots.
  rewrite (omap_all_None (DiskPage.read_slot _)); [by rewrite app_nil_r|].
  intros i Hi. apply elem_of_seq in Hi.
  apply read_slot_zeros.
  apply Order_encodings_length in Ebss as (_ & _ & ->).
  unfold Order.RECORD_SIZE. lia.
Qed.

(** X2: page round trip.  A page with at most 128 records that encodes is
    decoded, under any page id, into the page of that id holding, in the
    same order, what each record's slot decodes to: the decoding of the
    record's 32 bytes, and nothing for a record whose id is 0, whose slot
    reads as empty. *)
Theorem DiskPage_roundtrip (page_id : Z) (p : DiskPage.t) (data : list byte) :
  (length (DiskPage.orders p) <= DiskPage.RECORDS_PER_PAGE)%nat ->
  DiskPage.to_bytes p = Ok data ->
  DiskPage.from_bytes page_id data
  = Ok {| DiskPage.page_id := page_id;
          DiskPage.orders := omap Order_stored (DiskPage.orders p) |}.
Proof.
  intros Hcap Henc.
  destruct (DiskPage_slots_roundtrip p data Hcap Henc) as [Hlen Hslots].
  unfold DiskPage.from_bytes.
  rewrite Hlen, Nat.eqb_refl, Hslots. reflexivity.
Qed.

Lemma DiskPage_roundtrip_witness :
  DiskPage.from_bytes 9
    (match DiskPage.to_bytes page_two_orders with Ok d => d | Raise _ => [] end)
  = Ok {| DiskPage.page_id := 9;
          DiskPage.orders := omap Order_stored (DiskPage.orders page_two_orders) |}.
Proof.
  apply (DiskPage_roundtrip 9 page_two_orders).
  - vm_compute. lia.
  - vm_compute. reflexivity.
Defined.

Lemma length_omap_le {A B} (f : A -> option B) (l : list A) :
  (length (omap f l) <= length l)%nat.
Proof.
  induction l as [|x l IH]; [done|].
  cbn [omap list_omap length]. destruct (f x); cbn [length]; lia.
Qed.

Lemma unpack_words_u32 (count : nat) (data : list byte) :
  Forall u32 (unpack_words count data).
Proof.
  revert data. induction count as [|count IH]; intros data; [constructor|].
  cbn [unpack_words]. constructor; [|apply IH].
  pose proof (le_value_bound (take 4 data)) as Hb.
  assert (Hl : (length (take 4 data) <= 4)%nat) by (rewrite length_take; lia).
  unfold u32. split; [lia|].
  eapply Z.lt_le_trans; [apply Hb|].
  apply Z.pow_le_mono_r; lia.
Qed.

Lemma nth_u32 (k : nat) (fields : list Z) :
  Forall u32 fields -> u32 (nth k fields 0).
Proof.
  intros H. revert k. induction H as [|x l Hx _ IH]; intros [|k]; simpl;
    try done; unfold u32; lia.
Qed.

(** What a successful record decoding returns: six unsigned 32-bit integer
    fields, the id being the first word of the buffer. *)
Lemma Order_from_bytes_fields (data : list byte) (o : Order.t) :
  Order.from_bytes data = Ok o ->
  int_fields_u32 o /\ Order.order_id o = le_value (take 4 data).
Proof.
  intros H.
  destruct (Nat.lt_ge_cases (length data) Order.RECORD_SIZE) as [Hlt|Hge].
  { by rewrite Order_from_bytes_short in H. }
  rewrite Order_from_bytes_long in H by done. injection H as <-.
  pose proof (unpack_words_u32 8 (take Order.RECORD_SIZE data)) as Hall.
  split.
  - unfold int_fields_u32, Order.of_fields. cbn [Order.order_id
      Order.customer_id Order.product_id Order.quantity Order.order_date
      Order.region].
    repeat split; apply nth_u32, Hall.
  - cbn [Order.of_fields Order.order_id unpack_words nth].
    by rewrite take_take.
Qed.

(** X3: [DiskPage.from_bytes] raises exactly when the buffer is not
    [PAGE_SIZE] bytes long (the skipping of corrupted records is never
    needed: every slot of such a buffer is a full record).  The page it
    returns carries the given id, holds at most 128 records, and each of
    them has a non-zero id and six unsigned 32-bit integer fields. *)
Theorem DiskPage_from_bytes_spec (page_id : Z) (data : list byte) :
  ((exists e, DiskPage.from_bytes page_id data = Raise e) <->
   length data <> DiskPage.PAGE_SIZE) /\
  (forall p, DiskPage.from_bytes page_id data = Ok p ->
     DiskPage.page_id p = page_id /\
     (length (DiskPage.orders p) <= DiskPage.RECORDS_PER_PAGE)%nat /\
     Forall (fun o => Order.order_id o <> 0 /\ int_fields_u32 o)
       (DiskPage.orders p)).
Proof.
  unfold DiskPage.from_bytes.
  destruct (length data =? DiskPage.PAGE_SIZE)%nat eqn:E.
  - apply Nat.eqb_eq in E. split.
    + split; [by intros [e He]|done].
    + intros p Hp.
      assert (Hp' : p = {| DiskPage.page_id := page_id;
                           DiskPage.orders :=
                             omap (DiskPage.read_slot data)
                               (seq 0 DiskPage.RECORDS_PER_PAGE) |})
        by congruence.
      subst p. clear Hp. cbn [DiskPage.page_id DiskPage.orders].
      split; [reflexivity|]. split.
      * etransitivity; [apply length_omap_le|]. by rewrite length_seq.
      * apply Forall_forall. intros o Ho.
        apply list_elem_of_omap in Ho as (i & _ & Hslot).
        unfold DiskPage.read_slot in Hslot.
        destruct (4 <=? _)%nat; [|done].
        destruct (le_value _ =? 0) eqn:Eid; [done|].
        apply Z.eqb_neq in Eid.
        destruct (Order.from_bytes _) as [o'|] eqn:Eo; [|done].
        injection Hslot as ->.
        apply Order_from_bytes_fields in Eo as [Hf Hid].
        split; [congruence|exact Hf].
  - apply Nat.eqb_neq in E. split; [|done].
    split; [done|]. intros _. by eexists.
Qed.

Lemma DiskPage_from_bytes_spec_witness :
  DiskPage.page_id
    (match DiskPage.from_bytes 5 (replicate 4096 x01) with
     | Ok p => p | Raise _ => DiskPage.mk 0 [] end) = 5 /\
  (exists e, DiskPage.from_bytes 5 (replicate 4095 x01) = Raise e).
Proof.
  split.
  - apply (DiskPage_from_bytes_spec 5 (replicate 4096 x01)).
    vm_compute. reflexivity.
  - apply (DiskPage_from_bytes_spec 5 (replicate 4095 x01)).
    vm_compute. lia.
Defined.

(** ** Filling a page *)

Lemma add_order_orders (o : Order.t) (p : DiskPage.t) :
  DiskPage.page_id (DiskPage.add_order o p).2 = DiskPage.page_id p /\
  DiskPage.orders (DiskPage.add_order o p).2
  = DiskPage.orders p
    ++ take (DiskPage.RECORDS_PER_PAGE - length (DiskPage.orders p)) [o].
Proof.
  unfold DiskPage.add_order.
  destruct (DiskPage.RECORDS_PER_PAGE <=? length (DiskPage.orders p))%nat eqn:E.
  - apply Nat.leb_le in E. cbn [snd]. split; [done|].
    replace (DiskPage.RECORDS_PER_PAGE - length (DiskPage.orders p))%nat
      with 0%nat by lia.
    by rewrite take_0, app_nil_r.
  - apply Nat.leb_gt in E. cbn [snd DiskPage.page_id DiskPage.orders].
    split; [done|]. rewrite take_ge; [done|]. cbn [length]. lia.
Qed.

(** X4: adding records one by one to a page with [add_order] keeps the
    page id and appends exactly as many of them as still fit: the records
    beyond the capacity of 128 are dropped, and the page never holds more
    than 128 records if it did not before. *)
Theorem add_orders_capacity (os : list Order.t) (p : DiskPage.t) :
  DiskPage.page_id (add_orders os p) = DiskPage.page_id p /\
  DiskPage.orders (add_orders os p)
  = DiskPage.orders p
    ++ take (DiskPage.RECORDS_PER_PAGE - length (DiskPage.orders p)) os /\
  ((length (DiskPage.orders p) <= DiskPage.RECORDS_PER_PAGE)%nat ->
   (length (DiskPage.orders (add_orders os p)) <= DiskPage.RECORDS_PER_PAGE)%nat) /\
  (DiskPage.is_full (add_orders os p) = true <->
   (DiskPage.RECORDS_PER_PAGE
    <= length (DiskPage.orders p) + length os)%nat).
Proof.
  assert (H : DiskPage.page_id (add_orders os p) = DiskPage.page_id p /\
    DiskPage.orders (add_orders os p)
    = DiskPage.orders p
      ++ take (DiskPage.RECORDS_PER_PAGE - length (DiskPage.orders p)) os).
  { revert p. induction os as [|o os IH]; intros p.
    - cbn. by rewrite take_nil, app_nil_r.
    - unfold add_orders. cbn [fold_left]. fold (add_orders os (DiskPage.add_order o p).2).
      destruct (IH (DiskPage.add_order o p).2) as [Hid Hos].
      destruct (add_order_orders o p) as [Hid1 Hos1].
      rewrite Hid, Hid1, Hos, Hos1. split; [done|].
      rewrite <- app_assoc. f_equal. rewrite length_app.
      destruct (DiskPage.RECORDS_PER_PAGE - length (DiskPage.orders p))%nat
        as [|k] eqn:Ek.
      + rewrite !take_0. cbn [length app].
        replace (DiskPage.RECORDS_PER_PAGE - (length (DiskPage.orders p) + 0))%nat
          with 0%nat by lia.
        by rewrite take_0.
      + cbn [take length app]. rewrite take_nil. cbn [length app].
        f_equal. f_equal. lia. }
  destruct H as [Hid Hos]. split; [exact Hid|]. split; [exact Hos|].
  split.
  - intros Hcap. rewrite Hos, length_app, length_take. lia.
  - unfold DiskPage.is_full. rewrite Nat.leb_le, Hos, length_app, length_take. lia.
Qed.

Lemma add_orders_capacity_witness :
  (length (DiskPage.orders
             (add_orders (replicate 130 order_half) (DiskPage.mk 3 [])))
   <= DiskPage.RECORDS_PER_PAGE)%nat.
Proof.
  apply (add_orders_capacity (replicate 130 order_half) (DiskPage.mk 3 [])).
  vm_compute. lia.
Defined.

(** ** Reading and writing pages of the file *)

Lemma page_size_pos : Z.of_nat DiskPage.PAGE_SIZE = 4096.
Proof. reflexivity. Qed.

Lemma take_drop_length {A} (l : list A) (a n : nat) :
  length (take n (drop a l)) = n <-> (a + n <= length l)%nat \/ n = 0%nat.
Proof. rewrite length_take, length_drop. lia. Qed.

Lemma read_page_disk_page (read_time : Q) (page_id : Z) (dm : DiskManager.t) :
  (DiskManager.read_page read_time page_id dm).1 = Ok (disk_page dm page_id) /\
  DiskManager.file (DiskManager.read_page read_time page_id dm).2
    = DiskManager.file dm /\
  DiskManager.io_log (DiskManager.read_page read_time page_id dm).2
    = DiskManager.io_log dm ++ [DiskRead page_id] /\
  (disk_page dm page_id = None <->
   DiskManager.file dm = None \/ page_id < 0 \/
   Z.of_nat (length (file_content dm))
   < (page_id + 1) * Z.of_nat DiskPage.PAGE_SIZE).
Proof.
  unfold DiskManager.read_page, disk_page, file_content.
  cbn [DiskManager.file DiskManager.log].
  destruct (DiskManager.file dm) as [content|] eqn:Ef.
  2:{ cbn [fst snd DiskManager.file DiskManager.io_log DiskManager.log].
      rewrite Ef. repeat split; auto. }
  rewrite page_size_pos.
  destruct (page_id <? 0) eqn:Eneg.
  { apply Z.ltb_lt in Eneg.
    destruct (0 <=? page_id) eqn:E0; [apply Z.leb_le in E0; lia|].
    cbn [andb fst snd DiskManager.file DiskManager.io_log DiskManager.log].
    rewrite Ef. repeat split; auto. }
  apply Z.ltb_ge in Eneg.
  destruct (0 <=? page_id) eqn:E0; [|apply Z.leb_gt in E0; lia].
  cbn [andb].
  replace (Z.to_nat (page_id * 4096)) with (Z.to_nat page_id * DiskPage.PAGE_SIZE)%nat
    by (change DiskPage.PAGE_SIZE with 4096%nat; lia).
  destruct (length _ =? DiskPage.PAGE_SIZE)%nat eqn:El.
  - apply Nat.eqb_eq in El.
    assert (Hfit : (page_id + 1) * 4096 <= Z.of_nat (length content)).
    { apply take_drop_length in El as [El|El]; [|done].
      revert El. change DiskPage.PAGE_SIZE with 4096%nat. lia. }
    destruct (_ <=? Z.of_nat (length content)) eqn:Efit;
      [|apply Z.leb_gt in Efit; lia].
    unfold DiskPage.from_bytes. rewrite El, Nat.eqb_refl.
    cbn [fst snd DiskManager.file DiskManager.io_log DiskManager.log
         DiskManager.record_read].
    rewrite Ef. repeat split; try done. intros [|[|]]; [done|lia|lia].
  - apply Nat.eqb_neq in El.
    assert (Hshort : Z.of_nat (length content) < (page_id + 1) * 4096).
    { destruct (Z.lt_ge_cases (Z.of_nat (length content)) ((page_id + 1) * 4096))
        as [|Hge]; [done|].
      exfalso. apply El. apply take_drop_length. left.
      change DiskPage.PAGE_SIZE with 4096%nat. lia. }
    destruct (_ <=? Z.of_nat (length content)) eqn:Efit;
      [apply Z.leb_le in Efit; lia|].
    cbn [fst snd DiskManager.file DiskManager.io_log DiskManager.log].
    rewrite Ef. repeat split; auto.
Qed.

Lemma DiskPage_from_bytes_orders (page_id : Z) (data : list byte)
    (p : DiskPage.t) :
  DiskPage.from_bytes page_id data = Ok p ->
  DiskPage.orders p
  = omap (DiskPage.read_slot data) (seq 0 DiskPage.RECORDS_PER_PAGE).
Proof.
  unfold DiskPage.from_bytes.
  destruct (length data =? DiskPage.PAGE_SIZE)%nat; [|done].
  intros H.
  assert (Hp : p = {| DiskPage.page_id := page_id;
                      DiskPage.orders :=
                        omap (DiskPage.read_slot data)
                          (seq 0 DiskPage.RECORDS_PER_PAGE) |}) by congruence.
  by rewrite Hp.
Qed.

(** The state of the disk manager after a [write_page] that gets as far as
    writing: the file is extended with zeros to the end of the page, then
    the bytes of the page replace those at its offset. *)
Lemma write_page_ok (write_time : Q) (page : DiskPage.t) (dm : DiskManager.t)
    (data : list byte) :
  0 <= DiskPage.page_id page ->
  DiskPage.to_bytes page = Ok data ->
  let off := (Z.to_nat (DiskPage.page_id page) * DiskPage.PAGE_SIZE)%nat in
  let ext := extended_content dm (DiskPage.page_id page) in
  DiskManager.write_page write_time page dm =
  (Ok true,
   DiskManager.record_write write_time
     (DiskManager.set_file (take off ext ++ data ++ drop (off + length data) ext)
        (DiskManager.log (DiskWrite (DiskPage.page_id page)) dm))).
Proof.
  intros Hpid Henc off ext.
  unfold DiskManager.write_page.
  cbn [DiskManager.file DiskManager.log].
  rewrite page_size_pos.
  assert (Hoff : Z.to_nat (DiskPage.page_id page * 4096) = off).
  { unfold off. change DiskPage.PAGE_SIZE with 4096%nat. lia. }
  destruct (DiskPage.page_id page <? 0) eqn:Eneg; [apply Z.ltb_lt in Eneg; lia|].
  destruct (_ <? (DiskPage.page_id page + 1) * 4096) eqn:Eext.
  - cbn [DiskManager.file DiskManager.set_file]. rewrite Henc, Hoff.
    unfold ext, extended_content, file_content. rewrite page_size_pos.
    destruct (DiskManager.file dm); reflexivity.
  - apply Z.ltb_ge in Eext.
    destruct (DiskManager.file dm) as [content|] eqn:Ef; [|lia].
    cbn [DiskManager.file DiskManager.log]. rewrite Ef, Henc, Hoff.
    unfold ext, extended_content, file_content. rewrite Ef, page_size_pos.
    replace (Z.to_nat _) with 0%nat by lia.
    cbn [replicate]. rewrite app_nil_r. reflexivity.
Qed.

Lemma extended_content_length (dm : DiskManager.t) (page_id : Z) :
  0 <= page_id ->
  length (extended_content dm page_id)
  = Nat.max (length (file_content dm))
      ((Z.to_nat page_id + 1) * DiskPage.PAGE_SIZE).
Proof.
  intros Hpid. unfold extended_content.
  rewrite length_app, length_replicate, page_size_pos.
  change DiskPage.PAGE_SIZE with 4096%nat. lia.
Qed.

(** Bytes of an aligned block other than the one that is overwritten. *)
Lemma splice_other_block {A} (l data : list A) (off n a : nat) :
  length data = n ->
  (off + n <= length l)%nat ->
  (a + n <= off \/ off + n <= a)%nat ->
  take n (drop a (take off l ++ data ++ drop (off + n) l)) = take n (drop a l).
Proof.
  intros Hdata Hl [Hlt|Hge].
  - rewrite drop_app_le by (rewrite length_take; lia).
    rewrite take_app_le by (rewrite length_drop, length_take; lia).
    rewrite !take_drop_commute, take_take. f_equal. f_equal. lia.
  - rewrite drop_app_ge by (rewrite length_take; lia).
    rewrite length_take, Nat.min_l by lia.
    rewrite drop_app_ge by lia.
    rewrite drop_drop. do 2 f_equal. lia.
Qed.

Lemma splice_same_block {A} (l data : list A) (off n : nat) :
  length data = n ->
  (off + n <= length l)%nat ->
  take n (drop off (take off l ++ data ++ drop (off + n) l)) = data /\
  length (take off l ++ data ++ drop (off + n) l) = length l.
Proof.
  intros Hdata Hl. split.
  - rewrite drop_app_length' by (rewrite length_take; lia).
    by rewrite take_app_length'.
  - rewrite !length_app, length_take, length_drop. lia.
Qed.

Lemma write_page_true_inv (write_time : Q) (page : DiskPage.t)
    (dm dm' : DiskManager.t) :
  DiskManager.write_page write_time page dm = (Ok true, dm') ->
  0 <= DiskPage.page_id page /\ exists data, DiskPage.to_bytes page = Ok data.
Proof.
  unfold DiskManager.write_page.
  destruct (_ <? _);
    (destruct (DiskManager.file _) as [content|]; [|done]);
    (destruct (DiskPage.page_id page <? 0) eqn:Eneg; [done|]);
    apply Z.ltb_ge in Eneg;
    (destruct (DiskPage.to_bytes page) as [data|]; [|done]);
    intros _; eauto.
Qed.

Lemma disk_page_block (dm : DiskManager.t) (q : Z) (n : nat) :
  DiskManager.file dm <> None ->
  0 <= q -> n = Z.to_nat q ->
  ((n + 1) * DiskPage.PAGE_SIZE <= length (file_content dm))%nat ->
  disk_page dm q
  = Some {| DiskPage.page_id := q;
            DiskPage.orders :=
              omap (DiskPage.read_slot
                      (take DiskPage.PAGE_SIZE
                         (drop (n * DiskPage.PAGE_SIZE) (file_content dm))))
                (seq 0 DiskPage.RECORDS_PER_PAGE) |}.
Proof.
  intros Hf Hq -> Hfit. unfold disk_page, file_content in *.
  destruct (DiskManager.file dm) as [content|]; [|done].
  rewrite page_size_pos.
  destruct (0 <=? q) eqn:E0; [|apply Z.leb_gt in E0; lia].
  destruct (_ <=? Z.of_nat (length content)) eqn:E1; [done|].
  apply Z.leb_gt in E1. revert Hfit. change DiskPage.PAGE_SIZE with 4096%nat. lia.
Qed.

Lemma disk_page_Some_inv (dm : DiskManager.t) (q : Z) (pg : DiskPage.t) :
  disk_page dm q = Some pg ->
  DiskManager.file dm <> None /\ 0 <= q /\
  ((Z.to_nat q + 1) * DiskPage.PAGE_SIZE <= length (file_content dm))%nat.
Proof.
  unfold disk_page, file_content.
  destruct (DiskManager.file dm) as [content|]; [|done].
  rewrite page_size_pos.
  destruct (0 <=? q) eqn:E0; [|done].
  destruct (_ <=? Z.of_nat (length content)) eqn:E1; [|done].
  apply Z.leb_le in E0, E1. intros _. split; [done|]. split; [done|].
  change DiskPage.PAGE_SIZE with 4096%nat. lia.
Qed.

(** X6: a page with at most 128 records that [write_page] reports written
    is what [read_page] returns for its id afterwards, as the page codec
    hands it back (records with id 0 dropped, prices in whole cents). *)
Theorem write_then_read (write_time read_time : Q) (page : DiskPage.t)
    (dm dm' : DiskManager.t) :
  (length (DiskPage.orders page) <= DiskPage.RECORDS_PER_PAGE)%nat ->
  DiskManager.write_page write_time page dm = (Ok true, dm') ->
  (DiskManager.read_page read_time (DiskPage.page_id page) dm').1
  = Ok (Some (DiskPage_stored page)).
Proof.
  intros Hcap Hw.
  destruct (write_page_true_inv _ _ _ _ Hw) as (Hpid & data & Henc).
  rewrite (write_page_ok write_time page dm data Hpid Henc) in Hw.
  injection Hw as <-.
  destruct (DiskPage_slots_roundtrip page data Hcap Henc) as [Hlen Hslots].
  destruct (read_page_disk_page read_time (DiskPage.page_id page)
    (DiskManager.record_write write_time
       (DiskManager.set_file
          (take (Z.to_nat (DiskPage.page_id page) * DiskPage.PAGE_SIZE)
             (extended_content dm (DiskPage.page_id page)) ++
           data ++
           drop (Z.to_nat (DiskPage.page_id page) * DiskPage.PAGE_SIZE + length data)
             (extended_content dm (DiskPage.page_id page)))
          (DiskManager.log (DiskWrite (DiskPage.page_id page)) dm))))
    as (-> & _).
  f_equal.
  pose proof (extended_content_length dm _ Hpid) as Hext.
  destruct (splice_same_block (extended_content dm (DiskPage.page_id page)) data
              (Z.to_nat (DiskPage.page_id page) * DiskPage.PAGE_SIZE)
              DiskPage.PAGE_SIZE Hlen) as [Hblock Hlen'].
  { rewrite Hext. lia. }
  rewrite Hlen.
  set (dm1 := DiskManager.record_write _ _).
  assert (Hfc : file_content dm1
                = take (Z.to_nat (DiskPage.page_id page) * DiskPage.PAGE_SIZE)
                    (extended_content dm (DiskPage.page_id page))
                  ++ data
                  ++ drop (Z.to_nat (DiskPage.page_id page) * DiskPage.PAGE_SIZE
                           + DiskPage.PAGE_SIZE)
                       (extended_content dm (DiskPage.page_id page)))
    by reflexivity.
  assert (Hf1 : DiskManager.file dm1 <> None) by (intros H; discriminate H).
  assert (Hfit1 : ((Z.to_nat (DiskPage.page_id page) + 1) * DiskPage.PAGE_SIZE
                   <= length (file_content dm1))%nat).
  { rewrite Hfc, Hlen', Hext. lia. }
  rewrite (disk_page_block dm1 _ (Z.to_nat (DiskPage.page_id page))
             Hf1 Hpid eq_refl Hfit1).
  rewrite Hfc, Hblock, Hslots. reflexivity.
Qed.

Lemma write_then_read_witness :
  (DiskManager.read_page (1 # 1000) 2
     (DiskManager.write_page (1 # 500) page_one_order empty_disk).2).1
  = Ok (Some (DiskPage_stored page_one_order)).
Proof.
  apply (write_then_read (1 # 500) (1 # 1000) page_one_order empty_disk).
  - vm_compute. lia.
  - vm_compute. reflexivity.
Defined.

(** X7: a successful [write_page] of a page with at most 128 records
    leaves every other page that could be read before exactly as it was.
    The file afterwards reaches at least the end of the written page, and
    the pages that lie between the old end of the file and the written
    page read as empty pages, not as absent ones. *)
Theorem write_preserves_other_pages (write_time : Q) (page : DiskPage.t)
    (dm dm' : DiskManager.t) (q : Z) :
  (length (DiskPage.orders page) <= DiskPage.RECORDS_PER_PAGE)%nat ->
  DiskManager.write_page write_time page dm = (Ok true, dm') ->
  q <> DiskPage.page_id page ->
  (forall pg, disk_page dm q = Some pg -> disk_page dm' q = Some pg) /\
  length (file_content dm')
  = Nat.max (length (file_content dm))
      ((Z.to_nat (DiskPage.page_id page) + 1) * DiskPage.PAGE_SIZE) /\
  (0 <= q < DiskPage.page_id page ->
   (length (file_content dm) <= Z.to_nat q * DiskPage.PAGE_SIZE)%nat ->
   disk_page dm' q = Some {| DiskPage.page_id := q; DiskPage.orders := [] |}).
Proof.
  intros Hcap Hw Hq.
  destruct (write_page_true_inv _ _ _ _ Hw) as (Hpid & data & Henc).
  rewrite (write_page_ok write_time page dm data Hpid Henc) in Hw.
  injection Hw as <-.
  destruct (DiskPage_slots_roundtrip page data Hcap Henc) as [Hlen _].
  pose proof (extended_content_length dm _ Hpid) as Hext.
  set (off := (Z.to_nat (DiskPage.page_id page) * DiskPage.PAGE_SIZE)%nat) in *.
  set (ext := extended_content dm (DiskPage.page_id page)) in *.
  destruct (splice_same_block ext data off DiskPage.PAGE_SIZE Hlen)
    as [_ Hlen'].
  { rewrite Hext. unfold off. lia. }
  set (dm1 := DiskManager.record_write _ _).
  assert (Hfc : file_content dm1 = take off ext ++ data ++ drop (off + length data) ext)
    by reflexivity.
  assert (Hf1 : DiskManager.file dm1 <> None) by (intros H; discriminate H).
  assert (Hother : forall n, Z.to_nat q = n -> 0 <= q ->
            ((n + 1) * DiskPage.PAGE_SIZE <= length ext)%nat ->
            take DiskPage.PAGE_SIZE (drop (n * DiskPage.PAGE_SIZE) (file_content dm1))
            = take DiskPage.PAGE_SIZE (drop (n * DiskPage.PAGE_SIZE) ext)).
  { intros n Hn Hq0 Hfit. rewrite Hfc, Hlen.
    apply splice_other_block; [done| rewrite Hext; unfold off; lia |].
    unfold off. change DiskPage.PAGE_SIZE with 4096%nat.
    destruct (Z.lt_ge_cases q (DiskPage.page_id page)); [left|right]; lia. }
  split; [|split].
  - intros pg Hpg.
    destruct (disk_page_Some_inv dm q pg Hpg) as (Hf & Hq0 & Hfit).
    rewrite (disk_page_block dm q (Z.to_nat q) Hf Hq0 eq_refl Hfit) in Hpg.
    assert (Hfit1 : ((Z.to_nat q + 1) * DiskPage.PAGE_SIZE
                     <= length (file_content dm1))%nat).
    { rewrite Hfc, Hlen, Hlen', Hext. lia. }
    rewrite (disk_page_block dm1 q (Z.to_nat q) Hf1 Hq0 eq_refl Hfit1).
    rewrite (Hother (Z.to_nat q) eq_refl Hq0) by (rewrite Hext; lia).
    unfold ext, extended_content.
    rewrite drop_app_le by lia.
    rewrite take_app_le by (rewrite length_drop; lia).
    exact Hpg.
  - rewrite Hfc, Hlen, Hlen', Hext. reflexivity.
  - intros [Hq0 Hqlt] Hhole.
    assert (Hfit : ((Z.to_nat q + 1) * DiskPage.PAGE_SIZE <= length ext)%nat).
    { rewrite Hext. change DiskPage.PAGE_SIZE with 4096%nat. lia. }
    assert (Hfit1 : ((Z.to_nat q + 1) * DiskPage.PAGE_SIZE
                     <= length (file_content dm1))%nat).
    { rewrite Hfc, Hlen, Hlen'. exact Hfit. }
    rewrite (disk_page_block dm1 q (Z.to_nat q) Hf1 Hq0 eq_refl Hfit1).
    rewrite (Hother (Z.to_nat q) eq_refl Hq0 Hfit).
    unfold ext, extended_content.
    rewrite drop_app_ge by done. rewrite drop_replicate, take_replicate.
    do 2 f_equal. apply omap_all_None. intros i _.
    apply (read_slot_zeros [] _ i). cbn [length]. lia.
Qed.

Lemma write_preserves_other_pages_witness :
  disk_page (DiskManager.write_page (1 # 500) page_one_order empty_disk).2 1
  = Some {| DiskPage.page_id := 1; DiskPage.orders := [] |}.
Proof.
  apply (write_preserves_other_pages (1 # 500) page_one_order empty_disk
           (DiskManager.write_page (1 # 500) page_one_order empty_disk).2 1).
  - vm_compute. lia.
  - vm_compute. reflexivity.
  - vm_compute. discriminate.
  - vm_compute. split; [discriminate|reflexivity].
  - vm_compute. lia.
Defined.



(** ** What obtaining a frame leaves alone *)

Lemma evict_rel_refl bm : evict_rel bm bm.
Proof. repeat split; try done; try lia. intros j fr' H. eauto. Qed.

Lemma evict_rel_trans bm1 bm2 bm3 :
  evict_rel bm1 bm2 -> evict_rel bm2 bm3 -> evict_rel bm1 bm3.
Proof.
  intros (Hd & Hh & Hm & Ha & He & Hf) (Hd' & Hh' & Hm' & Ha' & He' & Hf').
  repeat split; try congruence; try lia.
  intros j fr3 H3. destruct (Hf' j fr3 H3) as (fr2 & H2 & Hp2).
  destruct (Hf j fr2 H2) as (fr1 & H1 & Hp1).
  exists fr1. split; [done|]. destruct Hp2 as [Hp2 | Hp2]; [rewrite Hp2; exact Hp1 | by right].
Qed.

Lemma evict_rel_alter bm f i :
  (forall fr, BufferFrame.page (f fr) = BufferFrame.page fr \/
              BufferFrame.page (f fr) = None) ->
  evict_rel bm (BufferManager.set_frames (alter f i (BufferManager.frames bm)) bm).
Proof.
  intros Hf. repeat split; try done; try (simpl; lia).
  intros j fr' H. simpl in H. apply lookup_alter_inv in H as (fr & Hfr & ->).
  exists fr. split; [done|]. destruct (decide (i = j)); [apply Hf|by left].
Qed.

Lemma evict_rel_cleared bm i p :
  evict_rel bm
    (BufferManager.set_evictions (BufferManager.evictions bm + 1)
       (BufferManager.set_frames
          (alter BufferFrame.clear i (BufferManager.frames bm))
          (BufferManager.set_page_table
             (delete p (BufferManager.page_table bm)) bm))).
Proof.
  repeat split; try done; try (simpl; lia).
  intros j fr' H. simpl in H. apply lookup_alter_inv in H as (fr & Hfr & ->).
  exists fr. split; [done|]. destruct (decide (i = j)); [by right|by left].
Qed.

Lemma clock_loop_rel tm start fuel bm :
  pool_inv None bm ->
  BufferManager.free_frames bm = [] ->
  (start < BufferManager.pool_size bm)%nat ->
  (clock_remaining (BufferManager.pool_size bm) start (BufferManager.clock_hand bm)
   <= fuel)%nat ->
  evict_rel bm (BufferManager.clock_loop tm start fuel bm).2.
Proof.
  revert bm. induction fuel as [|fuel IH]; intros bm Hinv Hfull Hstart Hfuel.
  { apply evict_rel_refl. }
  assert (Hh : (BufferManager.clock_hand bm < BufferManager.pool_size bm)%nat).
  { destruct (inv_hand _ _ _ _ _ _ Hinv) as [|[? _]]; lia. }
  assert (Hn : (0 < BufferManager.pool_size bm)%nat) by lia.
  destruct (lookup_lt_is_Some_2 (BufferManager.frames bm) (BufferManager.clock_hand bm))
    as [frame Hframe].
  { by rewrite (inv_length _ _ _ _ _ _ Hinv). }
  assert (Hocc : BufferFrame.is_free frame = false).
  { destruct (BufferFrame.is_free frame) eqn:E; [|done].
    assert (Hin : BufferManager.clock_hand bm ∈ BufferManager.free_frames bm).
    { apply (inv_free _ _ _ _ _ _ Hinv). exists frame.
      unfold BufferFrame.is_free in E.
      destruct (BufferFrame.page frame); [done|]. by repeat split. }
    rewrite Hfull in Hin. by apply elem_of_nil in Hin. }
  set (bm1 := BufferManager.set_clock_hand
                ((BufferManager.clock_hand bm + 1) mod BufferManager.pool_size bm)%nat bm).
  assert (Hinv1 : pool_inv None bm1).
  { unfold pool_inv, bm1. simpl. by apply frames_inv_hand. }
  assert (Hrel1 : evict_rel bm bm1).
  { repeat split; try done; try (simpl; lia). intros j fr' H. eauto. }
  cbn [BufferManager.clock_loop].
  unfold bind at 1. unfold get at 1.
  unfold bind at 1. unfold BufferManager.frame_at at 1. rewrite Hframe.
  unfold bind at 1.
  destruct (BufferManager.pool_size bm =? 0)%nat eqn:E0.
  { apply Nat.eqb_eq in E0. lia. }
  unfold modify at 1. fold bm1. rewrite Hocc.
  destruct (BufferFrame.clock_bit frame) eqn:Ebit.
  - unfold bind at 1. unfold BufferManager.update_frame, modify at 1.
    set (bm2 := BufferManager.set_frames _ bm1).
    assert (Hinv2 : pool_inv None bm2).
    { unfold pool_inv, bm2. simpl.
      apply frames_inv_keeps_page; [apply keeps_page_set_clock_bit|exact Hinv1]. }
    assert (Hrel2 : evict_rel bm bm2).
    { apply (evict_rel_trans _ bm1); [exact Hrel1|].
      apply evict_rel_alter. intros fr. by left. }
    unfold bind at 1. unfold get at 1.
    change (BufferManager.clock_hand bm2)
      with ((BufferManager.clock_hand bm + 1) mod BufferManager.pool_size bm)%nat.
    destruct (_ =? start)%nat eqn:Eh; [exact Hrel2|].
    apply Nat.eqb_neq in Eh.
    apply (evict_rel_trans _ bm2); [exact Hrel2|].
    apply IH; try done.
    pose proof (clock_remaining_step _ _ _ Hh Hstart Eh) as Hstep.
    change (BufferManager.pool_size bm2) with (BufferManager.pool_size bm).
    change (BufferManager.clock_hand bm2)
      with ((BufferManager.clock_hand bm + 1) mod BufferManager.pool_size bm)%nat.
    lia.
  - assert (Hframe1 : BufferManager.frames bm1 !! BufferManager.clock_hand bm = Some frame)
      by done.
    destruct (write_back_inv tm bm1 _ frame Hinv1 Hframe1 Hocc)
      as (p & bm' & Hp & Hwb & Hbm' & Hinv').
    rewrite (inv_ids _ _ _ _ _ _ Hinv _ _ Hframe).
    unfold bind at 1. cbn [negb]. cbv beta iota. rewrite Hwb. unfold ret.
    cbn [snd]. apply (evict_rel_trans _ bm1); [exact Hrel1|].
    rewrite Hbm'. apply evict_rel_cleared.
Qed.

Lemma evict_page_rel tm bm :
  pool_inv None bm ->
  BufferManager.free_frames bm = [] ->
  evict_rel bm (BufferManager._evict_page tm bm).2.
Proof.
  intros Hinv Hfull.
  unfold BufferManager._evict_page, bind at 1, get at 1.
  destruct (String.eqb (BufferManager.policy bm) "LRU").
  { apply evict_rel_refl. }
  destruct (String.eqb (BufferManager.policy bm) "CLOCK").
  - unfold BufferManager._evict_clock, bind at 1, get at 1.
    destruct (inv_hand _ _ _ _ _ _ Hinv) as [Hh|[Hn Hh]].
    + apply clock_loop_rel; try done. rewrite clock_remaining_start. lia.
    + pose proof (inv_length _ _ _ _ _ _ Hinv) as Hlen.
      rewrite Hn. cbn [BufferManager.clock_loop].
      unfold bind at 1, get at 1. unfold bind at 1, BufferManager.frame_at at 1.
      rewrite Hh. destruct (BufferManager.frames bm) as [|fr fs]; [|simpl in Hlen; lia].
      apply evict_rel_refl.
  - destruct (List.find (fun fr => negb (BufferFrame.is_free fr))
                (BufferManager.frames bm)) as [fr|] eqn:Hfind.
    + apply find_some_lookup in Hfind as (i & Hfr & Hocc & Hfirst).
      apply negb_true_iff in Hocc.
      destruct (evict_fifo_first tm bm i fr Hinv Hfr Hocc)
        as (p & bm' & Hp & Hev & -> & Hinv').
      { intros j y Hj Hy. specialize (Hfirst j y Hj Hy).
        by apply negb_false_iff in Hfirst. }
      rewrite Hev. apply evict_rel_cleared.
    + unfold BufferManager._evict_fifo, bind, get. rewrite Hfind.
      apply evict_rel_refl.
Qed.

Lemma obtain_frame_rel tm bm :
  pool_inv None bm ->
  evict_rel bm (BufferManager.obtain_frame tm bm).2.
Proof.
  intros Hinv.
  unfold BufferManager.obtain_frame, bind at 1,
    BufferManager._get_free_frame at 1.
  destruct (list_pop (BufferManager.free_frames bm)) as [[i rest]|] eqn:Hpop.
  - cbn [snd ret]. repeat split; try done; try (simpl; lia).
    intros j fr' H. eauto.
  - apply list_pop_None in Hpop. by apply evict_page_rel.
Qed.

(** ** The outcomes of [get_page] *)

Lemma get_page_miss_eq tm pid bm :
  BufferManager.page_table bm !! pid = None ->
  BufferManager.get_page tm pid bm
  = BufferManager._load_page_from_disk tm pid (miss_state bm).
Proof.
  intros Hmiss.
  unfold BufferManager.get_page, bind at 1, modify at 1.
  unfold bind at 1, get at 1.
  change (BufferManager.page_table (BufferManager.set_access_counter _ bm))
    with (BufferManager.page_table bm).
  rewrite Hmiss. unfold bind at 1, modify at 1. reflexivity.
Qed.

Lemma get_page_hit_eq tm pid bm i fr :
  BufferManager.page_table bm !! pid = Some i ->
  BufferManager.frames bm !! i = Some fr ->
  BufferManager.get_page tm pid bm = (Ok (BufferFrame.page fr), hit_state bm i).
Proof.
  intros Hpt Hfr.
  unfold BufferManager.get_page, bind at 1, modify at 1.
  unfold bind at 1, get at 1.
  change (BufferManager.page_table (BufferManager.set_access_counter _ bm))
    with (BufferManager.page_table bm).
  rewrite Hpt.
  unfold bind at 1, BufferManager.frame_at at 1.
  change (BufferManager.frames (BufferManager.set_access_counter _ bm))
    with (BufferManager.frames bm).
  rewrite Hfr.
  unfold bind at 1, BufferManager.update_frame, modify at 1.
  unfold bind at 1, modify at 1. reflexivity.
Qed.

(** The four ways a miss can end, once a frame has or has not been
    obtained. *)
Lemma load_page_cases tm pid bm :
  pool_inv None bm ->
  exists r1 bm1,
    BufferManager.obtain_frame tm bm = (r1, bm1) /\
    obtain_post bm r1 bm1 /\ evict_rel bm bm1 /\
    match r1 with
    | Raise e => BufferManager._load_page_from_disk tm pid bm = (Raise e, bm1)
    | Ok None => BufferManager._load_page_from_disk tm pid bm = (Ok None, bm1)
    | Ok (Some i) =>
        let d := (DiskManager.read_page (read_time tm) pid
                    (BufferManager.disk bm1)).2 in
        match disk_page (BufferManager.disk bm1) pid with
        | None =>
            BufferManager._load_page_from_disk tm pid bm
            = (Ok None, fail_state bm1 d i)
        | Some p =>
            BufferManager._load_page_from_disk tm pid bm
            = (Ok (Some p), install_state bm1 d i p pid)
        end
    end.
Proof.
  intros Hinv.
  destruct (obtain_frame_spec tm bm Hinv) as (r1 & bm1 & Hob & Hpost).
  pose proof (obtain_frame_rel tm bm Hinv) as Hrel. rewrite Hob in Hrel.
  exists r1, bm1. split; [exact Hob|]. split; [exact Hpost|]. split; [exact Hrel|].
  destruct r1 as [[i|]|e];
    [|unfold BufferManager._load_page_from_disk, bind at 1; by rewrite Hob..].
  destruct Hpost as [_ Hinv1].
  destruct (read_page_disk_page (read_time tm) pid (BufferManager.disk bm1))
    as (Hres & _).
  cbv zeta.
  destruct (DiskManager.read_page (read_time tm) pid (BufferManager.disk bm1))
    as [rp d] eqn:Hread.
  cbn [fst snd] in *. subst rp.
  assert (Hinv2 : pool_inv (Some i) (BufferManager.set_disk d bm1)) by exact Hinv1.
  destruct (disk_page (BufferManager.disk bm1) pid) as [p|];
    unfold BufferManager._load_page_from_disk, bind at 1; rewrite Hob;
    unfold bind at 1, BufferManager.with_disk at 1; rewrite Hread.
  - destruct (inv_held _ _ _ _ _ _ Hinv2 i eq_refl) as (fr & Hfr & _).
    unfold bind at 1, BufferManager.frame_at at 1. rewrite Hfr.
    unfold bind at 1, get at 1.
    unfold bind at 1, BufferManager.update_frame, modify at 1.
    unfold bind at 1, modify at 1. reflexivity.
  - destruct (frames_inv_push _ _ _ _ _ _ Hinv2) as [Hnotin _].
    unfold bind at 1, modify at 1.
    rewrite bool_decide_eq_false_2 by exact Hnotin. reflexivity.
Qed.

Lemma disk_page_id (dm : DiskManager.t) (pid : Z) (p : DiskPage.t) :
  disk_page dm pid = Some p -> DiskPage.page_id p = pid.
Proof.
  unfold disk_page. destruct (DiskManager.file dm); [|done].
  destruct (_ && _); [|done]. intros H.
  assert (Hp : p = {| DiskPage.page_id := pid;
                      DiskPage.orders := DiskPage.orders p |}).
  { destruct p. cbn. congruence. }
  by rewrite Hp.
Qed.

Lemma disk_page_file (dm dm' : DiskManager.t) (pid : Z) :
  DiskManager.file dm' = DiskManager.file dm ->
  disk_page dm' pid = disk_page dm pid.
Proof. intros H. unfold disk_page. by rewrite H. Qed.

(** ** Coherence of the cache with the file *)

Lemma coherent_evict dm0 bm bm1 :
  coherent dm0 bm -> evict_rel bm bm1 -> coherent dm0 bm1.
Proof.
  intros [Hfile Hpages] (Hd & _ & _ & _ & _ & Hf). split; [by rewrite Hd|].
  intros j fr' p Hfr' Hp. destruct (Hf j fr' Hfr') as (fr & Hfr & [Hpg|Hpg]).
  - apply (Hpages j fr p Hfr). by rewrite <- Hpg.
  - congruence.
Qed.

Lemma get_page_step dm0 tm pid bm :
  pool_inv None bm -> coherent dm0 bm ->
  get_page_post dm0 pid bm (BufferManager.get_page tm pid bm).1
    (BufferManager.get_page tm pid bm).2.
Proof.
  intros Hinv Hcoh.
  destruct (BufferManager.page_table bm !! pid) as [i|] eqn:Hpt.
  - (* hit *)
    pose proof Hpt as Hpt'.
    apply (inv_table _ _ _ _ _ _ Hinv) in Hpt' as (fr & Hfr & Hpid).
    rewrite (get_page_hit_eq tm pid bm i fr Hpt Hfr). cbn [fst snd].
    assert (Hinv' : pool_inv None (hit_state bm i)).
    { unfold pool_inv, hit_state. simpl.
      apply frames_inv_keeps_page; [apply keeps_page_touch|exact Hinv]. }
    assert (Hfr' : BufferManager.frames (hit_state bm i) !! i
                   = Some (BufferFrame.touch (BufferManager.access_counter bm + 1) fr)).
    { unfold hit_state. simpl. by rewrite list_lookup_alter_eq, Hfr. }
    split; [exact Hinv'|]. split.
    { destruct Hcoh as [Hfile Hpages]. split; [exact Hfile|].
      intros j fr' p Hj Hp. unfold hit_state in Hj. simpl in Hj.
      apply lookup_alter_inv in Hj as (x & Hx & ->).
      apply (Hpages j x p Hx). by destruct (decide (i = j)). }
    split; [by split|]. split; [reflexivity|].
    split; [unfold hit_state; simpl; lia|].
    split; [unfold hit_state; simpl; lia|].
    split; [unfold hit_state; simpl; lia|].
    intros p Hp. injection Hp as Hp.
    pose proof (inv_page _ _ _ _ _ _ Hinv i fr Hfr) as Hpage.
    rewrite Hp in Hpage.
    assert (Hid : DiskPage.page_id p = pid) by congruence.
    destruct Hcoh as [_ Hpages].
    split; [rewrite <- Hid; by apply (Hpages i fr)|].
    exists i, (BufferFrame.touch (BufferManager.access_counter bm + 1) fr).
    by repeat split.
  - (* miss *)
    rewrite (get_page_miss_eq tm pid bm Hpt).
    assert (Hinv0 : pool_inv None (miss_state bm)) by exact Hinv.
    assert (Hcoh0 : coherent dm0 (miss_state bm)) by exact Hcoh.
    destruct (load_page_cases tm pid (miss_state bm) Hinv0)
      as (r1 & bm1 & Hob & [[Hcfg Hshrink] Hpost] & Hrel & Hcase).
    pose proof (coherent_evict dm0 _ _ Hcoh0 Hrel) as Hcoh1.
    destruct Hrel as (Hd & Hh & Hm & Ha & _ & _).
    unfold miss_state in Hh, Hm, Ha. simpl in Hh, Hm, Ha.
    destruct r1 as [[i|]|e].
    + cbv zeta in Hcase.
      destruct (read_page_disk_page (read_time tm) pid (BufferManager.disk bm1))
        as (_ & Hfile & _).
      set (d := (DiskManager.read_page (read_time tm) pid
                   (BufferManager.disk bm1)).2) in *.
      assert (Hinv2 : pool_inv (Some i) (BufferManager.set_disk d bm1))
        by exact Hpost.
      destruct (disk_page (BufferManager.disk bm1) pid) as [p|] eqn:Hdp;
        rewrite Hcase; cbn [fst snd].
      * assert (Hdp0 : disk_page dm0 pid = Some p).
        { rewrite <- Hdp. symmetry. apply disk_page_file. apply Hcoh1. }
        pose proof (disk_page_id _ _ _ Hdp) as Hid.
        destruct (inv_held _ _ _ _ _ _ Hinv2 i eq_refl) as (fr & Hfr & _).
        simpl in Hfr.
        assert (Hfr' : BufferManager.frames (install_state bm1 d i p pid) !! i
                 = Some (BufferFrame.install p pid
                           (BufferManager.access_counter bm1) fr)).
        { unfold install_state. simpl.
          by rewrite list_lookup_alter_eq, Hfr. }
        split.
        { unfold pool_inv, install_state. simpl.
          apply frames_inv_install; [exact Hinv2| |exact Hid].
          apply Hshrink. exact Hpt. }
        split.
        { destruct Hcoh1 as [Hfile1 Hpages1]. split.
          - unfold install_state. simpl. by rewrite Hfile.
          - intros j fr' q Hj Hq. unfold install_state in Hj. simpl in Hj.
            apply lookup_alter_inv in Hj as (x & Hx & ->).
            destruct (decide (i = j)) as [->|Hne].
            + simpl in Hq. injection Hq as <-. by rewrite Hid.
            + by apply (Hpages1 j x q Hx). }
        split; [exact Hcfg|].
        unfold install_state. simpl.
        split; [lia|]. split; [lia|]. split; [lia|]. split; [lia|].
        intros q Hq. injection Hq as <-. split; [exact Hdp0|].
        exists i, (BufferFrame.install p pid (BufferManager.access_counter bm1) fr).
        split; [by rewrite lookup_insert_eq|]. split; [|done].
        by rewrite list_lookup_alter_eq, Hfr.
      * destruct (frames_inv_push _ _ _ _ _ _ Hinv2) as [_ Hinv3].
        split; [exact Hinv3|]. split.
        { destruct Hcoh1 as [Hfile1 Hpages1]. split; [|exact Hpages1].
          unfold fail_state. simpl. by rewrite Hfile. }
        split; [exact Hcfg|].
        unfold fail_state. simpl.
        split; [lia|]. split; [lia|]. split; [lia|]. split; [lia|]. done.
    + rewrite Hcase. cbn [fst snd].
      split; [exact Hpost|]. split; [exact Hcoh1|]. split; [exact Hcfg|].
      split; [lia|]. split; [lia|]. split; [lia|]. split; [lia|]. done.
    + rewrite Hcase. cbn [fst snd]. destruct Hpost as [Hpost _].
      split; [exact Hpost|]. split; [exact Hcoh1|]. split; [exact Hcfg|].
      split; [lia|]. split; [lia|]. split; [lia|]. split; [lia|]. done.
Qed.

Lemma init_coherent dm n pol : coherent dm (BufferManager.init dm n pol).
Proof.
  split; [done|]. intros j fr p Hj Hp. simpl in Hj.
  rewrite list_lookup_fmap in Hj.
  destruct (seq 0 n !! j); [|done]. injection Hj as <-. done.
Qed.

Lemma get_pages_app calls calls' bm :
  BufferManager.get_pages (calls ++ calls') bm
  = BufferManager.get_pages calls' (BufferManager.get_pages calls bm).
Proof. unfold BufferManager.get_pages. by rewrite fold_left_app. Qed.

Lemma get_pages_step dm0 calls bm :
  pool_inv None bm -> coherent dm0 bm ->
  let bm' := BufferManager.get_pages calls bm in
  pool_inv None bm' /\ coherent dm0 bm' /\ same_config bm bm' /\
  BufferManager.access_counter bm'
  = BufferManager.access_counter bm + Z.of_nat (length calls) /\
  BufferManager.hits bm' + BufferManager.misses bm'
  = BufferManager.hits bm + BufferManager.misses bm + Z.of_nat (length calls) /\
  BufferManager.hits bm <= BufferManager.hits bm' /\
  BufferManager.misses bm <= BufferManager.misses bm'.
Proof.
  revert bm. induction calls as [|[tm pid] calls IH]; intros bm Hinv Hcoh.
  - cbn [BufferManager.get_pages fold_left length].
    split; [exact Hinv|]. split; [exact Hcoh|]. split; [by split|].
    split; [lia|]. split; [lia|]. split; lia.
  - cbn [BufferManager.get_pages fold_left fst snd].
    destruct (get_page_step dm0 tm pid bm Hinv Hcoh)
      as (Hinv' & Hcoh' & [Hs Hp] & Ha & Hhm & Hh & Hm & _).
    destruct (IH _ Hinv' Hcoh')
      as (Hinv'' & Hcoh'' & [Hs' Hp'] & Ha' & Hhm' & Hh' & Hm').
    unfold BufferManager.get_pages in *.
    split; [exact Hinv''|]. split; [exact Hcoh''|].
    split; [split; congruence|].
    cbn [length]. split; [lia|]. split; [lia|]. split; lia.
Qed.

(** X9: the buffer pool only ever returns what is on disk.  After any
    sequence of [get_page] calls on a fresh pool, whatever the policy, a
    page returned by [get_page] is the page stored in the file at the
    requested id; and the calls have not changed the file. *)
Theorem get_page_returns_disk_page (calls : list (io_times * Z))
    (dm : DiskManager.t) (pool_size : nat) (policy : string)
    (tm : io_times) (page_id : Z) (p : DiskPage.t) :
  let bm := BufferManager.get_pages calls
              (BufferManager.init dm pool_size policy) in
  (BufferManager.get_page tm page_id bm).1 = Ok (Some p) ->
  disk_page dm page_id = Some p /\
  DiskPage.page_id p = page_id /\
  DiskManager.file (BufferManager.disk (BufferManager.get_page tm page_id bm).2)
  = DiskManager.file dm.
Proof.
  intros bm Hres.
  destruct (get_pages_step dm calls _ (init_inv dm pool_size policy)
              (init_coherent dm pool_size policy)) as (Hinv & Hcoh & _).
  fold bm in Hinv, Hcoh.
  destruct (get_page_step dm tm page_id bm Hinv Hcoh)
    as (_ & [Hfile _] & _ & _ & _ & _ & _ & Hsome).
  destruct (Hsome p Hres) as [Hdp _].
  split; [exact Hdp|]. split; [by apply disk_page_id in Hdp|exact Hfile].
Qed.

Lemma get_page_returns_disk_page_witness :
  disk_page disk4 1 = Some {| DiskPage.page_id := 1; DiskPage.orders := [] |} /\
  DiskPage.page_id {| DiskPage.page_id := 1; DiskPage.orders := [] |} = 1 /\
  DiskManager.file
    (BufferManager.disk (BufferManager.get_page tm0 1 fifo_pool_01).2)
  = DiskManager.file disk4.
Proof.
  apply (get_page_returns_disk_page [(tm0, 0); (tm0, 1)] disk4 2 "FIFO" tm0 1).
  vm_compute. reflexivity.
Defined.

(** X10: every [get_page] call on a pool reached from a fresh one counts
    as exactly one hit or one miss: after [n] calls the access counter is
    [n] and the hits and the misses add up to [n]. *)
Theorem get_page_counters (calls : list (io_times * Z))
    (dm : DiskManager.t) (pool_size : nat) (policy : string) :
  let bm := BufferManager.get_pages calls
              (BufferManager.init dm pool_size policy) in
  BufferManager.access_counter bm = Z.of_nat (length calls) /\
  BufferManager.hits bm + BufferManager.misses bm = Z.of_nat (length calls) /\
  0 <= BufferManager.hits bm /\ 0 <= BufferManager.misses bm /\
  BufferManager.total_accesses (BufferManager.get_stats bm)
  = Z.of_nat (length calls).
Proof.
  intros bm.
  destruct (get_pages_step dm calls _ (init_inv dm pool_size policy)
              (init_coherent dm pool_size policy))
    as (_ & _ & _ & Ha & Hhm & Hh & Hm).
  fold bm in Ha, Hhm, Hh, Hm. simpl in Ha, Hhm, Hh, Hm.
  unfold BufferManager.get_stats. cbn [BufferManager.total_accesses].
  repeat split; lia.
Qed.

(** X11: a page that [get_page] has just returned is cached: requesting it
    again at once is a hit that returns the same page, counts one more hit
    and no miss, and leaves the disk manager untouched (no read). *)
Theorem get_page_again_is_hit (calls : list (io_times * Z))
    (dm : DiskManager.t) (pool_size : nat) (policy : string)
    (tm tm' : io_times) (page_id : Z) (p : DiskPage.t)
    (bm' : BufferManager.t) :
  let bm := BufferManager.get_pages calls
              (BufferManager.init dm pool_size policy) in
  BufferManager.get_page tm page_id bm = (Ok (Some p), bm') ->
  exists bm'',
    BufferManager.get_page tm' page_id bm' = (Ok (Some p), bm'') /\
    BufferManager.disk bm'' = BufferManager.disk bm' /\
    BufferManager.hits bm'' = BufferManager.hits bm' + 1 /\
    BufferManager.misses bm'' = BufferManager.misses bm' /\
    BufferManager.page_table bm'' = BufferManager.page_table bm'.
Proof.
  intros bm Hres.
  destruct (get_pages_step dm calls _ (init_inv dm pool_size policy)
              (init_coherent dm pool_size policy)) as (Hinv & Hcoh & _).
  fold bm in Hinv, Hcoh.
  pose proof (get_page_step dm tm page_id bm Hinv Hcoh) as Hstep.
  rewrite Hres in Hstep. cbn [fst snd] in Hstep.
  destruct Hstep as (_ & _ & _ & _ & _ & _ & _ & Hsome).
  destruct (Hsome p eq_refl) as (_ & i & fr & Hpt & Hfr & Hp).
  exists (hit_state bm' i). split.
  - rewrite (get_page_hit_eq tm' page_id bm' i fr Hpt Hfr). by rewrite Hp.
  - by repeat split.
Qed.

Lemma get_page_again_is_hit_witness :
  exists bm'',
    BufferManager.get_page tm0 2
      (BufferManager.get_page tm0 2 fifo_pool_01).2
    = (Ok (Some {| DiskPage.page_id := 2; DiskPage.orders := [] |}), bm'') /\
    BufferManager.disk bm''
      = BufferManager.disk (BufferManager.get_page tm0 2 fifo_pool_01).2 /\
    BufferManager.hits bm''
      = BufferManager.hits (BufferManager.get_page tm0 2 fifo_pool_01).2 + 1 /\
    BufferManager.misses bm''
      = BufferManager.misses (BufferManager.get_page tm0 2 fifo_pool_01).2 /\
    BufferManager.page_table bm''
      = BufferManager.page_table (BufferManager.get_page tm0 2 fifo_pool_01).2.
Proof.
  apply (get_page_again_is_hit [(tm0, 0); (tm0, 1)] disk4 2 "FIFO" tm0 tm0 2).
  vm_compute. reflexivity.
Defined.




(** ** FIFO always finds a frame *)





(** ** LRU as it stands *)

Lemma obtain_frame_lru tm bm :
  BufferManager.policy bm = "LRU" ->
  BufferManager.page_table (BufferManager.obtain_frame tm bm).2
    = BufferManager.page_table bm /\
  BufferManager.evictions (BufferManager.obtain_frame tm bm).2
    = BufferManager.evictions bm.
Proof.
  intros Hpol.
  unfold BufferManager.obtain_frame, bind, BufferManager._get_free_frame.
  destruct (list_pop (BufferManager.free_frames bm)) as [[i rest]|];
    [split; reflexivity|].
  unfold BufferManager._evict_page, bind, get.
  rewrite Hpol. split; reflexivity.
Qed.

Lemma lru_step tm pid bm :
  pool_inv None bm ->
  BufferManager.policy bm = "LRU" ->
  BufferManager.evictions (BufferManager.get_page tm pid bm).2
    = BufferManager.evictions bm /\
  forall q i, BufferManager.page_table bm !! q = Some i ->
    BufferManager.page_table (BufferManager.get_page tm pid bm).2 !! q = Some i.
Proof.
  intros Hinv Hpol.
  destruct (BufferManager.page_table bm !! pid) as [i|] eqn:Hpt.
  - pose proof Hpt as Hpt'.
    apply (inv_table _ _ _ _ _ _ Hinv) in Hpt' as (fr & Hfr & _).
    rewrite (get_page_hit_eq tm pid bm i fr Hpt Hfr). by split.
  - rewrite (get_page_miss_eq tm pid bm Hpt).
    assert (Hinv0 : pool_inv None (miss_state bm)) by exact Hinv.
    destruct (load_page_cases tm pid (miss_state bm) Hinv0)
      as (r1 & bm1 & Hob & _ & _ & Hcase).
    destruct (obtain_frame_lru tm (miss_state bm) Hpol) as [Hpt1 Hev1].
    rewrite Hob in Hpt1, Hev1. cbn [snd] in Hpt1, Hev1.
    change (BufferManager.page_table (miss_state bm))
      with (BufferManager.page_table bm) in Hpt1.
    change (BufferManager.evictions (miss_state bm))
      with (BufferManager.evictions bm) in Hev1.
    destruct r1 as [[i|]|e]; cbv zeta in Hcase.
    + destruct (disk_page (BufferManager.disk bm1) pid) as [p|];
        rewrite Hcase; cbn [snd]; unfold install_state, fail_state; simpl;
        (split; [exact Hev1|]); intros q j Hq; rewrite Hpt1; [|exact Hq].
      rewrite lookup_insert_ne; [exact Hq|]. intros ->. congruence.
    + rewrite Hcase. cbn [snd]. split; [exact Hev1|]. intros q j Hq.
      by rewrite Hpt1.
    + rewrite Hcase. cbn [snd]. split; [exact Hev1|]. intros q j Hq.
      by rewrite Hpt1.
Qed.

(** X14: under the LRU policy as it is implemented, no page is ever
    evicted: after any sequence of [get_page] calls on a fresh pool the
    eviction counter is 0, and a page that is resident stays resident, in
    the same frame, through any further calls. *)
Theorem lru_never_evicts (calls calls' : list (io_times * Z))
    (dm : DiskManager.t) (pool_size : nat) (page_id : Z) (i : nat) :
  let bm := BufferManager.get_pages calls
              (BufferManager.init dm pool_size "LRU") in
  BufferManager.evictions bm = 0 /\
  (BufferManager.page_table bm !! page_id = Some i ->
   BufferManager.page_table (BufferManager.get_pages calls' bm) !! page_id
   = Some i).
Proof.
  assert (Hgen : forall cs bm0,
    pool_inv None bm0 -> BufferManager.policy bm0 = "LRU" ->
    BufferManager.evictions (BufferManager.get_pages cs bm0)
      = BufferManager.evictions bm0 /\
    forall q j, BufferManager.page_table bm0 !! q = Some j ->
      BufferManager.page_table (BufferManager.get_pages cs bm0) !! q = Some j).
  { induction cs as [|[tm pid] cs IH]; intros bm0 Hinv Hpol; [by split|].
    cbn [BufferManager.get_pages fold_left fst snd].
    destruct (get_page_inv tm pid bm0 Hinv) as (r & bm1 & Heq & Hinv1 & [_ Hpol1] & _).
    destruct (lru_step tm pid bm0 Hinv Hpol) as [Hev Hres].
    rewrite Heq in Hev, Hres. cbn [snd] in Hev, Hres.
    rewrite Heq. cbn [snd].
    destruct (IH bm1 Hinv1) as [Hev' Hres']; [congruence|].
    unfold BufferManager.get_pages in *. split; [congruence|].
    intros q j Hq. apply Hres', Hres, Hq. }
  intros bm.
  destruct (get_pages_inv calls _ (init_inv dm pool_size "LRU"))
    as (Hinv & _ & Hpol).
  fold bm in Hinv, Hpol. simpl in Hpol.
  split.
  - destruct (Hgen calls (BufferManager.init dm pool_size "LRU")
                (init_inv dm pool_size "LRU") eq_refl) as [Hev _].
    exact Hev.
  - intros Hres. by apply (Hgen calls' bm Hinv Hpol).
Qed.

Lemma lru_never_evicts_witness :
  BufferManager.page_table
    (BufferManager.get_pages [(tm0, 1); (tm0, 2); (tm0, 3)]
       (BufferManager.get_pages [(tm0, 0)] lru_pool1)) !! 0
  = Some 0%nat.
Proof.
  apply (lru_never_evicts [(tm0, 0)] [(tm0, 1); (tm0, 2); (tm0, 3)] disk4 1 0 0).
  vm_compute. reflexivity.
Defined.

(** ** Frames in use and page table entries *)

(** A page table that maps page ids to the indexes, counted from [k], of
    the frames holding them has as many entries as there are occupied
    frames. *)
Lemma page_table_count (fs : list BufferFrame.t) :
  forall (pt : gmap Z nat) (k : nat),
  (forall p i, pt !! p = Some i <->
     (k <= i)%nat /\ exists fr, fs !! (i - k)%nat = Some fr /\
                               BufferFrame.page_id fr = Some p) ->
  (forall fr, fr ∈ fs -> occupied fr <-> is_Some (BufferFrame.page_id fr)) ->
  size pt = length (filter occupied fs).
Proof.
  induction fs as [|fr fs IH]; intros pt k Hpt Hocc.
  - cbn. apply map_size_empty_iff, map_empty. intros p.
    destruct (pt !! p) as [i|] eqn:E; [|done].
    apply Hpt in E as (_ & fr & Hfr & _). done.
  - assert (Htail : forall i, (k < i)%nat ->
              (fr :: fs) !! (i - k)%nat = fs !! (i - S k)%nat).
    { intros i Hi. replace (i - k)%nat with (S (i - S k)) by lia. done. }
    destruct (BufferFrame.page_id fr) as [p|] eqn:Hp.
    + assert (Hk : pt !! p = Some k).
      { apply Hpt. split; [lia|]. exists fr. by rewrite Nat.sub_diag. }
      rewrite filter_cons_True
        by (apply Hocc; [apply list_elem_of_here | by rewrite Hp]).
      cbn [length].
      rewrite <- (IH (delete p pt) (S k)).
      * rewrite map_size_delete, Hk.
        assert (size pt <> 0%nat); [|lia].
        intros H0. apply map_size_empty_iff in H0. by rewrite H0 in Hk.
      * intros q i. rewrite lookup_delete_Some, Hpt. split.
        -- intros (Hne & Hki & fr' & Hfr' & Hq).
           assert (k <> i).
           { intros <-. rewrite Nat.sub_diag in Hfr'. cbn in Hfr'.
             congruence. }
           split; [lia|]. exists fr'. by rewrite <- Htail by lia.
        -- intros (Hki & fr' & Hfr' & Hq).
           rewrite <- Htail in Hfr' by lia.
           split; [|split; [lia|by exists fr']].
           intros <-.
           assert (Hi : pt !! p = Some i).
           { apply Hpt. split; [lia|]. by exists fr'. }
           rewrite Hk in Hi. injection Hi as Hi. lia.
      * intros fr' Hin. apply Hocc. by apply list_elem_of_further.
    + rewrite filter_cons_False.
      2:{ intros Ho. apply Hocc in Ho; [|apply list_elem_of_here].
          rewrite Hp in Ho. by destruct Ho. }
      apply (IH pt (S k)).
      * intros q i. rewrite Hpt. split.
        -- intros (Hki & fr' & Hfr' & Hq).
           assert (k <> i).
           { intros <-. rewrite Nat.sub_diag in Hfr'. cbn in Hfr'.
             congruence. }
           split; [lia|]. exists fr'. by rewrite <- Htail by lia.
        -- intros (Hki & fr' & Hfr' & Hq).
           rewrite <- Htail in Hfr' by lia.
           split; [lia|by exists fr'].
      * intros fr' Hin. apply Hocc. by apply list_elem_of_further.
Qed.

Lemma pool_inv_count held bm :
  pool_inv held bm ->
  (length (BufferManager.free_frames bm) + size (BufferManager.page_table bm)
   + match held with Some _ => 1 | None => 0 end
   = BufferManager.pool_size bm)%nat.
Proof.
  intros Hinv.
  rewrite (page_table_count (BufferManager.frames bm)
             (BufferManager.page_table bm) 0).
  - exact (inv_count _ _ _ _ _ _ Hinv).
  - intros p i. rewrite (inv_table _ _ _ _ _ _ Hinv), Nat.sub_0_r.
    split; [intros H; split; [lia|exact H] | intros [_ H]; exact H].
  - intros fr Hin. apply list_elem_of_lookup in Hin as [i Hi].
    pose proof (inv_page _ _ _ _ _ _ Hinv i fr Hi) as Hpage.
    unfold occupied, BufferFrame.is_free.
    destruct (BufferFrame.page fr); rewrite Hpage; split; try done.
Qed.


(** ** A working set that fits in the pool *)

Lemma list_pop_nonempty {A} (l : list A) :
  l <> [] -> exists x r, list_pop l = Some (x, r).
Proof.
  intros Hl. unfold list_pop.
  destruct (reverse l) as [|x r] eqn:E; [|by eauto].
  apply (f_equal reverse) in E. rewrite reverse_involutive in E. done.
Qed.

(** One request for a page of the set [S], in a pool that has at least as
    many frames as [S] has pages and holds pages of [S] only. *)
Lemma fits_step dm (S : gset Z) tm pid bm :
  pool_inv None bm -> coherent dm bm ->
  dom (BufferManager.page_table bm) ⊆ S ->
  (size S <= BufferManager.pool_size bm)%nat ->
  pid ∈ S ->
  (BufferManager.get_page tm pid bm).1 = Ok (disk_page dm pid) /\
  BufferManager.evictions (BufferManager.get_page tm pid bm).2
    = BufferManager.evictions bm /\
  dom (BufferManager.page_table (BufferManager.get_page tm pid bm).2) ⊆ S /\
  (forall q, is_Some (BufferManager.page_table bm !! q) ->
     is_Some (BufferManager.page_table (BufferManager.get_page tm pid bm).2 !! q)) /\
  (disk_page dm pid <> None ->
     is_Some (BufferManager.page_table (BufferManager.get_page tm pid bm).2 !! pid)) /\
  match BufferManager.page_table bm !! pid with
  | Some _ =>
      BufferManager.disk (BufferManager.get_page tm pid bm).2
        = BufferManager.disk bm /\
      BufferManager.page_table (BufferManager.get_page tm pid bm).2
        = BufferManager.page_table bm /\
      BufferManager.hits (BufferManager.get_page tm pid bm).2
        = BufferManager.hits bm + 1 /\
      BufferManager.misses (BufferManager.get_page tm pid bm).2
        = BufferManager.misses bm
  | None =>
      DiskManager.io_log (BufferManager.disk (BufferManager.get_page tm pid bm).2)
        = DiskManager.io_log (BufferManager.disk bm) ++ [DiskRead pid] /\
      BufferManager.hits (BufferManager.get_page tm pid bm).2
        = BufferManager.hits bm /\
      BufferManager.misses (BufferManager.get_page tm pid bm).2
        = BufferManager.misses bm + 1
  end /\
  (forall q, q <> pid ->
     BufferManager.page_table (BufferManager.get_page tm pid bm).2 !! q
     = BufferManager.page_table bm !! q).
Proof.
  intros Hinv Hcoh Hdom Hsize Hpid.
  destruct (BufferManager.page_table bm !! pid) as [i|] eqn:Hpt.
  - pose proof Hpt as Hpt'.
    apply (inv_table _ _ _ _ _ _ Hinv) in Hpt' as (fr & Hfr & Hfpid).
    pose proof (inv_page _ _ _ _ _ _ Hinv i fr Hfr) as Hpage.
    destruct (BufferFrame.page fr) as [p|] eqn:Hp; [|congruence].
    destruct Hcoh as [_ Hcached].
    pose proof (Hcached i fr p Hfr Hp) as Hdisk.
    assert (DiskPage.page_id p = pid) as Hpp by congruence.
    rewrite Hpp in Hdisk.
    rewrite (get_page_hit_eq tm pid bm i fr Hpt Hfr). cbn [fst snd].
    rewrite Hp, Hdisk.
    split; [done|]. split; [done|]. split; [exact Hdom|].
    split; [intros q Hq; exact Hq|].
    split; [intros _; cbn; by rewrite Hpt|].
    split; [repeat split|]. intros q _. reflexivity.
  - rewrite (get_page_miss_eq tm pid bm Hpt).
    assert (Hinv0 : pool_inv None (miss_state bm)) by exact Hinv.
    assert (Hcoh0 : coherent dm (miss_state bm)) by exact Hcoh.
    pose proof (pool_inv_count None bm Hinv) as Hcount.
    assert (Hlt : (size (BufferManager.page_table bm) < size S)%nat).
    { rewrite <- size_dom. apply subset_size. split; [exact Hdom|].
      intros Hsub. apply Hsub in Hpid. apply elem_of_dom in Hpid.
      rewrite Hpt in Hpid. by destruct Hpid. }
    destruct (list_pop_nonempty (BufferManager.free_frames bm))
      as (i & rest & Hpop).
    { intros Hnil. rewrite Hnil in Hcount. cbn in Hcount. lia. }
    destruct (load_page_cases tm pid (miss_state bm) Hinv0)
      as (r1 & bm1 & Hob & _ & Hrel & Hcase).
    assert (Hob' : BufferManager.obtain_frame tm (miss_state bm)
                   = (Ok (Some i),
                      BufferManager.set_free_frames rest (miss_state bm))).
    { unfold BufferManager.obtain_frame, bind, BufferManager._get_free_frame.
      change (BufferManager.free_frames (miss_state bm))
        with (BufferManager.free_frames bm).
      by rewrite Hpop. }
    rewrite Hob in Hob'. injection Hob' as -> ->.
    destruct (coherent_evict dm _ _ Hcoh0 Hrel) as [Hfile _].
    cbv zeta in Hcase.
    rewrite (disk_page_file dm _ pid Hfile) in Hcase.
    destruct (read_page_disk_page (read_time tm) pid (BufferManager.disk bm))
      as (_ & _ & Hlog & _).
    change (BufferManager.disk
              (BufferManager.set_free_frames rest (miss_state bm)))
      with (BufferManager.disk bm) in Hcase.
    destruct (disk_page dm pid) as [p|] eqn:Hdp; rewrite Hcase; cbn [fst snd].
    + split; [done|]. split; [done|].
      unfold install_state. cbn [BufferManager.page_table
        BufferManager.set_page_table BufferManager.set_frames
        BufferManager.set_disk BufferManager.set_free_frames].
      change (BufferManager.page_table (miss_state bm))
        with (BufferManager.page_table bm).
      split; [|split].
      * rewrite dom_insert. intros q Hq.
        apply elem_of_union in Hq as [Hq|Hq]; [|by apply Hdom].
        apply elem_of_singleton in Hq as ->. exact Hpid.
      * intros q Hq. destruct (decide (q = pid)) as [->|Hne].
        -- rewrite lookup_insert_eq. by eexists.
        -- by rewrite lookup_insert_ne.
      * split; [intros _; rewrite lookup_insert_eq; by eexists|].
        split; [split; [exact Hlog|split; reflexivity]|].
        intros q Hq. by rewrite lookup_insert_ne.
    + split; [done|]. split; [done|].
      split; [exact Hdom|]. split; [intros q Hq; exact Hq|].
      split; [done|].
      split; [split; [exact Hlog|split; reflexivity]|].
      intros q _. reflexivity.
Qed.

Lemma fits_steps dm (S : gset Z) (calls : list (io_times * Z)) :
  forall bm,
  pool_inv None bm -> coherent dm bm ->
  dom (BufferManager.page_table bm) ⊆ S ->
  (size S <= BufferManager.pool_size bm)%nat ->
  (forall c, c ∈ calls -> c.2 ∈ S) ->
  let bm' := BufferManager.get_pages calls bm in
  BufferManager.evictions bm' = BufferManager.evictions bm /\
  dom (BufferManager.page_table bm') ⊆ S /\
  (forall q, is_Some (BufferManager.page_table bm !! q) ->
     is_Some (BufferManager.page_table bm' !! q)) /\
  (forall c, c ∈ calls -> disk_page dm c.2 <> None ->
     is_Some (BufferManager.page_table bm' !! c.2)).
Proof.
  induction calls as [|[tm pid] calls IH]; intros bm Hinv Hcoh Hdom Hsize Hin.
  - cbn. split; [done|]. split; [done|]. split; [done|].
    intros c Hc. by apply elem_of_nil in Hc.
  - cbn [BufferManager.get_pages fold_left fst snd].
    destruct (fits_step dm S tm pid bm Hinv Hcoh Hdom Hsize)
      as (_ & Hev & Hdom1 & Hkeep & Hnew & _).
    { apply (Hin (tm, pid)), list_elem_of_here. }
    destruct (get_page_step dm tm pid bm Hinv Hcoh)
      as (Hinv1 & Hcoh1 & [Hsz1 _] & _).
    set (bm1 := (BufferManager.get_page tm pid bm).2) in *.
    destruct (IH bm1 Hinv1 Hcoh1 Hdom1) as (Hev' & Hdom' & Hkeep' & Hnew').
    { by rewrite Hsz1. }
    { intros c Hc. apply Hin. by apply list_elem_of_further. }
    unfold BufferManager.get_pages in *.
    split; [congruence|]. split; [exact Hdom'|].
    split; [intros q Hq; apply Hkeep', Hkeep, Hq|].
    intros c Hc Hd. apply elem_of_cons in Hc as [->|Hc].
    + apply Hkeep', Hnew, Hd.
    + by apply Hnew'.
Qed.



(** ** Table scans *)

Lemma stored_orders_cons dm q ids :
  stored_orders dm (q :: ids)
  = match disk_page dm q with Some p => DiskPage.orders p | None => [] end
    ++ stored_orders dm ids.
Proof. reflexivity. Qed.


Lemma scan_acc (acc : list Order.t) (page : option DiskPage.t) :
  match page with Some p => acc ++ DiskPage.orders p | None => acc end
  = acc ++ match page with Some p => DiskPage.orders p | None => [] end.
Proof. destruct page; [done|by rewrite app_nil_r]. Qed.



(** A buffered scan over page ids for which every request, in the states
    the scan goes through, returns what the file holds. *)
Lemma buffered_scan_loop dm tm (P : BufferManager.t -> Prop) page_ids :
  (forall bm q, P bm -> q ∈ page_ids ->
     (BufferManager.get_page (tm q) q bm).1 = Ok (disk_page dm q) /\
     P (BufferManager.get_page (tm q) q bm).2) ->
  forall all_orders bm, P bm ->
  BufferedQueryEngine.scan_loop tm page_ids all_orders bm
  = (Ok (all_orders ++ stored_orders dm page_ids),
     BufferManager.get_pages (scan_calls tm page_ids) bm).
Proof.
  induction page_ids as [|q ids IH]; intros Hstep acc bm HP.
  - cbn. unfold stored_orders, ret. cbn. by rewrite app_nil_r.
  - cbn [BufferedQueryEngine.scan_loop]. unfold bind.
    destruct (Hstep bm q HP) as [Hres HP1]; [apply list_elem_of_here|].
    destruct (BufferManager.get_page (tm q) q bm) as [r bm1] eqn:Hget.
    cbn [fst snd] in Hres, HP1. subst r.
    rewrite (IH (fun bm q Hbm Hq =>
                   Hstep bm q Hbm (list_elem_of_further _ _ _ Hq)) _ bm1 HP1).
    rewrite scan_acc, stored_orders_cons, <- !app_assoc.
    unfold scan_calls, BufferManager.get_pages. cbn [map fold_left fst snd].
    by rewrite Hget.
Qed.



(** ** Scanning again *)

Lemma get_pages_cons tm q calls bm :
  BufferManager.get_pages ((tm, q) :: calls) bm
  = BufferManager.get_pages calls (BufferManager.get_page tm q bm).2.
Proof. reflexivity. Qed.

(** Requests for pages of [S] that are not resident, each asked once. *)
Lemma fresh_calls dm (S : gset Z) tm (page_ids : list Z) :
  forall bm,
  pool_inv None bm -> coherent dm bm ->
  dom (BufferManager.page_table bm) ⊆ S ->
  (size S <= BufferManager.pool_size bm)%nat ->
  (forall q, q ∈ page_ids -> q ∈ S) ->
  NoDup page_ids ->
  (forall q, q ∈ page_ids -> BufferManager.page_table bm !! q = None) ->
  let bm' := BufferManager.get_pages (scan_calls tm page_ids) bm in
  DiskManager.io_log (BufferManager.disk bm')
    = DiskManager.io_log (BufferManager.disk bm) ++ map DiskRead page_ids /\
  BufferManager.hits bm' = BufferManager.hits bm /\
  BufferManager.misses bm'
    = BufferManager.misses bm + Z.of_nat (length page_ids).
Proof.
  induction page_ids as [|q ids IH];
    intros bm Hinv Hcoh Hdom Hsize Hin Hnd Hfresh.
  - cbn. rewrite app_nil_r. repeat split; lia.
  - unfold scan_calls. cbn [map]. rewrite get_pages_cons.
    fold (scan_calls tm ids).
    destruct (fits_step dm S (tm q) q bm Hinv Hcoh Hdom Hsize)
      as (_ & _ & Hdom1 & _ & _ & Hcnt & Hother);
      [apply Hin, list_elem_of_here|].
    rewrite (Hfresh q) in Hcnt by apply list_elem_of_here.
    destruct Hcnt as (Hlog & Hh & Hm).
    destruct (get_page_step dm (tm q) q bm Hinv Hcoh)
      as (Hinv1 & Hcoh1 & [Hsz1 _] & _).
    apply NoDup_cons in Hnd as [Hq Hnd].
    destruct (IH (BufferManager.get_page (tm q) q bm).2 Hinv1 Hcoh1 Hdom1)
      as (Hlog' & Hh' & Hm').
    + by rewrite Hsz1.
    + intros q' Hq'. apply Hin. by apply list_elem_of_further.
    + exact Hnd.
    + intros q' Hq'. rewrite Hother by (intros ->; done).
      apply Hfresh. by apply list_elem_of_further.
    + cbv zeta in Hlog', Hh', Hm'.
      rewrite Hlog', Hh', Hm', Hlog, Hh, Hm. cbn [map length].
      rewrite <- app_assoc. repeat split. lia.
Qed.

(** A request for a resident page. *)
Lemma resident_step dm tm pid bm :
  pool_inv None bm -> coherent dm bm ->
  is_Some (BufferManager.page_table bm !! pid) ->
  (BufferManager.get_page tm pid bm).1 = Ok (disk_page dm pid) /\
  BufferManager.evictions (BufferManager.get_page tm pid bm).2
    = BufferManager.evictions bm /\
  BufferManager.disk (BufferManager.get_page tm pid bm).2
    = BufferManager.disk bm /\
  BufferManager.page_table (BufferManager.get_page tm pid bm).2
    = BufferManager.page_table bm /\
  BufferManager.hits (BufferManager.get_page tm pid bm).2
    = BufferManager.hits bm + 1 /\
  BufferManager.misses (BufferManager.get_page tm pid bm).2
    = BufferManager.misses bm.
Proof.
  intros Hinv Hcoh Hres.
  pose proof (pool_inv_count None bm Hinv) as Hcount.
  destruct (fits_step dm (dom (BufferManager.page_table bm)) tm pid bm
              Hinv Hcoh) as (Hr & Hev & _ & _ & _ & Hcnt & _).
  - done.
  - rewrite size_dom. cbv beta iota in Hcount. lia.
  - by apply elem_of_dom.
  - destruct Hres as [i Hi]. rewrite Hi in Hcnt. tauto.
Qed.

Lemma resident_calls dm tm (page_ids : list Z) :
  forall bm,
  pool_inv None bm -> coherent dm bm ->
  (forall q, q ∈ page_ids -> is_Some (BufferManager.page_table bm !! q)) ->
  let bm' := BufferManager.get_pages (scan_calls tm page_ids) bm in
  BufferManager.disk bm' = BufferManager.disk bm /\
  BufferManager.evictions bm' = BufferManager.evictions bm /\
  BufferManager.hits bm'
    = BufferManager.hits bm + Z.of_nat (length page_ids) /\
  BufferManager.misses bm' = BufferManager.misses bm.
Proof.
  induction page_ids as [|q ids IH]; intros bm Hinv Hcoh Hres.
  - cbn. repeat split; lia.
  - unfold scan_calls. cbn [map]. rewrite get_pages_cons.
    fold (scan_calls tm ids).
    destruct (resident_step dm (tm q) q bm Hinv Hcoh)
      as (_ & Hev & Hd & Hpt & Hh & Hm); [apply Hres, list_elem_of_here|].
    destruct (get_page_step dm (tm q) q bm Hinv Hcoh)
      as (Hinv1 & Hcoh1 & _).
    destruct (IH (BufferManager.get_page (tm q) q bm).2 Hinv1 Hcoh1)
      as (Hd' & Hev' & Hh' & Hm').
    + intros q' Hq'. rewrite Hpt. apply Hres. by apply list_elem_of_further.
    + cbv zeta in Hd', Hev', Hh', Hm'.
      rewrite Hd', Hev', Hh', Hm', Hd, Hev, Hh, Hm. cbn [length].
      repeat split. lia.
Qed.

(** X19: a pool with at least as many frames as the table has pages makes
    the second scan free.  On a fresh pool, under any policy, when all
    [num_pages] pages are in the file: the first scan reads each page from
    disk once, in order, and counts one miss per page; the second scan
    returns the same records, counts one hit per page and leaves the disk
    manager as it was (no read, no change of the I/O statistics); nothing
    is evicted. *)
Theorem buffered_rescan_cached (dm : DiskManager.t) (pool_size : nat)
    (policy : string) (tm tm' : Z -> io_times) (num_pages : Z) :
  num_pages <= Z.of_nat pool_size ->
  (forall q, 0 <= q < num_pages -> disk_page dm q <> None) ->
  let s1 := BufferedQueryEngine.full_table_scan tm num_pages
              (BufferManager.init dm pool_size policy) in
  let s2 := BufferedQueryEngine.full_table_scan tm' num_pages s1.2 in
  s1.1 = Ok (stored_orders dm (seqZ 0 num_pages)) /\
  s2.1 = s1.1 /\
  DiskManager.io_log (BufferManager.disk s1.2)
    = DiskManager.io_log dm ++ map DiskRead (seqZ 0 num_pages) /\
  BufferManager.hits s1.2 = 0 /\
  BufferManager.misses s1.2 = Z.max 0 num_pages /\
  BufferManager.disk s2.2 = BufferManager.disk s1.2 /\
  BufferManager.hits s2.2 = Z.max 0 num_pages /\
  BufferManager.misses s2.2 = Z.max 0 num_pages /\
  BufferManager.evictions s2.2 = 0.
Proof.
  intros Hfit Hexist.
  set (ids := seqZ 0 num_pages).
  set (W := list_to_set ids : gset Z).
  set (bm0 := BufferManager.init dm pool_size policy).
  pose proof (init_inv dm pool_size policy) as Hinv0.
  pose proof (init_coherent dm pool_size policy) as Hcoh0.
  fold bm0 in Hinv0, Hcoh0.
  assert (Hlen : length ids = Z.to_nat num_pages) by apply length_seqZ.
  assert (HS : (size W <= pool_size)%nat).
  { unfold W. rewrite size_list_to_set by apply NoDup_seqZ.
    rewrite Hlen. clear -Hfit. lia. }
  assert (HinS : forall q, q ∈ ids -> q ∈ W).
  { intros q Hq. by apply elem_of_list_to_set. }
  assert (Hdom0 : dom (BufferManager.page_table bm0) ⊆ W).
  { cbn. rewrite dom_empty. apply empty_subseteq. }
  (* the first scan *)
  assert (H1 : BufferedQueryEngine.scan_loop tm ids [] bm0
               = (Ok (stored_orders dm ids),
                  BufferManager.get_pages (scan_calls tm ids) bm0)).
  { rewrite (buffered_scan_loop dm tm
               (fun bm => pool_inv None bm /\ coherent dm bm /\
                          dom (BufferManager.page_table bm) ⊆ W /\
                          (size W <= BufferManager.pool_size bm)%nat));
      [done| |done].
    intros bm q (Hi & Hc & Hd & Hs) Hq.
    destruct (fits_step dm W (tm q) q bm Hi Hc Hd Hs (HinS q Hq))
      as (Hr & _ & Hd' & _).
    destruct (get_page_step dm (tm q) q bm Hi Hc)
      as (Hi' & Hc' & [Hs' _] & _).
    split; [exact Hr|]. split; [exact Hi'|]. split; [exact Hc'|].
    split; [exact Hd'|]. by rewrite Hs'. }
  set (bm1 := BufferManager.get_pages (scan_calls tm ids) bm0) in *.
  destruct (fresh_calls dm W tm ids bm0 Hinv0 Hcoh0 Hdom0 HS HinS)
    as (Hlog1 & Hh1 & Hm1); [apply NoDup_seqZ|done|].
  fold bm1 in Hlog1, Hh1, Hm1.
  assert (Hcalls : forall c, c ∈ scan_calls tm ids -> c.2 ∈ W).
  { intros c Hc. apply list_elem_of_fmap in Hc as (q & -> & Hq).
    by apply HinS. }
  destruct (fits_steps dm W (scan_calls tm ids) bm0 Hinv0 Hcoh0 Hdom0 HS Hcalls)
    as (Hev1 & _ & _ & Hres1).
  fold bm1 in Hev1, Hres1.
  destruct (get_pages_step dm (scan_calls tm ids) bm0 Hinv0 Hcoh0)
    as (Hinv1 & Hcoh1 & _).
  fold bm1 in Hinv1, Hcoh1.
  assert (Hres : forall q, q ∈ ids ->
            is_Some (BufferManager.page_table bm1 !! q)).
  { intros q Hq.
    apply (Hres1 (tm q, q)).
    - apply list_elem_of_fmap. by exists q.
    - apply Hexist. cbn [snd]. apply elem_of_seqZ in Hq. lia. }
  (* the second scan *)
  assert (H2 : BufferedQueryEngine.scan_loop tm' ids [] bm1
               = (Ok (stored_orders dm ids),
                  BufferManager.get_pages (scan_calls tm' ids) bm1)).
  { rewrite (buffered_scan_loop dm tm'
               (fun bm => pool_inv None bm /\ coherent dm bm /\
                          forall q, q ∈ ids ->
                            is_Some (BufferManager.page_table bm !! q)));
      [done| |done].
    intros bm q (Hi & Hc & Hr) Hq.
    destruct (resident_step dm (tm' q) q bm Hi Hc (Hr q Hq))
      as (Hr' & _ & _ & Hpt & _).
    destruct (get_page_step dm (tm' q) q bm Hi Hc) as (Hi' & Hc' & _).
    split; [exact Hr'|]. split; [exact Hi'|]. split; [exact Hc'|].
    intros q' Hq'. rewrite Hpt. by apply Hr. }
  destruct (resident_calls dm tm' ids bm1 Hinv1 Hcoh1 Hres)
    as (Hd2 & Hev2 & Hh2 & Hm2).
  intros s1 s2. unfold s2, s1, BufferedQueryEngine.full_table_scan.
  fold ids. fold bm0. rewrite H1. cbn [fst snd]. rewrite H2. cbn [fst snd].
  cbv zeta in Hd2, Hev2, Hh2, Hm2.
  rewrite Hd2, Hev2, Hh2, Hm2, Hlog1, Hh1, Hm1, Hev1, Hlen.
  cbn [BufferManager.disk BufferManager.hits BufferManager.misses
       BufferManager.evictions bm0 BufferManager.init].
  repeat split; lia.
Qed.

Lemma buffered_rescan_cached_witness :
  let s1 := BufferedQueryEngine.full_table_scan (fun _ => tm0) 4
              (BufferManager.init disk4 4 "LRU") in
  BufferManager.disk
    (BufferedQueryEngine.full_table_scan (fun _ => tm0) 4 s1.2).2
  = BufferManager.disk s1.2.
Proof.
  apply (buffered_rescan_cached disk4 4 "LRU" (fun _ => tm0) (fun _ => tm0) 4).
  - vm_compute. discriminate.
  - intros q Hq.
    assert (Hcases : q = 0 \/ q = 1 \/ q = 2 \/ q = 3) by lia.
    destruct Hcases as [-> | [-> | [-> | ->]]];
      intros H; vm_compute in H; discriminate H.
Defined.

(** ** The clock sweep over referenced frames *)











(** ** What [get_page] does to the disk manager *)

Lemma read_page_fields (read_time : Q) (page_id : Z) (dm : DiskManager.t) :
  let d := (DiskManager.read_page read_time page_id dm).2 in
  DiskManager.write_count d = DiskManager.write_count dm /\
  DiskManager.bytes_written d = DiskManager.bytes_written dm /\
  DiskManager.total_write_time d = DiskManager.total_write_time dm /\
  DiskManager.read_count dm <= DiskManager.read_count d
    <= DiskManager.read_count dm + 1.
Proof.
  unfold DiskManager.read_page.
  cbn [DiskManager.file DiskManager.log].
  destruct (DiskManager.file dm); [|cbn; repeat split; lia].
  destruct (page_id <? 0); [cbn; repeat split; lia|].
  destruct (length _ =? DiskPage.PAGE_SIZE)%nat; [|cbn; repeat split; lia].
  destruct (DiskPage.from_bytes page_id _); cbn; repeat split; lia.
Qed.


Lemma reads_only_step dm tm pid bm :
  pool_inv None bm -> reads_only dm bm ->
  reads_only dm (BufferManager.get_page tm pid bm).2.
Proof.
  intros Hinv (Hw & Hb & Ht & Hr & reads & Hlog & Hlen).
  destruct (BufferManager.page_table bm !! pid) as [i|] eqn:Hpt.
  - pose proof Hpt as Hpt'.
    apply (inv_table _ _ _ _ _ _ Hinv) in Hpt' as (fr & Hfr & _).
    rewrite (get_page_hit_eq tm pid bm i fr Hpt Hfr). cbn [snd].
    unfold reads_only.
    change (BufferManager.disk (hit_state bm i)) with (BufferManager.disk bm).
    change (BufferManager.misses (hit_state bm i)) with (BufferManager.misses bm).
    split; [exact Hw|]. split; [exact Hb|]. split; [exact Ht|].
    split; [exact Hr|]. by exists reads.
  - rewrite (get_page_miss_eq tm pid bm Hpt).
    assert (Hinv0 : pool_inv None (miss_state bm)) by exact Hinv.
    destruct (load_page_cases tm pid (miss_state bm) Hinv0)
      as (r1 & bm1 & Hob & _ & Hrel & Hcase).
    destruct Hrel as (Hd & _ & Hm & _).
    change (BufferManager.disk (miss_state bm)) with (BufferManager.disk bm) in Hd.
    change (BufferManager.misses (miss_state bm))
      with (BufferManager.misses bm + 1) in Hm.
    assert (Hstay : reads_only dm bm1).
    { unfold reads_only. rewrite Hd, Hm.
      split; [exact Hw|]. split; [exact Hb|]. split; [exact Ht|].
      split; [lia|]. exists reads. split; [exact Hlog|lia]. }
    destruct r1 as [[i|]|e]; [|by rewrite Hcase..].
    cbv zeta in Hcase.
    destruct (read_page_fields (read_time tm) pid (BufferManager.disk bm1))
      as (Hw' & Hb' & Ht' & Hr').
    destruct (read_page_disk_page (read_time tm) pid (BufferManager.disk bm1))
      as (_ & _ & Hlog' & _).
    set (d := (DiskManager.read_page (read_time tm) pid
                 (BufferManager.disk bm1)).2) in *.
    assert (Hread : reads_only dm (BufferManager.set_disk d bm1)).
    { unfold reads_only. cbn [BufferManager.disk BufferManager.set_disk
        BufferManager.misses].
      rewrite Hw', Hb', Ht', Hlog', Hd, Hm.
      split; [exact Hw|]. split; [exact Hb|]. split; [exact Ht|].
      rewrite Hd in Hr'.
      split; [lia|]. exists (reads ++ [pid]).
      rewrite Hlog, map_app, length_app, <- app_assoc. cbn [map length].
      split; [done|lia]. }
    destruct (disk_page (BufferManager.disk bm1) pid); rewrite Hcase;
      exact Hread.
Qed.

(** X21: serving pages never writes.  After any sequence of [get_page]
    calls on a fresh pool, under any policy, the file is unchanged, the
    write statistics of the disk manager are those it started with, every
    logged disk access since then is a read, no frame is dirty, and the
    pages read from disk are no more than the misses counted. *)
Theorem get_pages_never_write (calls : list (io_times * Z))
    (dm : DiskManager.t) (pool_size : nat) (policy : string) :
  let bm := BufferManager.get_pages calls
              (BufferManager.init dm pool_size policy) in
  DiskManager.file (BufferManager.disk bm) = DiskManager.file dm /\
  (forall fr, fr ∈ BufferManager.frames bm -> BufferFrame.is_dirty fr = false) /\
  reads_only dm bm.
Proof.
  intros bm.
  destruct (get_pages_step dm calls _ (init_inv dm pool_size policy)
              (init_coherent dm pool_size policy))
    as (Hinv & [Hfile _] & _).
  fold bm in Hinv, Hfile.
  split; [exact Hfile|]. split.
  { intros fr Hfr. apply list_elem_of_lookup in Hfr as [i Hi].
    exact (inv_clean _ _ _ _ _ _ Hinv i fr Hi). }
  assert (Hgen : forall cs bm0, pool_inv None bm0 -> reads_only dm bm0 ->
            reads_only dm (BufferManager.get_pages cs bm0)).
  { induction cs as [|[tm pid] cs IH]; intros bm0 Hinv0 Hro; [exact Hro|].
    change (BufferManager.get_pages ((tm, pid) :: cs) bm0)
      with (BufferManager.get_pages cs (BufferManager.get_page tm pid bm0).2).
    apply IH.
    - destruct (get_page_inv tm pid bm0 Hinv0) as (r & bm1 & Heq & Hinv1 & _).
      by rewrite Heq.
    - by apply reads_only_step. }
  apply Hgen; [apply init_inv|].
  unfold reads_only. cbn.
  split; [done|]. split; [done|]. split; [done|]. split; [lia|].
  exists []. cbn. rewrite app_nil_r. split; [done|lia].
Qed.

(** ** The tenant-aware pool *)

Lemma register_user_activity_eq now u bm :
  UserAwareBufferManager.register_user_activity now u bm
  = (Ok tt, (UserAwareBufferManager.register_user_activity now u bm).2).
Proof. reflexivity. Qed.

Lemma llm_step_eq now pid u ty bm r bm' :
  UserAwareBufferManager.get_llm_page now pid u ty bm = (r, bm') ->
  UserAwareBufferManager.evictions bm' = UserAwareBufferManager.evictions bm /\
  UserAwareBufferManager.active_user_evictions bm'
    = UserAwareBufferManager.active_user_evictions bm /\
  UserAwareBufferManager.pool_size bm' = UserAwareBufferManager.pool_size bm /\
  (forall q i, UserAwareBufferManager.page_table bm !! q = Some i ->
     UserAwareBufferManager.page_table bm' !! q = Some i).
Proof.
  unfold UserAwareBufferManager.get_llm_page, bind at 1.
  rewrite register_user_activity_eq.
  set (bm1 := (UserAwareBufferManager.register_user_activity now u bm).2).
  assert (Hbm1 : UserAwareBufferManager.evictions bm1
              = UserAwareBufferManager.evictions bm /\
            UserAwareBufferManager.active_user_evictions bm1
              = UserAwareBufferManager.active_user_evictions bm /\
            UserAwareBufferManager.pool_size bm1
              = UserAwareBufferManager.pool_size bm /\
            UserAwareBufferManager.page_table bm1
              = UserAwareBufferManager.page_table bm).
  { unfold bm1, UserAwareBufferManager.register_user_activity, bind,
      UserAwareBufferManager._update_active_status, modify.
    cbn [snd].
    destruct (UserAwareBufferManager.user_sessions bm !! u); by repeat split. }
  destruct Hbm1 as (Hev & Hae & Hps & Hpt).
  rewrite <- Hev, <- Hae, <- Hps, <- Hpt. clearbody bm1. clear Hev Hae Hps Hpt.
  unfold bind at 1, get at 1.
  destruct (UserAwareBufferManager.page_table bm1 !! pid) as [i|] eqn:Hpid.
  - unfold bind at 1, UserAwareBufferManager.frame_at at 1.
    destruct (UserAwareBufferManager.frames bm1 !! i);
      intros [= <- <-]; by repeat split.
  - unfold bind at 1, modify at 1.
    set (bm2 := UserAwareBufferManager.set_misses _ bm1).
    unfold UserAwareBufferManager._load_llm_page.
    unfold bind at 1, UserAwareBufferManager._get_free_frame at 1.
    change (UserAwareBufferManager.free_frames bm2)
      with (UserAwareBufferManager.free_frames bm1).
    destruct (list_pop (UserAwareBufferManager.free_frames bm1))
      as [[fid rest]|].
    + unfold bind at 1. unfold ret at 1.
      unfold bind at 1, UserAwareBufferManager.frame_at at 1.
      cbn [UserAwareBufferManager.frames UserAwareBufferManager.set_free_frames
           UserAwareBufferManager.update bm2 UserAwareBufferManager.set_misses].
      destruct (UserAwareBufferManager.frames bm1 !! fid);
        [|intros [= <- <-]; by repeat split].
      unfold bind, UserAwareBufferManager.update_frame, modify, ret.
      intros [= <- <-].
      split; [|split; [|split]].
      * by destruct (UserAwareBufferManager.user_sessions _ !! u).
      * by destruct (UserAwareBufferManager.user_sessions _ !! u).
      * by destruct (UserAwareBufferManager.user_sessions _ !! u).
      * intros q j Hq.
        assert (Hne : pid <> q) by (intros ->; congruence).
        destruct (UserAwareBufferManager.user_sessions _ !! u);
          cbn; by rewrite lookup_insert_ne.
    + unfold bind at 1, UserAwareBufferManager._evict_page.
      rewrite evict_user_aware_selects_nothing.
      intros [= <- <-]. by repeat split.
Qed.
(** X22: the tenant-aware pool never evicts.  After any sequence of
    [get_llm_page] calls on a fresh pool no eviction has been counted, a
    resident page stays resident in its frame through any further calls,
    and once the free list is empty every request for a page that is not
    resident returns [None]. *)
Theorem tenant_pool_never_evicts (calls calls' : list (Z * Z * string * PageType))
    (dm : DiskManager.t) (pool_size : nat)
    (now page_id : Z) (user_id : string) (page_type : PageType) (i : nat) :
  let bm := get_llm_pages calls (UserAwareBufferManager.init dm pool_size) in
  UserAwareBufferManager.evictions bm = 0 /\
  UserAwareBufferManager.active_user_evictions bm = 0 /\
  (UserAwareBufferManager.page_table bm !! page_id = Some i ->
   UserAwareBufferManager.page_table (get_llm_pages calls' bm) !! page_id
   = Some i) /\
  (UserAwareBufferManager.free_frames bm = [] ->
   UserAwareBufferManager.page_table bm !! page_id = None ->
   (UserAwareBufferManager.get_llm_page now page_id user_id page_type bm).1
   = Ok None).
Proof.
  assert (Hgen : forall cs bm0,
    UserAwareBufferManager.evictions (get_llm_pages cs bm0)
      = UserAwareBufferManager.evictions bm0 /\
    UserAwareBufferManager.active_user_evictions (get_llm_pages cs bm0)
      = UserAwareBufferManager.active_user_evictions bm0 /\
    forall q j, UserAwareBufferManager.page_table bm0 !! q = Some j ->
      UserAwareBufferManager.page_table (get_llm_pages cs bm0) !! q = Some j).
  { induction cs as [|[[[t q] u] ty] cs IH]; intros bm0; [by repeat split|].
    cbn [get_llm_pages fold_left].
    destruct (UserAwareBufferManager.get_llm_page t q u ty bm0)
      as [r bm1] eqn:Hget.
    destruct (llm_step_eq _ _ _ _ _ _ _ Hget) as (Hev & Hae & _ & Hres).
    destruct (IH bm1) as (Hev' & Hae' & Hres').
    unfold get_llm_pages in *. cbn [snd].
    split; [congruence|]. split; [congruence|].
    intros q' j Hq'. apply Hres', Hres, Hq'. }
  intros bm.
  destruct (Hgen calls (UserAwareBufferManager.init dm pool_size))
    as (Hev & Hae & _).
  fold bm in Hev, Hae.
  split; [exact Hev|]. split; [exact Hae|]. split.
  - intros Hres. by apply (Hgen calls' bm).
  - intros Hfull Hmiss.
    unfold UserAwareBufferManager.get_llm_page, bind at 1.
    rewrite register_user_activity_eq.
    set (bm1 := (UserAwareBufferManager.register_user_activity now user_id bm).2).
    assert (Hbm1 : UserAwareBufferManager.page_table bm1
                   = UserAwareBufferManager.page_table bm /\
                   UserAwareBufferManager.free_frames bm1
                   = UserAwareBufferManager.free_frames bm).
    { unfold bm1, UserAwareBufferManager.register_user_activity, bind,
        UserAwareBufferManager._update_active_status, modify.
      cbn [snd].
      destruct (UserAwareBufferManager.user_sessions bm !! user_id);
        by split. }
    destruct Hbm1 as [Hpt Hff].
    unfold bind at 1, get at 1. rewrite Hpt, Hmiss.
    unfold bind at 1, modify at 1.
    unfold UserAwareBufferManager._load_llm_page.
    unfold bind at 1, UserAwareBufferManager._get_free_frame at 1.
    cbn [UserAwareBufferManager.free_frames UserAwareBufferManager.set_misses
         UserAwareBufferManager.update].
    rewrite Hff, Hfull. cbn [list_pop reverse rev_append].
    unfold bind at 1, UserAwareBufferManager._evict_page.
    by rewrite evict_user_aware_selects_nothing.
Qed.

Lemma tenant_pool_never_evicts_witness :
  (UserAwareBufferManager.get_llm_page (seconds 401) 3 "bob"
     RECENT_CONVERSATION tenant_pool_full).1 = Ok None.
Proof.
  apply (tenant_pool_never_evicts
           [(seconds 0, 1, "alice", SESSION_STATE);
            (seconds 400, 2, "bob", USER_PREFERENCES)] [] disk4 2
           (seconds 401) 3 "bob" RECENT_CONVERSATION 0).
  - vm_compute. reflexivity.
  - vm_compute. reflexivity.
Defined.

(** ** Tenant activity *)

(** The user [u] has a session whose last activity is at [now], and every
    session is flagged by the timeout rule at [now]. *)
Lemma activity_update now u bm :
  (exists s, UserAwareBufferManager.user_sessions bm !! u = Some s /\
             UserSession.last_activity s = now) ->
  let bm' := (UserAwareBufferManager._update_active_status now bm).2 in
  activity_consistent now bm' /\
  (exists s, UserAwareBufferManager.user_sessions bm' !! u = Some s /\
             UserSession.last_activity s = now) /\
  UserAwareBufferManager.activity_timeout bm'
  = UserAwareBufferManager.activity_timeout bm.
Proof.
  intros (s & Hs & Hlast).
  unfold UserAwareBufferManager._update_active_status, modify. cbn.
  split; [|split; [|done]].
  - intros v sv. cbn. rewrite lookup_fmap.
    destruct (UserAwareBufferManager.user_sessions bm !! v) as [s0|];
      [|done].
    cbn. by intros [= <-].
  - rewrite lookup_fmap, Hs. cbn. by eexists.
Qed.

Lemma activity_allocated now u bm (f : Z -> Z) :
  activity_consistent now bm ->
  (exists s, UserAwareBufferManager.user_sessions bm !! u = Some s /\
             UserSession.last_activity s = now) ->
  forall sessions',
  sessions'
  = match UserAwareBufferManager.user_sessions bm !! u with
    | Some session =>
        <[u := UserSession.set_allocated_pages
                 (f (UserSession.allocated_pages session)) session]>
          (UserAwareBufferManager.user_sessions bm)
    | None => UserAwareBufferManager.user_sessions bm
    end ->
  (forall v sv, sessions' !! v = Some sv ->
     UserSession.is_active sv
     = (now - UserSession.last_activity sv
        <=? UserAwareBufferManager.activity_timeout bm)) /\
  (exists s, sessions' !! u = Some s /\ UserSession.last_activity s = now).
Proof.
  intros Hcons (s & Hs & Hlast) sessions' ->. rewrite Hs. split.
  - intros v sv. destruct (decide (v = u)) as [->|Hne].
    + rewrite lookup_insert_eq. intros [= <-]. cbn. by apply (Hcons u).
    + rewrite lookup_insert_ne by done. apply Hcons.
  - rewrite lookup_insert_eq. by eexists.
Qed.

Lemma llm_activity_eq now pid u ty bm r bm' :
  UserAwareBufferManager.get_llm_page now pid u ty bm = (r, bm') ->
  activity_consistent now bm' /\
  (exists s, UserAwareBufferManager.user_sessions bm' !! u = Some s /\
             UserSession.last_activity s = now) /\
  UserAwareBufferManager.activity_timeout bm'
  = UserAwareBufferManager.activity_timeout bm.
Proof.
  unfold UserAwareBufferManager.get_llm_page, bind at 1.
  rewrite register_user_activity_eq.
  set (bm1 := (UserAwareBufferManager.register_user_activity now u bm).2).
  assert (Hbm1 : activity_consistent now bm1 /\
            (exists s, UserAwareBufferManager.user_sessions bm1 !! u = Some s /\
                       UserSession.last_activity s = now) /\
            UserAwareBufferManager.activity_timeout bm1
            = UserAwareBufferManager.activity_timeout bm).
  { assert (Heq : bm1
      = (UserAwareBufferManager._update_active_status now
           match UserAwareBufferManager.user_sessions bm !! u with
           | None =>
               UserAwareBufferManager.set_user_allocations
                 (<[u := 0]> (UserAwareBufferManager.user_allocations bm))
                 (UserAwareBufferManager.set_user_sessions
                    (<[u := UserSession.mk u "default" now true 0]>
                       (UserAwareBufferManager.user_sessions bm)) bm)
           | Some session =>
               UserAwareBufferManager.set_user_sessions
                 (<[u := UserSession.mark_activity now session]>
                    (UserAwareBufferManager.user_sessions bm)) bm
           end).2) by reflexivity.
    rewrite Heq. clear Heq.
    destruct (UserAwareBufferManager.user_sessions bm !! u) as [s0|] eqn:Hu.
    - destruct (activity_update now u
        (UserAwareBufferManager.set_user_sessions
           (<[u := UserSession.mark_activity now s0]>
              (UserAwareBufferManager.user_sessions bm)) bm)) as (H1 & H2 & H3).
      { cbn. rewrite lookup_insert_eq. by eexists. }
      split; [exact H1|]. split; [exact H2|]. exact H3.
    - destruct (activity_update now u
        (UserAwareBufferManager.set_user_allocations
           (<[u := 0]> (UserAwareBufferManager.user_allocations bm))
           (UserAwareBufferManager.set_user_sessions
              (<[u := UserSession.mk u "default" now true 0]>
                 (UserAwareBufferManager.user_sessions bm)) bm)))
        as (H1 & H2 & H3).
      { cbn. rewrite lookup_insert_eq. by eexists. }
      split; [exact H1|]. split; [exact H2|]. exact H3. }
  destruct Hbm1 as (Hcons & Hsess & Hto).
  rewrite <- Hto. clearbody bm1. clear Hto.
  unfold bind at 1, get at 1.
  destruct (UserAwareBufferManager.page_table bm1 !! pid) as [i|] eqn:Hpid.
  - unfold bind at 1, UserAwareBufferManager.frame_at at 1.
    destruct (UserAwareBufferManager.frames bm1 !! i);
      intros [= <- <-]; (split; [exact Hcons|split; [exact Hsess|done]]).
  - unfold bind at 1, modify at 1.
    set (bm2 := UserAwareBufferManager.set_misses _ bm1).
    unfold UserAwareBufferManager._load_llm_page.
    unfold bind at 1, UserAwareBufferManager._get_free_frame at 1.
    change (UserAwareBufferManager.free_frames bm2)
      with (UserAwareBufferManager.free_frames bm1).
    destruct (list_pop (UserAwareBufferManager.free_frames bm1))
      as [[fid rest]|].
    + unfold bind at 1. unfold ret at 1.
      unfold bind at 1, UserAwareBufferManager.frame_at at 1.
      cbn [UserAwareBufferManager.frames UserAwareBufferManager.set_free_frames
           UserAwareBufferManager.update bm2 UserAwareBufferManager.set_misses].
      destruct (UserAwareBufferManager.frames bm1 !! fid);
        [|intros [= <- <-]; (split; [exact Hcons|split; [exact Hsess|done]])].
      unfold bind, UserAwareBufferManager.update_frame, modify, ret.
      intros [= <- <-].
      destruct (activity_allocated now u bm1 (fun n => n + 1) Hcons Hsess _ eq_refl)
        as [Hc' Hs'].
      destruct Hsess as (s & Hs & Hlast).
      cbn. rewrite Hs in *. cbn.
      split; [exact Hc'|]. split; [exact Hs'|done].
    + unfold bind at 1, UserAwareBufferManager._evict_page.
      rewrite evict_user_aware_selects_nothing.
      intros [= <- <-].
      apply (activity_update now u bm2 Hsess).
Qed.

(** X23: who is active.  After a [get_llm_page] call made at the instant
    [now] on a pool reached from a fresh one, whether the call hits, loads
    or fails, the caller has a session whose last activity is [now] and
    which is flagged active, and every session is flagged active exactly
    when its last activity is at most five minutes before [now]. *)
Theorem get_llm_page_activity (calls : list (Z * Z * string * PageType))
    (dm : DiskManager.t) (pool_size : nat)
    (now page_id : Z) (user_id : string) (page_type : PageType) :
  let bm' := (UserAwareBufferManager.get_llm_page now page_id user_id page_type
                (get_llm_pages calls
                   (UserAwareBufferManager.init dm pool_size))).2 in
  (exists session,
     UserAwareBufferManager.user_sessions bm' !! user_id = Some session /\
     UserSession.last_activity session = now /\
     UserSession.is_active session = true) /\
  (forall user session,
     UserAwareBufferManager.user_sessions bm' !! user = Some session ->
     UserSession.is_active session
     = (now - UserSession.last_activity session <=? seconds 300)).
Proof.
  assert (Hto : forall cs bm0,
    UserAwareBufferManager.activity_timeout (get_llm_pages cs bm0)
    = UserAwareBufferManager.activity_timeout bm0).
  { induction cs as [|[[[t q] u] ty] cs IH]; intros bm0; [done|].
    cbn [get_llm_pages fold_left].
    destruct (UserAwareBufferManager.get_llm_page t q u ty bm0)
      as [r bm1] eqn:Hget.
    destruct (llm_activity_eq _ _ _ _ _ _ _ Hget) as (_ & _ & H).
    cbn [snd]. fold (get_llm_pages cs bm1). by rewrite IH. }
  set (bm := get_llm_pages calls (UserAwareBufferManager.init dm pool_size)).
  specialize (Hto calls (UserAwareBufferManager.init dm pool_size)).
  fold bm in Hto.
  destruct (UserAwareBufferManager.get_llm_page now page_id user_id page_type bm)
    as [r bm'] eqn:Hget.
  destruct (llm_activity_eq _ _ _ _ _ _ _ Hget) as (Hcons & (s & Hs & Hlast) & Ht).
  assert (Htimeout : UserAwareBufferManager.activity_timeout bm' = seconds 300).
  { rewrite Ht, Hto. reflexivity. }
  cbn [snd]. split.
  - exists s. split; [exact Hs|]. split; [exact Hlast|].
    rewrite (Hcons user_id s Hs), Hlast, Htimeout, Z.sub_diag. reflexivity.
  - intros v sv Hv. rewrite (Hcons v sv Hv). by rewrite Htimeout.
Qed.

(** ** When a record does not encode *)

Lemma pack_I_cases (n : Z) :
  (u32 n /\ exists w, pack_I n = Ok w) \/
  (~ u32 n /\ pack_I n = Raise StructError).
Proof.
  unfold pack_I, u32.
  destruct (0 <=? n) eqn:E0; [apply Z.leb_le in E0|apply Z.leb_gt in E0];
    (destruct (n <? 2 ^ 32) eqn:E1;
     [apply Z.ltb_lt in E1|apply Z.ltb_ge in E1]); cbn [andb].
  - left. split; [lia|eauto].
  - right. split; [lia|done].
  - right. split; [lia|done].
  - right. split; [lia|done].
Qed.

Lemma struct_pack_error (vals : list Z) :
  ~ Forall u32 vals -> struct_pack vals = Raise StructError.
Proof.
  induction vals as [|v vals IH]; intros Hnot.
  - destruct Hnot. constructor.
  - cbn [struct_pack].
    destruct (pack_I_cases v) as [[Hv [w ->]]|[_ ->]]; [|done].
    cbv [mbind result_bind]. rewrite IH; [done|].
    intros Hall. apply Hnot. by constructor.
Qed.

Lemma int_of_float_raises (x : float) (e : exn) :
  int_of_float x = Raise e -> e = ValueError \/ e = OverflowError.
Proof.
  unfold int_of_float. destruct (FloatOps.Prim2SF x); intros [=]; auto.
Qed.

(** X24: when [Order.to_bytes] fails.  The price is converted first: when
    [int(price * 100)] raises, which is with ValueError or OverflowError
    only, [to_bytes] raises that exception whatever the other fields hold.
    Otherwise the record encodes, to 32 bytes, exactly when its six integer
    fields and the cent amount are unsigned 32-bit values, and raises
    struct.error when one of them is not (a negative price included). *)
Theorem Order_to_bytes_outcome (o : Order.t) :
  (forall e, Order.price_cents o = Raise e ->
     Order.to_bytes o = Raise e /\ (e = ValueError \/ e = OverflowError)) /\
  (forall cents, Order.price_cents o = Ok cents ->
     (int_fields_u32 o /\ u32 cents ->
      exists data, Order.to_bytes o = Ok data /\
                   length data = Order.RECORD_SIZE) /\
     (~ (int_fields_u32 o /\ u32 cents) ->
      Order.to_bytes o = Raise StructError)).
Proof.
  split.
  - intros e He. unfold Order.to_bytes. rewrite He. split; [done|].
    apply (int_of_float_raises _ _ He).
  - intros cents Hc. unfold Order.to_bytes. rewrite Hc.
    cbv [mbind result_bind]. split.
    + intros [(H1 & H2 & H3 & H4 & H5 & H6) Hcents].
      destruct (struct_pack_ok
                  [Order.order_id o; Order.customer_id o; Order.product_id o;
                   Order.quantity o; cents; Order.order_date o;
                   Order.region o; 0]) as [data Hdata].
      { repeat (apply List.Forall_cons; [first [done | unfold u32; lia]|]).
        apply List.Forall_nil. }
      exists data. split; [exact Hdata|].
      apply struct_pack_inv in Hdata as (_ & Hlen & _). exact Hlen.
    + intros Hnot. apply struct_pack_error. intros Hall.
      apply Hnot.
      repeat match goal with
             | H : Forall _ (_ :: _) |- _ =>
                 apply Forall_cons in H; destruct H as [? H]
             end.
      unfold int_fields_u32.
      split; [repeat (split; [assumption|]); assumption | assumption].
Qed.

Lemma Order_to_bytes_outcome_witness :
  Order.to_bytes order_negative = Raise StructError.
Proof.
  apply (proj2 (Order_to_bytes_outcome order_negative) 100).
  - vm_compute. reflexivity.
  - intros [(_ & _ & _ & [H _] & _) _]. vm_compute in H. apply H. reflexivity.
Defined.
